(** * PDF Mixer Pro: page selection, interleaving and the sanitize pipeline

    A shallow embedding of the page-range parser, the interleave loops, the
    metadata sanitizer and the file handling around it, and of the page,
    list and drop operations built on them, taken from
    [PDF_Mixer_Pro_Alex_Dambu_v1.2_nometa.py] and, for the parser and the
    list moves, also from [PDF_Mixer_Pro_Alex_Dambu_v1_nometa[OLD].py].

    Python integers are [Z]; a [str] is a [string] read as a sequence of code
    points below 256; an exception is the [Raise] case of [result]. *)

From Stdlib Require Import ZArith String Ascii List Lia Bool.
From stdpp Require Import gmap strings list.
From Equations.Prop Require Import Equations Logic.
Import ListNotations.

Local Open Scope Z_scope.

(** ** The Python builtins the program calls *)

Module Py.

Inductive exn : Set :=
| ValueError
| IndexError
| OSError
| AttributeError
| PdfReadError
| RuntimeError.

Inductive result (A : Type) : Type :=
| Ok (a : A)
| Raise (e : exn).
Arguments Ok {A} a.
Arguments Raise {A} e.

Definition bind {A B} (r : result A) (k : A -> result B) : result B :=
  match r with
  | Ok a => k a
  | Raise e => Raise e
  end.

#[global] Instance result_ret : MRet result := @Ok.
#[global] Instance result_fmap : FMap result :=
  fun A B f r => bind r (fun a => Ok (f a)).
#[global] Instance result_bind : MBind result := fun A B k r => bind r k.

(** [try: body except ValueError: handler]: only [ValueError] is caught. *)
Definition except_ValueError {A} (body : result A) (handler : result A) : result A :=
  match body with
  | Raise ValueError => handler
  | other => other
  end.

(** [try: body except ValueError: continue] inside a loop: [None] is the
    [continue]. *)
Definition or_continue {A} (body : result A) : result (option A) :=
  except_ValueError (Some <$> body) (Ok None).

(** A [for] loop whose body may raise: the first exception leaves the loop. *)
Fixpoint for_each {A S} (body : S -> A -> result S) (xs : list A) (s : S) : result S :=
  match xs with
  | [] => Ok s
  | x :: rest => s' ← body s x; for_each body rest s'
  end.

(** [not s] for a [str]: true exactly for the empty string. *)
Definition is_empty (s : string) : bool :=
  match s with
  | EmptyString => true
  | String _ _ => false
  end.

(** [str.isspace] on one code point below 256: TAB..CR, FS..US, space,
    NEL (133) and NBSP (160). *)
Definition isspace (c : ascii) : bool :=
  let n := nat_of_ascii c in
  ((9 <=? n) && (n <=? 13) || (28 <=? n) && (n <=? 32)
   || (n =? 133) || (n =? 160))%nat.

Fixpoint lstrip (s : string) : string :=
  match s with
  | String c rest => if isspace c then lstrip rest else s
  | EmptyString => EmptyString
  end.

Fixpoint rstrip (s : string) : string :=
  match s with
  | String c rest =>
      match rstrip rest with
      | EmptyString => if isspace c then EmptyString else String c EmptyString
      | kept => String c kept
      end
  | EmptyString => EmptyString
  end.

(** [s.strip()] *)
Definition strip (s : string) : string := rstrip (lstrip s).

(** [s.split(sep)] for a one-character separator: every occurrence cuts. *)
Fixpoint split (sep : ascii) (s : string) : list string :=
  match s with
  | EmptyString => [EmptyString]
  | String c rest =>
      if Ascii.eqb c sep then EmptyString :: split sep rest
      else match split sep rest with
           | piece :: more => String c piece :: more
           | [] => [String c EmptyString]
           end
  end.

(** [s.split(sep, 1)]: cut at the first occurrence only. *)
Fixpoint split1 (sep : ascii) (s : string) : list string :=
  match s with
  | EmptyString => [EmptyString]
  | String c rest =>
      if Ascii.eqb c sep then [EmptyString; rest]
      else match split1 sep rest with
           | piece :: more => String c piece :: more
           | [] => [String c EmptyString]
           end
  end.

(** [sep in s] for a one-character [sep]. *)
Fixpoint contains (sep : ascii) (s : string) : bool :=
  match s with
  | EmptyString => false
  | String c rest => Ascii.eqb c sep || contains sep rest
  end.

Definition digit_value (c : ascii) : option Z :=
  let n := nat_of_ascii c in
  if ((48 <=? n) && (n <=? 57))%nat then Some (Z.of_nat n - 48) else None.

(** What the scanner of a decimal literal saw last. *)
Inductive seen : Set := Nothing | Digit | Underscore.

(** Digits of a base-10 literal; a single underscore may sit between two
    digits. [None] is a malformed literal. *)
Fixpoint int_digits (s : string) (last : seen) (acc : Z) : option Z :=
  match s with
  | EmptyString => match last with Digit => Some acc | _ => None end
  | String c rest =>
      match digit_value c with
      | Some d => int_digits rest Digit (10 * acc + d)
      | None =>
          if Ascii.eqb c "_" then
            match last with
            | Digit => int_digits rest Underscore acc
            | _ => None
            end
          else None
      end
  end.

(** The white space [int] skips around a literal: TAB..CR and space, and
    NEL (133) and NBSP (160), which it reads as spaces. Unlike
    [str.isspace] it does not skip FS..US. *)
Definition int_space (c : ascii) : bool :=
  let n := nat_of_ascii c in
  ((9 <=? n) && (n <=? 13) || (n =? 32) || (n =? 133) || (n =? 160))%nat.

Fixpoint int_lskip (s : string) : string :=
  match s with
  | String c rest => if int_space c then int_lskip rest else s
  | EmptyString => EmptyString
  end.

Fixpoint int_rskip (s : string) : string :=
  match s with
  | String c rest =>
      match int_rskip rest with
      | EmptyString => if int_space c then EmptyString else String c EmptyString
      | kept => String c kept
      end
  | EmptyString => EmptyString
  end.

(** [int(s)] for a [str]: surrounding whitespace is ignored, one sign is
    allowed, anything else raises [ValueError]. (The bound some
    interpreters put on the number of digits, which raises the same
    [ValueError], is left out.) *)
Definition int (s : string) : result Z :=
  let body := int_rskip (int_lskip s) in
  let signed :=
    match body with
    | String "-" rest => (-1, rest)
    | String "+" rest => (1, rest)
    | _ => (1, body)
    end in
  match int_digits (snd signed) Nothing 0 with
  | Some n => Ok (fst signed * n)
  | None => Raise ValueError
  end.

(** Number of items of [range(start, stop, step)] for a non-zero step. *)
Definition range_len (start stop step : Z) : Z :=
  if 0 <? step then
    if start <? stop then (stop - start - 1) / step + 1 else 0
  else
    if stop <? start then (start - stop - 1) / (- step) + 1 else 0.

(** [range(start, stop, step)] as the list a [for] walks; a zero step
    raises [ValueError]. *)
Definition range (start stop step : Z) : result (list Z) :=
  if step =? 0 then Raise ValueError
  else Ok (map (fun k => start + Z.of_nat k * step)
               (seq 0 (Z.to_nat (range_len start stop step)))).

(** [l[i]]: a negative index counts from the end, an index outside the
    list raises [IndexError]. *)
Definition index {A} (l : list A) (i : Z) : result A :=
  let n := Z.of_nat (length l) in
  let j := if i <? 0 then i + n else i in
  if (0 <=? j) && (j <? n) then
    match nth_error l (Z.to_nat j) with
    | Some x => Ok x
    | None => Raise IndexError
    end
  else Raise IndexError.

(** [s.replace(old, new)]: every non-overlapping occurrence of a non-empty
    [old], scanning from the left; [skip] counts the characters of a match
    that are still to be passed over. *)
Fixpoint replace_from (old new s : string) (skip : nat) : string :=
  match s with
  | EmptyString => EmptyString
  | String c rest =>
      match skip with
      | S k => replace_from old new rest k
      | O =>
          if String.prefix old s
          then (new ++ replace_from old new rest (String.length old - 1))%string
          else String c (replace_from old new rest 0)
      end
  end.

Definition replace (old new s : string) : string := replace_from old new s 0.

End Py.

Import Py.

(** ** The page-range parser *)

(** The range check and the append shared by both branches of the parser:
    [if 1 <= v <= total_pages: indices.append(v - 1)]. *)
Definition append_if_page (total_pages : Z) (indices : list Z) (v : Z) : list Z :=
  if (1 <=? v) && (v <=? total_pages) then indices ++ [v - 1] else indices.

(** The closing loop of the parser: [out, seen = [], set()] and, for each
    index, [if i not in seen: seen.add(i); out.append(i)]. *)
Definition dedup_step (st : list Z * gset Z) (i : Z) : list Z * gset Z :=
  if bool_decide (i ∈ st.2) then st else (st.1 ++ [i], {[i]} ∪ st.2).

Definition dedup_keep_order (indices : list Z) : list Z :=
  (fold_left dedup_step indices ([], ∅)).1.

(** [parse_page_ranges] of version 1.2 (lines 127-154). *)
Module V1_2.

(** The body of [for part in ...], from the list of indices so far to the
    list after the part; [continue] is [Ok indices]. The first [try] covers
    the two [int] calls only, the second the [int] call and the append. *)
Definition parse_part (total_pages : Z) (indices : list Z) (part : string)
  : result (list Z) :=
  if contains "-" part then
    match split1 "-" part with
    | [a; b] =>
        parsed ← or_continue (start ← int a; end_ ← int b; Ok (start, end_));
        match parsed with
        | None => Ok indices
        | Some (start, end_) =>
            let step := if start <=? end_ then 1 else -1 in
            vs ← range start (end_ + step) step;
            Ok (fold_left (append_if_page total_pages) vs indices)
        end
    | _ => Raise ValueError
    end
  else
    except_ValueError
      (v ← int part; Ok (append_if_page total_pages indices v))
      (Ok indices).

Definition parse_page_ranges (ranges_str : string) (total_pages : Z)
  : result (list Z) :=
  if is_empty ranges_str || is_empty (strip ranges_str) then Ok []
  else
    indices ← for_each (parse_part total_pages)
                       (map strip (split "," ranges_str)) [];
    Ok (dedup_keep_order indices).

End V1_2.

(** [parse_page_ranges] of the old version (lines 95-122 of the [OLD] file). *)
Module V1_OLD.

Definition parse_part (total_pages : Z) (indices : list Z) (part : string)
  : result (list Z) :=
  if contains "-" part then
    match split1 "-" part with
    | [a; b] =>
        parsed ← or_continue (start ← int a; end_ ← int b; Ok (start, end_));
        match parsed with
        | None => Ok indices
        | Some (start, end_) =>
            let step := if start <=? end_ then 1 else -1 in
            vs ← range start (end_ + step) step;
            Ok (fold_left (append_if_page total_pages) vs indices)
        end
    | _ => Raise ValueError
    end
  else
    except_ValueError
      (v ← int part; Ok (append_if_page total_pages indices v))
      (Ok indices).

Definition parse_page_ranges (ranges_str : string) (total_pages : Z)
  : result (list Z) :=
  if is_empty ranges_str || is_empty (strip ranges_str) then Ok []
  else
    indices ← for_each (parse_part total_pages)
                       (map strip (split "," ranges_str)) [];
    Ok (dedup_keep_order indices).

End V1_OLD.

(** The reference semantics of section 4.1 of the specification, written
    from its sentences: tokens between commas, a token [a-b] read at its
    first hyphen, values kept when they lie in [1, total_pages], shifted to
    zero-based indices, first occurrences kept. *)
Module Reference.

Definition ascending (a b : Z) : list Z :=
  map (fun k => a + Z.of_nat k) (seq 0 (Z.to_nat (b - a + 1))).

Definition descending (a b : Z) : list Z :=
  map (fun k => a - Z.of_nat k) (seq 0 (Z.to_nat (a - b + 1))).

(** The 1-based values a token stands for; a token that fails integer
    parsing stands for none. *)
Definition token_values (token : string) : list Z :=
  if contains "-" token then
    match split1 "-" token with
    | [a; b] =>
        match int a, int b with
        | Ok a, Ok b => if a <=? b then ascending a b else descending a b
        | _, _ => []
        end
    | _ => []
    end
  else
    match int token with
    | Ok v => [v]
    | Raise _ => []
    end.

Definition in_document (total_pages v : Z) : bool :=
  (1 <=? v) && (v <=? total_pages).

(** Deduplication keeping the first occurrence of every value. *)
Fixpoint first_seen (l : list Z) : list Z :=
  match l with
  | [] => []
  | x :: rest => x :: List.filter (fun y => negb (y =? x)) (first_seen rest)
  end.

Definition parse (expression : string) (total_pages : Z) : list Z :=
  first_seen
    (map (fun v => v - 1)
         (List.filter (in_document total_pages)
                      (flat_map token_values
                                (map strip (split "," expression))))).

End Reference.

(** A token that fails integer parsing, read the way the parser reads it. *)
Definition malformed (part : string) : bool :=
  if contains "-" part then
    match split1 "-" part with
    | [a; b] =>
        match int a, int b with
        | Ok _, Ok _ => false
        | _, _ => true
        end
    | _ => true
    end
  else
    match int part with
    | Ok _ => false
    | Raise _ => true
    end.

(** A string made of whitespace only. *)
Fixpoint all_space (s : string) : bool :=
  match s with
  | EmptyString => true
  | String c rest => isspace c && all_space rest
  end.

(** ** Documents and the PDF library (pypdf) *)

Module Pdf.

(** A page: its content (opaque), the rotation it carries and the size of
    its media box (in whole units: the program only compares the two). *)
Record Page : Type := {
  content : nat;
  rotation : Z;
  mediabox_width : Z;
  mediabox_height : Z;
}.

(** What a PDF file holds, as far as the program can tell: the ordered
    pages, the document information dictionary ([/Info]) and the XMP
    metadata stream. *)
Record Document : Type := {
  pages : list Page;
  info : gmap string string;
  xmp : option string;
}.

Record PdfWriter : Type := {
  w_pages : list Page;
  w_info : gmap string string;
  w_xmp : option string;
}.

(** What the program takes from the library without deciding it: the
    information entries a new writer starts with, and whether the two
    metadata calls exist in the installed version (the program guards
    both with [try ... except Exception: pass]). *)
Record engine : Type := {
  fresh_info : gmap string string;
  has_add_metadata : bool;
  has_xmp_setter : bool;
}.

(** pypdf as published: a new writer is stamped with its producer, and
    both metadata calls exist. *)
Definition pypdf : engine := {|
  fresh_info := {[ "/Producer"%string := "pypdf"%string ]};
  has_add_metadata := true;
  has_xmp_setter := true;
|}.

(** [PdfWriter()] *)
Definition new_writer (E : engine) : PdfWriter :=
  {| w_pages := []; w_info := fresh_info E; w_xmp := None |}.

(** [w.add_page(p)] *)
Definition add_page (w : PdfWriter) (p : Page) : PdfWriter :=
  {| w_pages := w_pages w ++ [p]; w_info := w_info w; w_xmp := w_xmp w |}.

(** [w.add_metadata(infos)]: the entries are merged into the writer's
    information dictionary. *)
Definition add_metadata (E : engine) (infos : gmap string string) (w : PdfWriter)
  : result PdfWriter :=
  if has_add_metadata E
  then Ok {| w_pages := w_pages w; w_info := infos ∪ w_info w; w_xmp := w_xmp w |}
  else Raise AttributeError.

(** [w.xmp_metadata = value] *)
Definition set_xmp_metadata (E : engine) (value : option string) (w : PdfWriter)
  : result PdfWriter :=
  if has_xmp_setter E
  then Ok {| w_pages := w_pages w; w_info := w_info w; w_xmp := value |}
  else Raise AttributeError.

(** The document [w.write(f)] serialises. *)
Definition written (w : PdfWriter) : Document :=
  {| pages := w_pages w; info := w_info w; xmp := w_xmp w |}.

(** [page.rotate(angle)] adds to the rotation the page already has. *)
Definition rotate (angle : Z) (p : Page) : Page :=
  {| content := content p; rotation := rotation p + angle;
     mediabox_width := mediabox_width p; mediabox_height := mediabox_height p |}.

(** [try: body except Exception: pass] around a call that updates the
    writer. *)
Definition best_effort (body : result PdfWriter) (w : PdfWriter) : PdfWriter :=
  match body with
  | Ok w' => w'
  | Raise _ => w
  end.

End Pdf.

Import Pdf.

(** ** The interleave loops of [_do_interleave] (lines 1284-1317) *)

Definition is_odd (i1 : Z) : bool := i1 mod 2 =? 1.

(** One turn of [while ia < pa or ib < pb]. *)
Definition alternate_body (A B : list Page) (pa pb : Z) (st : Z * Z * PdfWriter)
  : result (Z * Z * PdfWriter) :=
  let '(ia, ib, writer) := st in
  st1 ← (if ia <? pa
         then p ← index A ia; Ok (ia + 1, add_page writer p)
         else Ok (ia, writer));
  let '(ia, writer) := st1 in
  st2 ← (if ib <? pb
         then p ← index B ib; Ok (ib + 1, add_page writer p)
         else Ok (ib, writer));
  let '(ib, writer) := st2 in
  Ok (ia, ib, writer).

Equations alternate_loop (A B : list Page) (pa pb ia ib : Z) (writer : PdfWriter)
  : result PdfWriter
  by wf (Z.to_nat (pa - ia) + Z.to_nat (pb - ib))%nat lt :=
  alternate_loop A B pa pb ia ib writer with inspect ((ia <? pa) || (ib <? pb)) := {
    | exist _ false _ => Ok writer
    | exist _ true Hc with inspect (alternate_body A B pa pb (ia, ib, writer)) := {
        | exist _ (Raise e) _ => Raise e
        | exist _ (Ok (ia', ib', writer')) Hb => alternate_loop A B pa pb ia' ib' writer' } }.
Next Obligation.
  clear alternate_loop. unfold alternate_body in Hb.
  destruct (Z.ltb_spec ia pa), (Z.ltb_spec ib pb); try discriminate;
    repeat (destruct (index _ _); simpl in Hb; try discriminate);
    injection Hb as <- <- <-; lia.
Qed.

(** The body of [for i in range(start_from, max(pa, pb) + 1)] in mode
    [a_odd_b_even]. *)
Definition a_odd_b_even_body (A B : list Page) (pa pb : Z) (writer : PdfWriter) (i : Z)
  : result PdfWriter :=
  writer ← (if (i <=? pa) && is_odd i
            then p ← index A (i - 1); Ok (add_page writer p)
            else Ok writer);
  if (i <=? pb) && negb (is_odd i)
  then p ← index B (i - 1); Ok (add_page writer p)
  else Ok writer.

Definition a_even_b_odd_body (A B : list Page) (pa pb : Z) (writer : PdfWriter) (i : Z)
  : result PdfWriter :=
  writer ← (if (i <=? pa) && negb (is_odd i)
            then p ← index A (i - 1); Ok (add_page writer p)
            else Ok writer);
  if (i <=? pb) && is_odd i
  then p ← index B (i - 1); Ok (add_page writer p)
  else Ok writer.

Definition a_odd_body (A : list Page) (writer : PdfWriter) (i : Z) : result PdfWriter :=
  if is_odd i then p ← index A (i - 1); Ok (add_page writer p) else Ok writer.

Definition b_even_body (B : list Page) (writer : PdfWriter) (i : Z) : result PdfWriter :=
  if negb (is_odd i) then p ← index B (i - 1); Ok (add_page writer p) else Ok writer.

(** The mode dispatch: [None] is the unknown mode, for which the program
    shows an error and returns without writing. *)
Definition interleave_pages (A B : list Page) (mode : string) (start_from : Z)
  (writer : PdfWriter) : result (option PdfWriter) :=
  let pa := Z.of_nat (length A) in
  let pb := Z.of_nat (length B) in
  let ia := start_from - 1 in
  let ib := start_from - 1 in
  if String.eqb mode "alternate" then
    Some <$> alternate_loop A B pa pb ia ib writer
  else if String.eqb mode "a_odd_b_even" then
    numbers ← range start_from (Z.max pa pb + 1) 1;
    Some <$> for_each (a_odd_b_even_body A B pa pb) numbers writer
  else if String.eqb mode "a_even_b_odd" then
    numbers ← range start_from (Z.max pa pb + 1) 1;
    Some <$> for_each (a_even_b_odd_body A B pa pb) numbers writer
  else if String.eqb mode "a_odd" then
    numbers ← range start_from (pa + 1) 1;
    Some <$> for_each (a_odd_body A) numbers writer
  else if String.eqb mode "b_even" then
    numbers ← range start_from (pb + 1) 1;
    Some <$> for_each (b_even_body B) numbers writer
  else Ok None.

(** The interleave policies of section 4.3 of the specification, written
    from its sentences as the ordered list of (document, 1-based page number)
    the output is made of. *)
Module InterleaveReference.

Inductive source : Set := DocA | DocB.

(** The page numbers [first, first + 1, ..., last]. *)
Definition page_numbers (first last : Z) : list Z :=
  map (fun k => first + Z.of_nat k) (seq 0 (Z.to_nat (last - first + 1))).

Definition alternate (pa pb start_from : Z) : list (source * Z) :=
  flat_map (fun i => (if i <=? pa then [(DocA, i)] else [])
                     ++ (if i <=? pb then [(DocB, i)] else []))
           (page_numbers start_from (Z.max pa pb)).

Definition a_odd_b_even (pa pb start_from : Z) : list (source * Z) :=
  flat_map (fun i => (if (i <=? pa) && Z.odd i then [(DocA, i)] else [])
                     ++ (if (i <=? pb) && Z.even i then [(DocB, i)] else []))
           (page_numbers start_from (Z.max pa pb)).

(** Page number [i] of a document, counted from 1. *)
Definition page (A B : list Page) (ref : source * Z) : option Page :=
  let doc := match ref.1 with DocA => A | DocB => B end in
  if 1 <=? ref.2 then nth_error doc (Z.to_nat (ref.2 - 1)) else None.

(** The pages a plan names, when all of them exist. *)
Fixpoint fetch (A B : list Page) (plan : list (source * Z)) : option (list Page) :=
  match plan with
  | [] => Some []
  | ref :: rest =>
      match page A B ref, fetch A B rest with
      | Some p, Some ps => Some (p :: ps)
      | _, _ => None
      end
  end.

(** A writer after the given pages were added in order. *)
Definition add_pages (writer : PdfWriter) (ps : list Page) : PdfWriter :=
  {| w_pages := w_pages writer ++ ps;
     w_info := w_info writer; w_xmp := w_xmp writer |}.

End InterleaveReference.

(** ** The file system, the dialogs and the operations *)

(** What a path holds: a PDF that can be read back, or something
    [PdfReader] cannot open (a file left truncated by a failed write, a
    file of another format). *)
Inductive file : Type :=
| PdfFile (d : Document)
| Unreadable.

(** The message boxes shown to the user (their texts are left out). *)
Inductive event : Set := showwarning | showerror | showinfo.

(** The state an operation runs in: the files on disk, the outcome of the
    coming reads and writes of the PDF library and that of the coming
    [os.replace] and [os.remove] calls on files that exist ([true] is a
    failure; past the end of a list nothing fails), and the message boxes
    shown so far. *)
Record world : Type := {
  files : gmap string file;
  faults : list bool;
  os_faults : list bool;
  shown : list event;
}.

Definition M (A : Type) : Type := world -> world * result A.

#[global] Instance M_ret : MRet M := fun A a w => (w, Ok a).
#[global] Instance M_bind : MBind M := fun A B k m w =>
  match m w with
  | (w', Ok a) => k a w'
  | (w', Raise e) => (w', Raise e)
  end.

Definition raise {A} (e : exn) : M A := fun w => (w, Raise e).

(** A computation that only may raise, run inside an operation. *)
Definition lift {A} (r : result A) : M A := fun w => (w, r).

(** [try: body except Exception: handler] *)
Definition try_except {A} (body handler : M A) : M A := fun w =>
  match body w with
  | (w', Ok a) => (w', Ok a)
  | (w', Raise _) => handler w'
  end.

Definition messagebox (e : event) : M unit := fun w =>
  ({| files := files w; faults := faults w; os_faults := os_faults w;
      shown := shown w ++ [e] |}, Ok tt).

Definition set_files (fs : gmap string file) : M unit := fun w =>
  ({| files := fs; faults := faults w; os_faults := os_faults w;
      shown := shown w |}, Ok tt).

Definition get_files : M (gmap string file) := fun w => (w, Ok (files w)).

Definition next_fault : M bool := fun w =>
  match faults w with
  | [] => (w, Ok false)
  | b :: rest =>
      ({| files := files w; faults := rest; os_faults := os_faults w;
          shown := shown w |}, Ok b)
  end.

Definition next_os_fault : M bool := fun w =>
  match os_faults w with
  | [] => (w, Ok false)
  | b :: rest =>
      ({| files := files w; faults := faults w; os_faults := rest;
          shown := shown w |}, Ok b)
  end.

(** [os.path.exists(path)] *)
Definition os_path_exists (path : string) : M bool :=
  fs ← get_files; mret (bool_decide (is_Some (fs !! path))).

(** [os.replace(src, dst)]: the file moves, replacing what was at [dst].
    It raises when [src] is missing, and it can fail on a file that exists
    (a locked file, a permission); a call that fails changes nothing. *)
Definition os_replace (src dst : string) : M unit :=
  fs ← get_files;
  match fs !! src with
  | Some f =>
      failed ← next_os_fault;
      if failed : bool then raise OSError
      else set_files (<[dst := f]> (delete src fs))
  | None => raise OSError
  end.

(** [os.remove(path)]: raises when the path is missing and can fail on a
    file that exists; a call that fails changes nothing. *)
Definition os_remove (path : string) : M unit :=
  fs ← get_files;
  match fs !! path with
  | Some _ =>
      failed ← next_os_fault;
      if failed : bool then raise OSError
      else set_files (delete path fs)
  | None => raise OSError
  end.

(** [PdfReader(path)]: the document is read whole when the reader is
    created. *)
Definition PdfReader (path : string) : M Document :=
  failed ← next_fault;
  if failed : bool then raise PdfReadError
  else
    fs ← get_files;
    match fs !! path with
    | Some (PdfFile d) => mret d
    | Some Unreadable => raise PdfReadError
    | None => raise OSError
    end.

(** [with open(path, "wb") as f: writer.write(f)]: opening truncates the
    file; a write that fails leaves it truncated. *)
Definition write_pdf (path : string) (writer : PdfWriter) : M unit :=
  failed ← next_fault;
  if failed : bool then raise OSError
  else
    fs ← get_files;
    set_files (<[path := Unreadable]> fs);;
    failed ← next_fault;
    if failed : bool then raise OSError
    else
      fs ← get_files;
      set_files (<[path := PdfFile (written writer)]> fs).

(** What the program leaves to its platform: [os.path] and the office
    converters, each of which yields a PDF or fails. *)
Record host : Type := {
  os_path_basename : string -> string;
  os_path_splitext_root : string -> string;
  os_path_join : string -> string -> string;
  office_export : string -> string -> option Document;
  soffice_export : string -> option Document;
}.

Section Program.

Context (E : engine) (hst : host).

(** [sanitize_pdf_no_metadata] (lines 215-235). *)
Definition sanitize_writer (r : Document) : PdfWriter :=
  let w := new_writer E in
  let w := fold_left add_page (pages r) w in
  let w := best_effort (add_metadata E ∅ w) w in
  let w := best_effort (set_xmp_metadata E None w) w in
  w.

Definition sanitize_pdf_no_metadata (src_pdf dst_pdf : string) : M unit :=
  r ← PdfReader src_pdf;
  write_pdf dst_pdf (sanitize_writer r).

(** [auto_rotate_pdf_pages_to_landscape] (lines 238-253). *)
Definition auto_rotate_page (w : PdfWriter) (p : Page) : PdfWriter :=
  add_page w (if mediabox_width p <? mediabox_height p then rotate 90 p else p).

Definition auto_rotate_pdf_pages_to_landscape (src_pdf dst_pdf : string) : M unit :=
  r ← PdfReader src_pdf;
  write_pdf dst_pdf (fold_left auto_rotate_page (pages r) (new_writer E)).

(** [safe_open_reader] (lines 166-173). *)
Definition safe_open_reader (path : string) : M (option Document) :=
  try_except (r ← PdfReader path; mret (Some r))
             (messagebox showerror;; mret None).

(** [convert_office_doc_to_pdf] (lines 407-433): Office first, then
    LibreOffice; [RuntimeError] when both fail. *)
Definition convert_office_doc_to_pdf (in_path out_pdf kind : string) : M unit :=
  let known := String.eqb kind "word" || String.eqb kind "excel"
               || String.eqb kind "ppt" in
  match (if known then office_export hst kind in_path else None) with
  | Some d => fs ← get_files; set_files (<[out_pdf := PdfFile d]> fs)
  | None =>
      match soffice_export hst in_path with
      | Some d => fs ← get_files; set_files (<[out_pdf := PdfFile d]> fs)
      | None => raise RuntimeError
      end
  end.

(** The block every assembly operation ends with (lines 1202-1213,
    1323-1333, 1373-1383, 1426-1436, 1505-1515, 1550-1560, 1606-1616). *)
Definition sanitize_output (out_path : string) : M unit :=
  let tmp2 := replace ".pdf" ".__tmp__.pdf" out_path in
  try_except
    (os_replace out_path tmp2;;
     sanitize_pdf_no_metadata tmp2 out_path;;
     os_remove tmp2)
    (try_except
       (there ← os_path_exists tmp2;
        if there : bool then os_replace tmp2 out_path else mret tt)
       (mret tt)).

(** The reading loop of [merge_serial]; [None] is the [return] taken
    when a source cannot be opened. *)
Fixpoint merge_sources (items : list string) (writer : PdfWriter)
  : M (option PdfWriter) :=
  match items with
  | [] => mret (Some writer)
  | path :: rest =>
      reader ← safe_open_reader path;
      match reader with
      | None => mret None
      | Some r => merge_sources rest (fold_left add_page (pages r) writer)
      end
  end.

(** [merge_serial] (lines 1178-1220); [out_path] is the answer to the
    save dialog, empty when it was cancelled. *)
Definition merge_serial (items : list string) (out_path : string) : M unit :=
  match items with
  | [] => messagebox showwarning
  | _ =>
      if is_empty out_path then mret tt
      else
        try_except
          (merged ← merge_sources items (new_writer E);
           match merged with
           | None => mret tt
           | Some writer =>
               write_pdf out_path writer;;
               sanitize_output out_path;;
               messagebox showinfo
           end)
          (messagebox showerror)
  end.

(** [_do_interleave] (lines 1274-1337). *)
Definition _do_interleave (path_a path_b mode : string) (start_from : Z)
  (out_path : string) : M unit :=
  reader_a ← safe_open_reader path_a;
  reader_b ← safe_open_reader path_b;
  match reader_a, reader_b with
  | Some a, Some b =>
      if is_empty out_path then mret tt
      else
        chosen ← lift (interleave_pages (pages a) (pages b) mode start_from
                                        (new_writer E));
        match chosen with
        | None => messagebox showerror
        | Some writer =>
            write_pdf out_path writer;;
            sanitize_output out_path;;
            messagebox showinfo
        end
  | _, _ => mret tt
  end.

(** The checks both page dialogs start with: a list that is not empty,
    exactly one selected entry, a file that opens. [None] is a [return]. *)
Definition selected_reader (items : list string) (sel : list Z)
  : M (option Document) :=
  match items with
  | [] => messagebox showwarning;; mret None
  | _ =>
      match sel with
      | [chosen] => path ← lift (index items chosen); safe_open_reader path
      | _ => messagebox showwarning;; mret None
      end
  end.

Definition extract_body (reader : Document) (writer : PdfWriter) (i : Z)
  : result PdfWriter :=
  p ← index (pages reader) i; Ok (add_page writer p).

(** [extract_pages_dialog] (lines 1339-1388); [ranges] is the answer to
    the text prompt, [None] when it was cancelled. *)
Definition extract_pages_dialog (items : list string) (sel : list Z)
  (ranges : option string) (out_path : string) : M unit :=
  opened ← selected_reader items sel;
  match opened, ranges with
  | Some reader, Some ranges =>
      let total := Z.of_nat (length (pages reader)) in
      idxs ← lift (V1_2.parse_page_ranges ranges total);
      match idxs with
      | [] => messagebox showwarning
      | _ =>
          if is_empty out_path then mret tt
          else
            writer ← lift (for_each (extract_body reader) idxs (new_writer E));
            write_pdf out_path writer;;
            sanitize_output out_path;;
            messagebox showinfo
      end
  | _, _ => mret tt
  end.

Definition delete_body (reader : Document) (to_delete : gset Z)
  (writer : PdfWriter) (i : Z) : result PdfWriter :=
  if bool_decide (i ∈ to_delete) then Ok writer
  else p ← index (pages reader) i; Ok (add_page writer p).

(** [delete_pages_dialog] (lines 1390-1441). *)
Definition delete_pages_dialog (items : list string) (sel : list Z)
  (ranges : option string) (out_path : string) : M unit :=
  opened ← selected_reader items sel;
  match opened, ranges with
  | Some reader, Some ranges =>
      let total := Z.of_nat (length (pages reader)) in
      parsed ← lift (V1_2.parse_page_ranges ranges total);
      let to_delete : gset Z := list_to_set parsed in
      if bool_decide (to_delete = ∅) then messagebox showwarning
      else if is_empty out_path then mret tt
      else
        writer ← lift (numbers ← range 0 total 1;
                       for_each (delete_body reader to_delete) numbers
                                (new_writer E));
        write_pdf out_path writer;;
        sanitize_output out_path;;
        messagebox showinfo
  | _, _ => mret tt
  end.

(** A [for] loop over the selected input files. *)
Fixpoint for_each_path (body : string -> M unit) (paths : list string) : M unit :=
  match paths with
  | [] => mret tt
  | p :: rest => body p;; for_each_path body rest
  end.

Definition tmp_pdf_of (out_dir in_path : string) : string :=
  os_path_join hst out_dir (os_path_splitext_root hst (os_path_basename hst in_path) ++ ".__tmp__.pdf").

Definition mid_pdf_of (out_dir in_path : string) : string :=
  os_path_join hst out_dir (os_path_splitext_root hst (os_path_basename hst in_path) ++ ".__mid__.pdf").

Definition final_pdf_of (out_dir in_path : string) : string :=
  os_path_join hst out_dir (os_path_splitext_root hst (os_path_basename hst in_path) ++ ".pdf").

(** The loop body of [convert_ppt_dialog] (lines 1023-1032). *)
Definition convert_ppt_item (out_dir in_path : string) : M unit :=
  let tmp_pdf := tmp_pdf_of out_dir in_path in
  let final_pdf := final_pdf_of out_dir in_path in
  convert_office_doc_to_pdf in_path tmp_pdf "ppt";;
  sanitize_pdf_no_metadata tmp_pdf final_pdf;;
  try_except (os_remove tmp_pdf) (mret tt).

(** [convert_ppt_dialog] (lines 1005-1043). *)
Definition convert_ppt_dialog (paths : list string) (out_dir : string) : M unit :=
  match paths with
  | [] => mret tt
  | _ =>
      if is_empty out_dir then mret tt
      else
        try_except
          (for_each_path (convert_ppt_item out_dir) paths;;
           messagebox showinfo)
          (messagebox showerror)
  end.

(** [if os.path.exists(p): os.remove(p)] under [try ... except: pass]. *)
Definition remove_if_exists (p : string) : M unit :=
  try_except
    (there ← os_path_exists p; if there : bool then os_remove p else mret tt)
    (mret tt).

(** The loop body of [convert_excel_dialog] (lines 1069-1087). *)
Definition convert_excel_item (force_landscape : bool) (out_dir in_path : string)
  : M unit :=
  let tmp_pdf := tmp_pdf_of out_dir in_path in
  let mid_pdf := mid_pdf_of out_dir in_path in
  let final_pdf := final_pdf_of out_dir in_path in
  convert_office_doc_to_pdf in_path tmp_pdf "excel";;
  (if force_landscape
   then auto_rotate_pdf_pages_to_landscape tmp_pdf mid_pdf;;
        sanitize_pdf_no_metadata mid_pdf final_pdf
   else sanitize_pdf_no_metadata tmp_pdf final_pdf);;
  remove_if_exists tmp_pdf;;
  remove_if_exists mid_pdf.

(** [convert_excel_dialog] (lines 1045-1098). *)
Definition convert_excel_dialog (paths : list string) (out_dir : string)
  (force_landscape : bool) : M unit :=
  match paths with
  | [] => mret tt
  | _ =>
      if is_empty out_dir then mret tt
      else
        try_except
          (for_each_path (convert_excel_item force_landscape out_dir) paths;;
           messagebox showinfo)
          (messagebox showerror)
  end.

End Program.

(** [posixpath]: the [os.path] of a POSIX host. *)
Module Posix.

Fixpoint basename (p : string) : string :=
  match p with
  | EmptyString => EmptyString
  | String c rest =>
      if contains "/" rest then basename rest
      else if Ascii.eqb c "/" then rest else p
  end.

(** The root part of [splitext]: the name up to its last dot, unless only
    dots come before that dot. *)
Fixpoint splitext_root_from (s : string) (seen_other : bool) : string :=
  match s with
  | EmptyString => EmptyString
  | String c rest =>
      if Ascii.eqb c "." && seen_other && negb (contains "." rest)
      then EmptyString
      else String c (splitext_root_from rest (seen_other || negb (Ascii.eqb c ".")))
  end.

Definition splitext_root (name : string) : string := splitext_root_from name false.

Fixpoint ends_with_slash (s : string) : bool :=
  match s with
  | EmptyString => false
  | String c EmptyString => Ascii.eqb c "/"
  | String _ rest => ends_with_slash rest
  end.

Definition join (a b : string) : string :=
  match b with
  | String "/" _ => b
  | _ => if is_empty a || ends_with_slash a then (a ++ b)%string
         else (a ++ "/" ++ b)%string
  end.

End Posix.

(** A POSIX host with the given converters. *)
Definition posix_host (office : string -> string -> option Document)
  (soffice : string -> option Document) : host :=
  {| os_path_basename := Posix.basename;
     os_path_splitext_root := Posix.splitext_root;
     os_path_join := Posix.join;
     office_export := office;
     soffice_export := soffice |}.

(** ** Sample documents and disks *)

Definition page_n (n : nat) : Page :=
  {| content := n; rotation := 0; mediabox_width := 595; mediabox_height := 842 |}.

(** A three-page document that carries an author entry and an XMP stream. *)
Definition three_pages : Document :=
  {| pages := [page_n 1; page_n 2; page_n 3];
     info := {[ "/Author"%string := "A. Author"%string ]};
     xmp := Some "<x:xmpmeta/>"%string |}.

(** A one-page document with a rotated page and no metadata at all. *)
Definition plain_doc : Document :=
  {| pages := [rotate 90 (page_n 1)]; info := ∅; xmp := None |}.

(** A disk holding [a.pdf] and [plain.pdf], with the given outcomes of the
    coming reads and writes; no [os.replace] or [os.remove] fails on it. *)
Definition disk (outcomes : list bool) : world :=
  {| files := {[ "a.pdf"%string := PdfFile three_pages;
                 "plain.pdf"%string := PdfFile plain_doc ]};
     faults := outcomes; os_faults := []; shown := [] |}.

(** The same state with the given outcomes of the coming [os.replace] and
    [os.remove] calls. *)
Definition with_os_faults (outcomes : list bool) (w : world) : world :=
  {| files := files w; faults := faults w; os_faults := outcomes;
     shown := shown w |}.

(** The state after one more warning box. *)
Definition warned (w : world) : world :=
  {| files := files w; faults := faults w; os_faults := os_faults w;
     shown := shown w ++ [showwarning] |}.

(** Unfolds the state-passing combinators and the file primitives. *)
Ltac run_with tac :=
  repeat (tac;
          unfold PdfReader, write_pdf, next_fault, next_os_fault,
          get_files, set_files, raise, lift, messagebox, try_except,
          os_replace, os_remove, os_path_exists,
          mbind, M_bind, mret, M_ret in *; simpl in *).
Ltac run := run_with ltac:(unfold sanitize_pdf_no_metadata in *).
Ltac step := run_with idtac.

(** ** The other operations *)

From Stdlib Require Import DecimalString Sorted.

(** [str(n)] for an [int]. *)
Definition str (n : Z) : string := NilZero.string_of_int (Z.to_int n).

(** [page.rotate(angle)] as the program reaches it: pypdf accepts only
    multiples of 90 and raises [ValueError] otherwise. *)
Definition page_rotate (angle : Z) (p : Page) : result Page :=
  if angle mod 90 =? 0 then Ok (rotate angle p) else Raise ValueError.

(** [rotate_page] (lines 176-180). *)
Definition rotate_page (page : Page) (degrees : Z) : result Page :=
  let d := degrees mod 360 in
  if d =? 0 then Ok page else page_rotate d page.

(** The loop body of [_do_rotate] (lines 1494-1500). *)
Definition rotate_body (reader : Document) (idx_set : gset Z) (degrees : Z)
  (writer : PdfWriter) (i : Z) : result PdfWriter :=
  page ← index (pages reader) i;
  page ← (if bool_decide (i ∈ idx_set) then rotate_page page degrees else Ok page);
  Ok (add_page writer page).

Section MoreProgram.

Context (E : engine) (hst : host).

(** The loop body of [convert_word_dialog] (lines 1117-1127). *)
Definition convert_word_item (out_dir in_path : string) : M unit :=
  let tmp_pdf := tmp_pdf_of hst out_dir in_path in
  let final_pdf := final_pdf_of hst out_dir in_path in
  convert_office_doc_to_pdf hst in_path tmp_pdf "word";;
  sanitize_pdf_no_metadata E tmp_pdf final_pdf;;
  try_except (os_remove tmp_pdf) (mret tt).

(** [convert_word_dialog] (lines 1100-1138). *)
Definition convert_word_dialog (paths : list string) (out_dir : string) : M unit :=
  match paths with
  | [] => mret tt
  | _ =>
      if is_empty out_dir then mret tt
      else
        try_except
          (for_each_path (convert_word_item out_dir) paths;;
           messagebox showinfo)
          (messagebox showerror)
  end.

(** [_do_rotate] (lines 1481-1519); [out_path] is the answer to the save
    dialog, empty when it was cancelled. *)
Definition _do_rotate (path : string) (degrees : Z) (ranges out_path : string)
  : M unit :=
  opened ← safe_open_reader path;
  match opened with
  | None => mret tt
  | Some reader =>
      let total := Z.of_nat (length (pages reader)) in
      idxs ← lift (if is_empty (strip ranges) then range 0 total 1
                   else V1_2.parse_page_ranges ranges total);
      if is_empty out_path then mret tt
      else
        let idx_set : gset Z := list_to_set idxs in
        writer ← lift (numbers ← range 0 total 1;
                       for_each (rotate_body reader idx_set degrees) numbers
                                (new_writer E));
        write_pdf out_path writer;;
        sanitize_output E out_path;;
        messagebox showinfo
  end.

(** [reverse_pages_dialog] (lines 1521-1565). *)
Definition reverse_pages_dialog (items : list string) (sel : list Z)
  (out_path : string) : M unit :=
  opened ← selected_reader items sel;
  match opened with
  | None => mret tt
  | Some reader =>
      if is_empty out_path then mret tt
      else
        let total := Z.of_nat (length (pages reader)) in
        writer ← lift (numbers ← range (total - 1) (-1) (-1);
                       for_each (extract_body reader) numbers (new_writer E));
        write_pdf out_path writer;;
        sanitize_output E out_path;;
        messagebox showinfo
  end.

(** The pages of one part of [split_every_dialog] (lines 1594-1597). *)
Definition split_chunk (reader : Document) (n total start : Z) : result PdfWriter :=
  let end_ := Z.min (start + n) total in
  numbers ← range start end_ 1;
  for_each (extract_body reader) numbers (new_writer E).

(** The name of that part (line 1601). *)
Definition split_name (out_dir base : string) (n total start : Z) : string :=
  let end_ := Z.min (start + n) total in
  os_path_join hst out_dir
    (base ++ "_part_" ++ str (start + 1) ++ "-" ++ str end_ ++ ".pdf").

(** The loop body of [split_every_dialog] (lines 1594-1616). *)
Definition split_body (reader : Document) (out_dir base : string) (n total start : Z)
  : M unit :=
  writer ← lift (split_chunk reader n total start);
  let out_path := split_name out_dir base n total start in
  write_pdf out_path writer;;
  sanitize_output E out_path.

(** A [for] loop over numbers whose body acts on the disk. *)
Fixpoint for_each_number (body : Z -> M unit) (numbers : list Z) : M unit :=
  match numbers with
  | [] => mret tt
  | i :: rest => body i;; for_each_number body rest
  end.

(** [split_every_dialog] (lines 1567-1623); [n] is the answer to the
    integer prompt (at least 1, or [None] when it was cancelled), [out_dir]
    the chosen folder, empty when that was cancelled. *)
Definition split_every_dialog (items : list string) (sel : list Z) (n : option Z)
  (out_dir : string) : M unit :=
  match items with
  | [] => messagebox showwarning
  | _ =>
      match sel with
      | [chosen] =>
          path ← lift (index items chosen);
          opened ← safe_open_reader path;
          match opened, n with
          | Some reader, Some n =>
              if is_empty out_dir then mret tt
              else
                let total := Z.of_nat (length (pages reader)) in
                let base := os_path_splitext_root hst (os_path_basename hst path) in
                starts ← lift (range 0 total n);
                for_each_number (split_body reader out_dir base n total) starts;;
                messagebox showinfo
          | _, _ => mret tt
          end
      | _ => messagebox showwarning
      end
  end.

End MoreProgram.

(** ** The file list *)

(** The entries of the Tk listbox, as the program uses it: [get],
    [delete] and [insert] at one index. Outside the list [get] yields the
    empty string, [delete] does nothing and [insert] adds at the nearer
    end. *)
Module Listbox.

Definition inside (items : list string) (i : Z) : bool :=
  (0 <=? i) && (i <? Z.of_nat (length items)).

Definition get (items : list string) (i : Z) : string :=
  if inside items i then nth (Z.to_nat i) items EmptyString else EmptyString.

Definition delete (items : list string) (i : Z) : list string :=
  if inside items i
  then firstn (Z.to_nat i) items ++ skipn (S (Z.to_nat i)) items
  else items.

Definition insert (items : list string) (i : Z) (text : string) : list string :=
  firstn (Z.to_nat i) items ++ text :: skipn (Z.to_nat i) items.

End Listbox.

(** [remove_selected] (lines 972-979); [idxs] is [selected_indices()]. *)
Definition remove_selected (idxs : list Z) (items : list string) : list string :=
  match idxs with
  | [] => items
  | _ => fold_left Listbox.delete (rev idxs) items
  end.

(** One turn of the loop of [move_selected]. *)
Definition move_step (direction : Z) (items : list string) (i : Z) : list string :=
  let new_i := i + direction in
  if (0 <=? new_i) && (new_i <? Z.of_nat (length items)) then
    let text := Listbox.get items i in
    Listbox.insert (Listbox.delete items i) new_i text
  else items.

(** [move_selected] (lines 981-994). *)
Definition move_selected (direction : Z) (idxs : list Z) (items : list string)
  : list string :=
  match idxs with
  | [] => items
  | _ =>
      let rng := if direction <? 0 then idxs else rev idxs in
      fold_left (move_step direction) rng items
  end.

(** [move_selected] of the older program (lines 437-448 there). *)
Definition move_selected_OLD (direction : Z) (idxs : list Z) (items : list string)
  : list string :=
  match idxs with
  | [] => items
  | _ => fold_left (move_step direction) idxs items
  end.

(** ** Dropped files *)

(** The state of the scan of [_parse_dnd_file_list]. *)
Record dnd_state : Type := {
  dnd_out : list string;
  dnd_token : string;
  dnd_in_brace : bool;
}.

(** One turn of [for ch in dnd_data] (lines 188-195). *)
Definition dnd_step (st : dnd_state) (ch : ascii) : dnd_state :=
  if Ascii.eqb ch "{" then
    {| dnd_out := dnd_out st; dnd_token := EmptyString; dnd_in_brace := true |}
  else if Ascii.eqb ch "}" then
    {| dnd_out := dnd_out st ++ [dnd_token st]; dnd_token := EmptyString;
       dnd_in_brace := false |}
  else if Ascii.eqb ch " " && negb (dnd_in_brace st) then
    if is_empty (dnd_token st) then st
    else {| dnd_out := dnd_out st ++ [dnd_token st]; dnd_token := EmptyString;
            dnd_in_brace := dnd_in_brace st |}
  else
    {| dnd_out := dnd_out st; dnd_token := dnd_token st ++ String ch EmptyString;
       dnd_in_brace := dnd_in_brace st |}.

(** The state the scan starts in (line 186). *)
Definition dnd_start : dnd_state :=
  {| dnd_out := []; dnd_token := EmptyString; dnd_in_brace := false |}.

(** The scan and the last token (lines 187-196). *)
Definition dnd_scan (st : dnd_state) (dnd_data : string) : list string :=
  let st := fold_left dnd_step (list_ascii_of_string dnd_data) st in
  if is_empty (dnd_token st) then dnd_out st else dnd_out st ++ [dnd_token st].

(** [_parse_dnd_file_list] (lines 183-197), for the [os.path.normpath] of
    the host. *)
Definition _parse_dnd_file_list (normpath : string -> string) (dnd_data : string)
  : list string :=
  if is_empty dnd_data then []
  else map normpath (dnd_scan dnd_start dnd_data).

(** ** Notions used in the statements *)

(** A string without the separator characters FS, GS, RS and US (28..31),
    which [str.strip] removes and [int] does not skip. *)
Definition separator_free (s : string) : bool :=
  forallb (fun c => negb ((28 <=? nat_of_ascii c) && (nat_of_ascii c <=? 31))%nat)
          (list_ascii_of_string s).

(** [y not in a] for a list. *)
Definition absent_from (a : list Z) (y : Z) : bool :=
  negb (existsb (Z.eqb y) a).

(** The pages of a document at the given 0-based indices, in that order. *)
Definition pages_at (doc : list Page) (idxs : list Z) : list Page :=
  map (fun i => nth (Z.to_nat i) doc (page_n 0)) idxs.

(** An operation that shows no message box. *)
Definition quiet {A} (m : M A) : Prop := forall w, shown (m w).1 = shown w.

(** An operation that makes no [os.replace] or [os.remove] call on a file
    that exists. *)
Definition no_os_call {A} (m : M A) : Prop :=
  forall w, os_faults (m w).1 = os_faults w.

(** What [_do_rotate] makes of page [i] when the angle is one pypdf accepts
    and [idxs] are the selected indices. *)
Definition turned (idxs : list Z) (degrees : Z) (i : nat) (p : Page) : Page :=
  if bool_decide (Z.of_nat i ∈ idxs) then rotate (degrees mod 360) p else p.

(** The entries at the positions that are not among [idxs], in order. *)
Definition unselected (idxs : list Z) (items : list string) : list string :=
  concat (imap (fun k x => if bool_decide (Z.of_nat k ∈ idxs) then [] else [x]) items).

(** The positions [first, first + 1, ...] of [count] neighbouring entries. *)
Definition positions (first count : nat) : list Z :=
  map Z.of_nat (seq first count).

(** A string without braces, and one without braces or spaces. *)
Definition brace_free (s : string) : bool :=
  forallb (fun ch => negb (Ascii.eqb ch "{" || Ascii.eqb ch "}"))
          (list_ascii_of_string s).

Definition plain_name (s : string) : bool :=
  forallb (fun ch => negb (Ascii.eqb ch "{" || Ascii.eqb ch "}" || Ascii.eqb ch " "))
          (list_ascii_of_string s).

(** * Theorems *)

(** ** The parser against the reference semantics *)

Section ParserFacts.

Import Reference.

Lemma filter_twice {A} (f g : A -> bool) (l : list A) :
  List.filter f (List.filter g l) = List.filter (fun x => f x && g x) l.
Proof.
  induction l as [|x l IH]; simpl; [reflexivity|].
  destruct (g x); simpl.
  - rewrite andb_true_r. destruct (f x); simpl; now rewrite IH.
  - rewrite andb_false_r. exact IH.
Qed.

Lemma dedup_fold (l : list Z) (out : list Z) (S : gset Z) :
  (fold_left dedup_step l (out, S)).1
  = out ++ List.filter (fun y => negb (bool_decide (y ∈ S))) (first_seen l).
Proof.
  revert out S; induction l as [|x l IH]; intros out S; simpl.
  - now rewrite app_nil_r.
  - unfold dedup_step at 2; simpl. case_bool_decide as Hx; simpl.
    + rewrite IH. f_equal. rewrite filter_twice.
      apply filter_ext. intros y.
      case_bool_decide as Hy; simpl; [reflexivity|].
      destruct (Z.eqb_spec y x); [subst; contradiction | reflexivity].
    + rewrite IH, <- app_assoc. simpl. do 2 f_equal.
      rewrite filter_twice. apply filter_ext. intros y.
      destruct (Z.eqb_spec y x) as [->|Hne]; simpl.
      * rewrite andb_false_r, bool_decide_true; [reflexivity|].
        apply elem_of_union_l, elem_of_singleton; reflexivity.
      * rewrite andb_true_r. f_equal. apply bool_decide_ext.
        rewrite elem_of_union, elem_of_singleton. tauto.
Qed.

Lemma dedup_keep_order_first_seen (l : list Z) :
  dedup_keep_order l = first_seen l.
Proof.
  unfold dedup_keep_order. rewrite dedup_fold. simpl.
  rewrite <- (filter_ext (fun _ => true)).
  - induction (first_seen l) as [|y r IH]; simpl; congruence.
  - intros y. rewrite bool_decide_false; [reflexivity|].
    apply not_elem_of_empty.
Qed.

Lemma range_ascending (a b : Z) :
  a <= b -> range a (b + 1) 1 = Ok (ascending a b).
Proof.
  intros Hab. unfold range, range_len, ascending. simpl.
  destruct (Z.ltb_spec a (b + 1)); [|lia].
  rewrite Z.div_1_r. f_equal.
  replace (b + 1 - a - 1 + 1) with (b - a + 1) by lia.
  apply map_ext. intros k. lia.
Qed.

Lemma range_descending (a b : Z) :
  b < a -> range a (b + -1) (-1) = Ok (descending a b).
Proof.
  intros Hab. unfold range, range_len, descending. simpl.
  destruct (Z.ltb_spec (b + -1) a); [|lia].
  rewrite Z.div_1_r. f_equal.
  replace (a - (b + -1) - 1 + 1) with (a - b + 1) by lia.
  apply map_ext. intros k. lia.
Qed.

Lemma fold_append_if_page (total : Z) (vs indices : list Z) :
  fold_left (append_if_page total) vs indices
  = indices ++ map (fun v => v - 1) (List.filter (in_document total) vs).
Proof.
  revert indices; induction vs as [|v vs IH]; intros indices; simpl.
  - now rewrite app_nil_r.
  - rewrite IH. unfold append_if_page, in_document.
    destruct ((1 <=? v) && (v <=? total)); simpl; [|reflexivity].
    now rewrite <- app_assoc.
Qed.

Lemma split1_two (sep : ascii) (s : string) :
  contains sep s = true -> exists a b, split1 sep s = [a; b].
Proof.
  induction s as [|c s IH]; simpl; [discriminate|].
  destruct (Ascii.eqb c sep); simpl.
  - intros _. now exists EmptyString, s.
  - intros H. destruct (IH H) as (a & b & ->). now exists (String c a), b.
Qed.

(** One pass of the loop body appends exactly the in-range values of the
    token, shifted to zero-based. *)
Lemma parse_part_values (total : Z) (indices : list Z) (part : string) :
  V1_2.parse_part total indices part
  = Ok (indices ++ map (fun v => v - 1)
                       (List.filter (in_document total) (token_values part))).
Proof.
  unfold V1_2.parse_part, token_values.
  destruct (contains "-" part) eqn:Hc.
  - destruct (split1_two _ _ Hc) as (a & b & ->).
    destruct (int a) as [x|e] eqn:Ha; simpl.
    2:{ destruct e; simpl; try now rewrite app_nil_r.
        all: unfold int in Ha;
          destruct (int_digits _ _ _); discriminate. }
    destruct (int b) as [y|e] eqn:Hb; simpl.
    2:{ destruct e; simpl; try now rewrite app_nil_r.
        all: unfold int in Hb;
          destruct (int_digits _ _ _); discriminate. }
    destruct (Z.leb_spec x y).
    + rewrite range_ascending by assumption. simpl.
      now rewrite fold_append_if_page.
    + rewrite range_descending by assumption. simpl.
      now rewrite fold_append_if_page.
  - destruct (int part) as [v|e] eqn:Hv; simpl.
    + unfold append_if_page, in_document.
      destruct ((1 <=? v) && (v <=? total)); simpl; [reflexivity|].
      now rewrite app_nil_r.
    + destruct e; simpl; try now rewrite app_nil_r.
      all: unfold int in Hv; destruct (int_digits _ _ _); discriminate.
Qed.

Lemma for_each_parse_part (total : Z) (parts : list string) (indices : list Z) :
  for_each (V1_2.parse_part total) parts indices
  = Ok (indices ++ map (fun v => v - 1)
                       (List.filter (in_document total)
                                    (flat_map token_values parts))).
Proof.
  revert indices; induction parts as [|p parts IH]; intros indices; simpl.
  - now rewrite app_nil_r.
  - rewrite parse_part_values. simpl. rewrite IH.
    rewrite List.filter_app, map_app, app_assoc. reflexivity.
Qed.

Lemma rstrip_empty (s : string) : rstrip s = EmptyString -> all_space s = true.
Proof.
  induction s as [|c s IH]; simpl; [reflexivity|].
  destruct (rstrip s); [|discriminate].
  destruct (isspace c); [|discriminate]. intros _. now apply IH.
Qed.

Lemma lstrip_all_space (s : string) :
  all_space (lstrip s) = true -> all_space s = true.
Proof.
  induction s as [|c s IH]; simpl; [reflexivity|].
  destruct (isspace c) eqn:Hc; simpl; [exact IH|].
  rewrite Hc. discriminate.
Qed.

Lemma strip_empty (s : string) : strip s = EmptyString -> all_space s = true.
Proof. intros H. now apply lstrip_all_space, rstrip_empty. Qed.

Lemma all_space_no_comma (s : string) :
  all_space s = true -> contains "," s = false.
Proof.
  induction s as [|c s IH]; simpl; [reflexivity|].
  intros [Hc Hs]%andb_true_iff. rewrite (IH Hs), orb_false_r.
  destruct (Ascii.eqb_spec c ","); [subst; discriminate | reflexivity].
Qed.

Lemma split_no_sep (sep : ascii) (s : string) :
  contains sep s = false -> split sep s = [s].
Proof.
  induction s as [|c s IH]; simpl; [reflexivity|].
  intros [Hc Hs]%orb_false_iff. rewrite Hc, (IH Hs). reflexivity.
Qed.

Lemma split_nonempty (sep : ascii) (s : string) : split sep s <> [].
Proof.
  destruct s as [|c s]; simpl; [discriminate|].
  destruct (Ascii.eqb c sep); [discriminate|].
  destruct (split sep s); discriminate.
Qed.

Lemma split_app (sep : ascii) (s1 s2 : string) :
  split sep (s1 ++ String sep s2) = split sep s1 ++ split sep s2.
Proof.
  induction s1 as [|c s1 IH]; simpl.
  - now rewrite Ascii.eqb_refl.
  - destruct (Ascii.eqb c sep); simpl; [now rewrite IH|].
    rewrite IH. pose proof (split_nonempty sep s1) as Hne.
    destruct (split sep s1); [contradiction | reflexivity].
Qed.

(** The early return on an empty or blank expression agrees with the
    reference: a blank expression is one blank token, which has no value. *)
Lemma blank_expression (s : string) (total : Z) :
  strip s = EmptyString -> parse s total = [].
Proof.
  intros Hs. unfold parse.
  rewrite (split_no_sep "," s) by now apply all_space_no_comma, strip_empty.
  simpl. rewrite Hs. reflexivity.
Qed.

Lemma parse_page_ranges_reference (s : string) (total : Z) :
  V1_2.parse_page_ranges s total = Ok (parse s total).
Proof.
  unfold V1_2.parse_page_ranges.
  destruct s as [|c s]; [reflexivity|]. cbn [is_empty orb].
  destruct (strip (String c s)) as [|c' s'] eqn:Hs; cbn [is_empty].
  - now rewrite blank_expression.
  - rewrite for_each_parse_part. simpl.
    now rewrite dedup_keep_order_first_seen.
Qed.

Lemma first_seen_In (l : list Z) (x : Z) : In x (first_seen l) -> In x l.
Proof.
  induction l as [|y l IH]; simpl; [tauto|].
  intros [->|H]; [now left|]. right. apply IH.
  now apply List.filter_In in H.
Qed.

Lemma first_seen_NoDup (l : list Z) : List.NoDup (first_seen l).
Proof.
  induction l as [|y l IH]; simpl; constructor.
  - rewrite List.filter_In, Z.eqb_refl. intros [_ H]. discriminate.
  - now apply List.NoDup_filter.
Qed.

Lemma parse_in_bounds (s : string) (total : Z) :
  Forall (fun i => 0 <= i < total) (parse s total).
Proof.
  apply List.Forall_forall. intros i Hi. apply first_seen_In in Hi.
  apply List.in_map_iff in Hi as (v & <- & Hv).
  apply List.filter_In in Hv as [_ Hv]. unfold in_document in Hv. lia.
Qed.

Lemma malformed_no_values (part : string) :
  malformed part = true -> token_values part = [].
Proof.
  unfold malformed, token_values.
  destruct (contains "-" part).
  - destruct (split1 "-" part) as [|a [|b [|? ?]]]; try reflexivity.
    destruct (int a), (int b); try reflexivity; discriminate.
  - destruct (int part); [discriminate | reflexivity].
Qed.

(** A token none of whose values is a page of the document contributes
    nothing, wherever it stands between two commas. *)
Lemma parse_drops_token (s1 token s2 : string) (total : Z) :
  contains "," token = false ->
  Forall (fun v => v < 1 \/ total < v) (token_values (strip token)) ->
  parse (s1 ++ String "," (token ++ String "," s2)) total
  = parse (s1 ++ String "," s2) total.
Proof.
  intros Hc Hv. unfold parse.
  rewrite !split_app, (split_no_sep "," token Hc).
  rewrite !map_app, !flat_map_app, !List.filter_app. simpl.
  rewrite app_nil_r.
  replace (List.filter (in_document total) (token_values (strip token)))
    with (@nil Z); [reflexivity|].
  symmetry. induction Hv as [|v vs Hv _ IH]; simpl; [reflexivity|].
  unfold in_document at 1.
  destruct (Z.leb_spec 1 v), (Z.leb_spec v total); simpl; try exact IH; lia.
Qed.

End ParserFacts.

(** C1. For every expression and page count, [parse_page_ranges] returns
    the reference result of section 4.1: the tokens between commas, a token
    [a-b] standing for [a..b] ascending when [a <= b] and descending
    otherwise, the values inside [1, total_pages] shifted to zero-based
    indices, first occurrences kept. It gives [0,1,2,4,9] on "1-3,5,10" of
    10, [4,3,2] on "5-3" of 10 and [2,0,1] on "3,1-3" of 5. *)
Theorem parse_page_ranges_reference_semantics (expression : string) (total_pages : Z) :
  V1_2.parse_page_ranges expression total_pages
  = Ok (Reference.parse expression total_pages)
  /\ V1_2.parse_page_ranges "1-3,5,10" 10 = Ok [0; 1; 2; 4; 9]
  /\ V1_2.parse_page_ranges "5-3" 10 = Ok [4; 3; 2]
  /\ V1_2.parse_page_ranges "3,1-3" 5 = Ok [2; 0; 1].
Proof.
  split; [apply parse_page_ranges_reference|]. repeat split.
Qed.

(** C9. For every string and page count, [parse_page_ranges] returns a
    list (it never raises), every index of which lies in [0, total_pages)
    and none of which occurs twice. A token that fails integer parsing, and
    a single value outside the document, leave the list of the loop
    unchanged; and a token for which the loop body adds nothing can be
    taken out from between two commas without changing the result of the
    rest of the expression. *)
Theorem parse_page_ranges_safe (ranges_str : string) (total_pages : Z) :
  (exists l,
      V1_2.parse_page_ranges ranges_str total_pages = Ok l
      /\ Forall (fun i => 0 <= i < total_pages) l
      /\ List.NoDup l)
  /\ (forall indices part,
         malformed part = true ->
         V1_2.parse_part total_pages indices part = Ok indices)
  /\ (forall indices part v,
         contains "-" part = false ->
         int part = Ok v ->
         v < 1 \/ total_pages < v ->
         V1_2.parse_part total_pages indices part = Ok indices)
  /\ (forall s1 token s2,
         contains "," token = false ->
         V1_2.parse_part total_pages [] (strip token) = Ok [] ->
         V1_2.parse_page_ranges (s1 ++ String "," (token ++ String "," s2)) total_pages
         = V1_2.parse_page_ranges (s1 ++ String "," s2) total_pages).
Proof.
  split; [|split; [|split]].
  - exists (Reference.parse ranges_str total_pages).
    split; [apply parse_page_ranges_reference|].
    split; [apply parse_in_bounds | apply first_seen_NoDup].
  - intros indices part Hm.
    rewrite parse_part_values, (malformed_no_values part Hm). simpl.
    now rewrite app_nil_r.
  - intros indices part v Hc Hv Hout.
    rewrite parse_part_values. unfold Reference.token_values.
    rewrite Hc, Hv. simpl. unfold Reference.in_document.
    destruct (Z.leb_spec 1 v), (Z.leb_spec v total_pages); simpl;
      try (now rewrite app_nil_r); lia.
  - intros s1 token s2 Hc Hnone.
    rewrite !parse_page_ranges_reference. f_equal.
    apply parse_drops_token; [exact Hc|].
    rewrite parse_part_values in Hnone. simpl in Hnone.
    injection Hnone as Hnone. apply map_eq_nil in Hnone.
    apply List.Forall_forall. intros v Hv.
    destruct (Reference.in_document total_pages v) eqn:Hin.
    + assert (In v (List.filter (Reference.in_document total_pages)
                      (Reference.token_values (strip token)))) as Hbad
        by (apply List.filter_In; split; assumption).
      rewrite Hnone in Hbad. destruct Hbad.
    + unfold Reference.in_document in Hin.
      destruct (Z.leb_spec 1 v), (Z.leb_spec v total_pages); simpl in Hin;
        try discriminate; lia.
Qed.

Lemma parse_page_ranges_safe_witness :
  malformed "x7" = true
  /\ V1_2.parse_part 5 [0] "x7" = Ok [0]
  /\ contains "-" "99" = false
  /\ int "99" = Ok 99
  /\ (99 < 1 \/ 5 < 99)
  /\ V1_2.parse_part 5 [0] "99" = Ok [0]
  /\ contains "," " 4-x " = false
  /\ V1_2.parse_part 5 [] (strip " 4-x ") = Ok []
  /\ V1_2.parse_page_ranges ("1" ++ String "," (" 4-x " ++ String "," "3")) 5
     = V1_2.parse_page_ranges ("1" ++ String "," "3") 5.
Proof.
  pose proof (parse_page_ranges_safe "1, 4-x ,3" 5) as (_ & Hmal & Hout & Hdrop).
  split; [reflexivity|].
  split; [apply Hmal; reflexivity|].
  split; [reflexivity|]. split; [reflexivity|]. split; [right; lia|].
  split; [apply (Hout [0] "99"%string 99); [reflexivity | reflexivity | right; lia]|].
  split; [reflexivity|]. split; [reflexivity|].
  apply (Hdrop "1"%string " 4-x "%string "3"%string); reflexivity.
Defined.

Lemma parse_part_versions_agree (total_pages : Z) (indices : list Z) (part : string) :
  V1_OLD.parse_part total_pages indices part
  = V1_2.parse_part total_pages indices part.
Proof.
  unfold V1_OLD.parse_part, V1_2.parse_part.
  destruct (contains "-" part); [|reflexivity].
  destruct (split1 "-" part) as [|a [|b [|c rest]]]; reflexivity.
Qed.

(** C10. The parser of the old version and the parser of version 1.2
    return the same result on every expression and page count (the two
    functions are the same text, line for line). *)
Theorem parse_page_ranges_versions_agree (ranges_str : string) (total_pages : Z) :
  V1_OLD.parse_page_ranges ranges_str total_pages
  = V1_2.parse_page_ranges ranges_str total_pages.
Proof.
  unfold V1_OLD.parse_page_ranges, V1_2.parse_page_ranges.
  destruct (is_empty ranges_str || is_empty (strip ranges_str)); [reflexivity|].
  assert (forall parts indices,
             for_each (V1_OLD.parse_part total_pages) parts indices
             = for_each (V1_2.parse_part total_pages) parts indices) as Hloop.
  { induction parts as [|part parts IH]; intros indices; simpl; [reflexivity|].
    rewrite parse_part_versions_agree.
    destruct (V1_2.parse_part total_pages indices part); simpl;
      [apply IH | reflexivity]. }
  now rewrite Hloop.
Qed.

(** ** The interleave loops against the policies of the specification *)

Section InterleaveFacts.

Import InterleaveReference.

Lemma alternate_loop_eq A B pa pb ia ib w :
  alternate_loop A B pa pb ia ib w
  = if (ia <? pa) || (ib <? pb)
    then match alternate_body A B pa pb (ia, ib, w) with
         | Ok (ia', ib', w') => alternate_loop A B pa pb ia' ib' w'
         | Raise e => Raise e
         end
    else Ok w.
Proof.
  rewrite alternate_loop_equation_1.
  destruct (inspect ((ia <? pa) || (ib <? pb))) as [[] Hc].
  - match goal with |- _ = ?r =>
      replace r with (match alternate_body A B pa pb (ia, ib, w) with
         | Ok (ia', ib', w') => alternate_loop A B pa pb ia' ib' w'
         | Raise e => Raise e
         end) by now rewrite Hc end.
    simp alternate_loop.
    destruct (inspect (alternate_body A B pa pb (ia, ib, w)))
      as [[[[ia' ib'] w']|e] Hb].
    + match goal with |- _ = ?r =>
        replace r with (alternate_loop A B pa pb ia' ib' w') by now rewrite Hb end.
      reflexivity.
    + match goal with |- _ = ?r =>
        replace r with (@Raise PdfWriter e) by now rewrite Hb end.
      reflexivity.
  - match goal with |- _ = ?r => replace r with (Ok w) by now rewrite Hc end.
    reflexivity.
Qed.

Lemma page_numbers_cons (first last : Z) :
  first <= last ->
  page_numbers first last = first :: page_numbers (first + 1) last.
Proof.
  intros H. unfold page_numbers.
  replace (Z.to_nat (last - first + 1))
    with (Datatypes.S (Z.to_nat (last - (first + 1) + 1))) by lia.
  simpl. f_equal; [lia|].
  rewrite <- seq_shift, map_map. apply map_ext. intros k. lia.
Qed.

Lemma page_numbers_nil (first last : Z) :
  last < first -> page_numbers first last = [].
Proof.
  intros H. unfold page_numbers.
  now replace (Z.to_nat (last - first + 1)) with 0%nat by lia.
Qed.

Lemma page_numbers_ge (first last : Z) :
  Forall (fun i => first <= i) (page_numbers first last).
Proof.
  unfold page_numbers. apply List.Forall_forall. intros i Hi.
  apply List.in_map_iff in Hi as (k & <- & _). lia.
Qed.

Lemma index_in_range {X} (l : list X) (i : Z) :
  0 <= i < Z.of_nat (length l) ->
  exists x, nth_error l (Z.to_nat i) = Some x /\ index l i = Ok x.
Proof.
  intros Hi. unfold index.
  destruct (Z.ltb_spec i 0); [lia|].
  destruct (Z.leb_spec 0 i); [|lia].
  destruct (Z.ltb_spec i (Z.of_nat (length l))); [|lia]. simpl.
  destruct (nth_error l (Z.to_nat i)) as [x|] eqn:Hx; [now exists x|].
  apply List.nth_error_None in Hx. lia.
Qed.

Lemma add_pages_nil (w : PdfWriter) : add_pages w [] = w.
Proof. destruct w. unfold add_pages. simpl. now rewrite app_nil_r. Qed.

Lemma add_pages_app (w : PdfWriter) (ps qs : list Page) :
  add_pages (add_pages w ps) qs = add_pages w (ps ++ qs).
Proof. unfold add_pages. simpl. now rewrite app_assoc. Qed.

Lemma fetch_app A B (p q : list (source * Z)) ps qs :
  fetch A B p = Some ps -> fetch A B q = Some qs ->
  fetch A B (p ++ q) = Some (ps ++ qs).
Proof.
  revert ps; induction p as [|r p IH]; simpl; intros ps.
  - now intros [= <-].
  - destruct (page A B r); [|discriminate].
    destruct (fetch A B p) as [ps'|]; [|discriminate].
    intros [= <-] Hq. now rewrite (IH ps' eq_refl Hq).
Qed.

(** One guarded [writer.add_page(reader.pages[i - 1])] of a loop body
    and the entry of the plan it stands for. *)
Lemma guarded_add (doc : list Page) (src : source) A B (g : bool) (i : Z) (w : PdfWriter) :
  doc = match src with DocA => A | DocB => B end ->
  1 <= i -> (g = true -> i <= Z.of_nat (length doc)) ->
  exists ps,
    fetch A B (if g then [(src, i)] else []) = Some ps
    /\ (if g then p ← index doc (i - 1); Ok (add_page w p) else Ok w)
       = Ok (add_pages w ps).
Proof.
  intros Hdoc Hi Hg. destruct g.
  - destruct (index_in_range doc (i - 1)) as (x & Hn & Hx);
      [specialize (Hg eq_refl); lia|].
    exists [x]. simpl. unfold page. simpl.
    destruct (Z.leb_spec 1 i); [|lia].
    rewrite <- Hdoc, Hn, Hx. split; reflexivity.
  - exists []. simpl. now rewrite add_pages_nil.
Qed.
Lemma alternate_side (doc : list Page) (src : source) A B (id i : Z) (w : PdfWriter) :
  doc = match src with DocA => A | DocB => B end ->
  0 <= i ->
  (id = i \/ (Z.of_nat (length doc) <= id /\ Z.of_nat (length doc) <= i)) ->
  exists ps id',
    fetch A B (if i + 1 <=? Z.of_nat (length doc) then [(src, i + 1)] else []) = Some ps
    /\ (if id <? Z.of_nat (length doc)
        then p ← index doc id; Ok (id + 1, add_page w p)
        else Ok (id, w)) = Ok (id', add_pages w ps)
    /\ (id' = i + 1 \/ (Z.of_nat (length doc) <= id' /\ Z.of_nat (length doc) <= i + 1))
    /\ (id <? Z.of_nat (length doc)) = (i <? Z.of_nat (length doc)).
Proof.
  intros Hdoc Hi Hinv. set (pd := Z.of_nat (length doc)) in *.
  destruct (Z.ltb_spec i pd) as [Hlt|Hge].
  - assert (id = i) as -> by lia.
    destruct (index_in_range doc i) as (x & Hn & Hx); [fold pd; lia|].
    exists [x], (i + 1).
    destruct (Z.leb_spec (i + 1) pd); [|lia].
    destruct (Z.ltb_spec i pd); [|lia].
    simpl. unfold page. simpl. destruct (Z.leb_spec 1 (i + 1)); [|lia].
    replace (i + 1 - 1) with i by lia. rewrite <- Hdoc, Hn, Hx.
    repeat split; auto.
  - exists [], id.
    destruct (Z.leb_spec (i + 1) pd); [lia|].
    destruct (Z.ltb_spec id pd); [lia|].
    rewrite add_pages_nil. repeat split; auto. right. lia.
Qed.

Lemma alternate_loop_plan A B (n : nat) :
  forall i ia ib w,
    0 <= i ->
    Z.to_nat (Z.max (Z.of_nat (length A)) (Z.of_nat (length B)) - i) = n ->
    (ia = i \/ (Z.of_nat (length A) <= ia /\ Z.of_nat (length A) <= i)) ->
    (ib = i \/ (Z.of_nat (length B) <= ib /\ Z.of_nat (length B) <= i)) ->
    exists ps,
      fetch A B (alternate (Z.of_nat (length A)) (Z.of_nat (length B)) (i + 1)) = Some ps
      /\ alternate_loop A B (Z.of_nat (length A)) (Z.of_nat (length B)) ia ib w
         = Ok (add_pages w ps).
Proof.
  set (pa := Z.of_nat (length A)). set (pb := Z.of_nat (length B)).
  induction n as [|n IH]; intros i ia ib w Hi Hn Ha Hb; unfold alternate.
  - rewrite page_numbers_nil by lia. exists []. split; [reflexivity|].
    rewrite alternate_loop_eq, add_pages_nil.
    destruct (Z.ltb_spec ia pa); [lia|]. destruct (Z.ltb_spec ib pb); [lia|].
    reflexivity.
  - rewrite page_numbers_cons by lia. simpl.
    destruct (alternate_side A DocA A B ia i w eq_refl Hi Ha)
      as (psa & ia' & Hfa & Hsa & Ha' & Hca).
    destruct (alternate_side B DocB A B ib i (add_pages w psa) eq_refl Hi Hb)
      as (psb & ib' & Hfb & Hsb & Hb' & Hcb).
    destruct (IH (i + 1) ia' ib' (add_pages (add_pages w psa) psb))
      as (ps & Hf & Hl); try assumption; try lia.
    exists ((psa ++ psb) ++ ps). split.
    + apply fetch_app; [|exact Hf]. now apply fetch_app.
    + rewrite alternate_loop_eq. fold pa pb in Hca, Hcb, Hsa, Hsb |- *.
      rewrite Hca, Hcb.
      destruct (Z.ltb_spec i pa), (Z.ltb_spec i pb); simpl; try lia.
      all: unfold alternate_body; rewrite Hsa; simpl; rewrite Hsb; simpl;
        rewrite Hl, !add_pages_app, <- ?app_assoc; reflexivity.
Qed.

Lemma is_odd_odd (i : Z) : is_odd i = Z.odd i.
Proof. unfold is_odd. rewrite Zmod_odd. now destruct (Z.odd i). Qed.

Lemma range_page_numbers (first last : Z) :
  range first (last + 1) 1 = Ok (page_numbers first last).
Proof.
  unfold range, range_len, page_numbers. simpl.
  destruct (Z.ltb_spec first (last + 1)).
  - rewrite Z.div_1_r. f_equal.
    replace (last + 1 - first - 1 + 1) with (last - first + 1) by lia.
    apply map_ext. intros k. lia.
  - now replace (Z.to_nat (last - first + 1)) with 0%nat by lia.
Qed.

Lemma a_odd_b_even_plan A B (l : list Z) (w : PdfWriter) :
  Forall (fun i => 1 <= i) l ->
  exists ps,
    fetch A B
      (flat_map (fun i =>
         (if (i <=? Z.of_nat (length A)) && Z.odd i then [(DocA, i)] else [])
         ++ (if (i <=? Z.of_nat (length B)) && Z.even i then [(DocB, i)] else []))
         l) = Some ps
    /\ for_each (a_odd_b_even_body A B (Z.of_nat (length A)) (Z.of_nat (length B))) l w
       = Ok (add_pages w ps).
Proof.
  intros Hl. revert w. induction Hl as [|i l Hi _ IH]; intros w; simpl.
  - exists []. now rewrite add_pages_nil.
  - destruct (guarded_add A DocA A B
                ((i <=? Z.of_nat (length A)) && Z.odd i) i w eq_refl Hi)
      as (psa & Hfa & Hsa).
    { intros [H _]%andb_true_iff. lia. }
    destruct (guarded_add B DocB A B
                ((i <=? Z.of_nat (length B)) && Z.even i) i (add_pages w psa) eq_refl Hi)
      as (psb & Hfb & Hsb).
    { intros [H _]%andb_true_iff. lia. }
    destruct (IH (add_pages (add_pages w psa) psb)) as (ps & Hf & Hs).
    exists ((psa ++ psb) ++ ps). split.
    + apply fetch_app; [|exact Hf]. now apply fetch_app.
    + assert (a_odd_b_even_body A B (Z.of_nat (length A)) (Z.of_nat (length B)) w i
              = Ok (add_pages (add_pages w psa) psb)) as ->.
      { unfold a_odd_b_even_body. rewrite is_odd_odd, Z.negb_odd, Hsa.
        simpl. exact Hsb. }
      simpl. now rewrite Hs, !add_pages_app, <- ?app_assoc.
Qed.

End InterleaveFacts.

(** C2. In mode [alternate], from a start page of at least 1, the loop adds
    to the writer, for each page number from [start_from] up to the longer
    document's last page, the page of A with that number if A has one and
    then the page of B with that number if B has one; every page it adds is
    numbered [start_from] or later; and for 3 and 2 pages from page 1 the
    order is A1, B1, A2, B2, A3. *)
Theorem interleave_alternate_order (A B : list Page) (start_from : Z)
  (writer : PdfWriter) :
  1 <= start_from ->
  let plan := InterleaveReference.alternate
                (Z.of_nat (length A)) (Z.of_nat (length B)) start_from in
  (exists ps,
      InterleaveReference.fetch A B plan = Some ps
      /\ interleave_pages A B "alternate" start_from writer
         = Ok (Some (InterleaveReference.add_pages writer ps)))
  /\ Forall (fun ref => start_from <= ref.2) plan
  /\ InterleaveReference.alternate 3 2 1
     = [(InterleaveReference.DocA, 1); (InterleaveReference.DocB, 1);
        (InterleaveReference.DocA, 2); (InterleaveReference.DocB, 2);
        (InterleaveReference.DocA, 3)].
Proof.
  intros Hs plan. split; [|split; [|reflexivity]].
  - destruct (alternate_loop_plan A B
                (Z.to_nat (Z.max (Z.of_nat (length A)) (Z.of_nat (length B))
                           - (start_from - 1)))
                (start_from - 1) (start_from - 1) (start_from - 1) writer)
      as (ps & Hf & Hl); [lia | reflexivity | now left | now left |].
    replace (start_from - 1 + 1) with start_from in Hf by lia.
    exists ps. split; [exact Hf|].
    unfold interleave_pages. simpl. now rewrite Hl.
  - subst plan. unfold InterleaveReference.alternate.
    apply List.Forall_forall. intros [src i] Hin.
    apply List.in_flat_map in Hin as (j & Hj & Hin).
    pose proof (page_numbers_ge start_from
                  (Z.max (Z.of_nat (length A)) (Z.of_nat (length B)))) as Hge.
    rewrite List.Forall_forall in Hge. specialize (Hge j Hj).
    apply List.in_app_or in Hin.
    destruct (j <=? Z.of_nat (length A)), (j <=? Z.of_nat (length B));
      simpl in Hin; intuition; try congruence;
      match goal with H : (_, _) = (_, _) |- _ => injection H as _ <- end;
      simpl; lia.
Qed.

(** C3. In mode [a_odd_b_even], from a start page of at least 1, the loop
    walks the page numbers from [start_from] to [max(len(A), len(B))] and,
    for each number in that order, adds A's page with that number when A has
    it and the number is odd, then B's page with that number when B has it
    and the number is even; for two documents of 4 pages from page 1 the
    order is A1, B2, A3, B4. *)
Theorem interleave_a_odd_b_even_order (A B : list Page) (start_from : Z)
  (writer : PdfWriter) :
  1 <= start_from ->
  let plan := InterleaveReference.a_odd_b_even
                (Z.of_nat (length A)) (Z.of_nat (length B)) start_from in
  (exists ps,
      InterleaveReference.fetch A B plan = Some ps
      /\ interleave_pages A B "a_odd_b_even" start_from writer
         = Ok (Some (InterleaveReference.add_pages writer ps)))
  /\ InterleaveReference.a_odd_b_even 4 4 1
     = [(InterleaveReference.DocA, 1); (InterleaveReference.DocB, 2);
        (InterleaveReference.DocA, 3); (InterleaveReference.DocB, 4)].
Proof.
  intros Hs plan. split; [|reflexivity].
  destruct (a_odd_b_even_plan A B
              (InterleaveReference.page_numbers start_from
                 (Z.max (Z.of_nat (length A)) (Z.of_nat (length B)))) writer)
    as (ps & Hf & Hl).
  { eapply List.Forall_impl; [|apply page_numbers_ge]. simpl. intros; lia. }
  exists ps. split; [exact Hf|].
  unfold interleave_pages.
  change (String.eqb "a_odd_b_even" "alternate") with false.
  change (String.eqb "a_odd_b_even" "a_odd_b_even") with true.
  cbv iota. rewrite range_page_numbers. simpl. now rewrite Hl.
Qed.

Lemma interleave_alternate_order_witness :
  1 <= 1
  /\ (exists ps,
         InterleaveReference.fetch (pages three_pages) [page_n 11; page_n 12]
           (InterleaveReference.alternate 3 2 1) = Some ps
         /\ interleave_pages (pages three_pages) [page_n 11; page_n 12]
              "alternate" 1 (new_writer pypdf)
            = Ok (Some (InterleaveReference.add_pages (new_writer pypdf) ps))).
Proof.
  split; [lia|].
  apply (interleave_alternate_order (pages three_pages) [page_n 11; page_n 12] 1
           (new_writer pypdf)).
  lia.
Defined.

Lemma interleave_a_odd_b_even_order_witness :
  1 <= 1
  /\ (exists ps,
         InterleaveReference.fetch
           [page_n 1; page_n 2; page_n 3; page_n 4]
           [page_n 11; page_n 12; page_n 13; page_n 14]
           (InterleaveReference.a_odd_b_even 4 4 1) = Some ps
         /\ interleave_pages
              [page_n 1; page_n 2; page_n 3; page_n 4]
              [page_n 11; page_n 12; page_n 13; page_n 14]
              "a_odd_b_even" 1 (new_writer pypdf)
            = Ok (Some (InterleaveReference.add_pages (new_writer pypdf) ps))).
Proof.
  split; [lia|].
  apply (interleave_a_odd_b_even_order
           [page_n 1; page_n 2; page_n 3; page_n 4]
           [page_n 11; page_n 12; page_n 13; page_n 14] 1 (new_writer pypdf)).
  lia.
Defined.

(** ** The sanitizer *)

Lemma M_bind_eq {A B} (m : M A) (k : A -> M B) (w : world) :
  (m ≫= k) w
  = match m w with
    | (w', Ok a) => k a w'
    | (w', Raise e) => (w', Raise e)
    end.
Proof. reflexivity. Qed.

(** Every way a run of the sanitizer can end: it raises and the disk is as
    before or has the destination truncated, or it returns and the
    destination holds the rewritten source. It shows nothing. *)
Lemma sanitize_outcomes E src dst w :
  let out := sanitize_pdf_no_metadata E src dst w in
  shown out.1 = shown w
  /\ ((exists e, out.2 = Raise e
                 /\ (files out.1 = files w
                     \/ files out.1 = <[dst := Unreadable]> (files w)))
      \/ (out.2 = Ok tt
          /\ exists d, files w !! src = Some (PdfFile d)
                       /\ files out.1
                          = <[dst := PdfFile (written (sanitize_writer E d))]> (files w))).
Proof.
  destruct w as [fs fl ofl sh]. run.
  destruct fl as [|[] fl]; run.
  2:{ split; [reflexivity|]. left. eexists. split; [reflexivity|]. now left. }
  - destruct (fs !! src) as [[d|]|] eqn:Hsrc; run.
    + split; [reflexivity|]. right. split; [reflexivity|].
      exists d. split; [reflexivity|]. now rewrite insert_insert_eq.
    + split; [reflexivity|]. left. eexists. split; [reflexivity|]. now left.
    + split; [reflexivity|]. left. eexists. split; [reflexivity|]. now left.
  - destruct (fs !! src) as [[d|]|] eqn:Hsrc; run.
    2,3: split; [reflexivity|]; left; eexists; (split; [reflexivity|]); now left.
    destruct fl as [|[] fl]; run.
    + split; [reflexivity|]. right. split; [reflexivity|].
      exists d. split; [reflexivity|]. now rewrite insert_insert_eq.
    + split; [reflexivity|]. left. eexists. split; [reflexivity|]. now left.
    + destruct fl as [|[] fl]; run.
      * split; [reflexivity|]. right. split; [reflexivity|].
        exists d. split; [reflexivity|]. now rewrite insert_insert_eq.
      * split; [reflexivity|]. left. eexists. split; [reflexivity|]. now right.
      * split; [reflexivity|]. right. split; [reflexivity|].
        exists d. split; [reflexivity|]. now rewrite insert_insert_eq.
Qed.

Lemma sanitize_no_faults E src dst w d :
  files w !! src = Some (PdfFile d) -> faults w = [] ->
  sanitize_pdf_no_metadata E src dst w
  = ({| files := <[dst := PdfFile (written (sanitize_writer E d))]> (files w);
        faults := []; os_faults := os_faults w; shown := shown w |}, Ok tt).
Proof.
  destruct w as [fs fl ofl sh]. simpl. intros Hsrc ->. run. rewrite Hsrc. run.
  now rewrite insert_insert_eq.
Qed.

(** The PDF library makes no [os] call. *)
Lemma no_os_call_ret {A} (a : A) : no_os_call (mret a).
Proof. intros w. reflexivity. Qed.

Lemma no_os_call_raise {A} (e : exn) : no_os_call (raise e : M A).
Proof. intros w. reflexivity. Qed.

Lemma no_os_call_bind {A B} (m : M A) (k : A -> M B) :
  no_os_call m -> (forall a, no_os_call (k a)) -> no_os_call (m ≫= k).
Proof.
  intros Hm Hk w. rewrite M_bind_eq. specialize (Hm w).
  destruct (m w) as [w1 [a|e]]; simpl in *; [|exact Hm].
  now rewrite Hk.
Qed.

Lemma no_os_call_get_files : no_os_call get_files.
Proof. intros w. reflexivity. Qed.

Lemma no_os_call_set_files (fs : gmap string file) : no_os_call (set_files fs).
Proof. intros w. reflexivity. Qed.

Lemma no_os_call_next_fault : no_os_call next_fault.
Proof. intros w. unfold next_fault. now destruct (faults w). Qed.

Lemma no_os_call_PdfReader (path : string) : no_os_call (PdfReader path).
Proof.
  apply no_os_call_bind; [apply no_os_call_next_fault|].
  intros [|]; [apply no_os_call_raise|].
  apply no_os_call_bind; [apply no_os_call_get_files|]. intros fs.
  destruct (fs !! path) as [[d|]|]; [apply no_os_call_ret | apply no_os_call_raise..].
Qed.

Lemma no_os_call_write_pdf (path : string) (writer : PdfWriter) :
  no_os_call (write_pdf path writer).
Proof.
  apply no_os_call_bind; [apply no_os_call_next_fault|].
  intros [|]; [apply no_os_call_raise|].
  apply no_os_call_bind; [apply no_os_call_get_files|]. intros fs.
  apply no_os_call_bind; [apply no_os_call_set_files|]. intros _.
  apply no_os_call_bind; [apply no_os_call_next_fault|].
  intros [|]; [apply no_os_call_raise|].
  apply no_os_call_bind; [apply no_os_call_get_files|]. intros fs'.
  apply no_os_call_set_files.
Qed.

Lemma no_os_call_sanitize (E : engine) (src dst : string) :
  no_os_call (sanitize_pdf_no_metadata E src dst).
Proof.
  apply no_os_call_bind; [apply no_os_call_PdfReader|]. intros r.
  apply no_os_call_write_pdf.
Qed.

Lemma no_os_call_auto_rotate (E : engine) (src dst : string) :
  no_os_call (auto_rotate_pdf_pages_to_landscape E src dst).
Proof.
  apply no_os_call_bind; [apply no_os_call_PdfReader|]. intros r.
  apply no_os_call_write_pdf.
Qed.

Lemma no_os_call_convert (hst : host) (in_path out_pdf kind : string) :
  no_os_call (convert_office_doc_to_pdf hst in_path out_pdf kind).
Proof.
  unfold convert_office_doc_to_pdf. cbv zeta.
  destruct (if (_ : bool) then office_export hst kind in_path else None) as [d|].
  - apply no_os_call_bind; [apply no_os_call_get_files|]. intros fs.
    apply no_os_call_set_files.
  - destruct (soffice_export hst in_path) as [d|]; [|apply no_os_call_raise].
    apply no_os_call_bind; [apply no_os_call_get_files|]. intros fs.
    apply no_os_call_set_files.
Qed.

Lemma fold_add_page (ps : list Page) (w : PdfWriter) :
  fold_left add_page ps w = InterleaveReference.add_pages w ps.
Proof.
  revert w; induction ps as [|p ps IH]; intros w; simpl.
  - now rewrite add_pages_nil.
  - rewrite IH. unfold add_page, InterleaveReference.add_pages. simpl.
    now rewrite <- app_assoc.
Qed.

(** What the sanitizer writes: the pages of the source as they are, the
    information entries of a new writer, no XMP stream. *)
Lemma sanitize_writer_written E d :
  written (sanitize_writer E d)
  = {| pages := pages d; info := fresh_info E; xmp := None |}.
Proof.
  unfold sanitize_writer. rewrite fold_add_page.
  unfold add_metadata, set_xmp_metadata, best_effort, written.
  destruct (has_add_metadata E), (has_xmp_setter E); cbn [w_pages w_info w_xmp app];
    try reflexivity.
  all: rewrite (left_id_L ∅ (∪)); reflexivity.
Qed.

(** What a run of the sanitizer leaves at the destination: when the source
    is a readable PDF, the sanitizer returns normally if no read or write
    fails, and whenever it returns normally the destination holds the
    pages of the source (rotation included), no XMP stream, and the
    information entries of a new writer. *)
Lemma sanitize_pages_and_metadata (E : engine) (src dst : string) (w : world)
  (d : Document) :
  files w !! src = Some (PdfFile d) ->
  let out := sanitize_pdf_no_metadata E src dst w in
  (faults w = [] -> out.2 = Ok tt)
  /\ (out.2 = Ok tt ->
      files out.1 !! dst
      = Some (PdfFile {| pages := pages d; info := fresh_info E; xmp := None |})).
Proof.
  intros Hsrc out. split.
  - intros Hf. subst out. now rewrite (sanitize_no_faults E src dst w d).
  - intros Hok.
    destruct (sanitize_outcomes E src dst w) as [_ [(e & He & _)|(_ & d' & Hd & Hfs)]].
    + fold out in He. congruence.
    + fold out in Hfs. rewrite Hfs, lookup_insert_eq, sanitize_writer_written.
      congruence.
Qed.

(** C4, at the failing input. The docstring of [sanitize_pdf_no_metadata]
    promises a PDF without [/Info], and the code calls [add_metadata({})]
    for it, which merges nothing and removes nothing. With pypdf,
    sanitizing a document that has no metadata at all returns normally,
    keeps the page with its rotation and leaves no XMP stream, but the
    document written holds an information dictionary with the producer
    entry of the writer: it is not free of document-level metadata. *)
Theorem sanitize_leaves_producer :
  let out := sanitize_pdf_no_metadata pypdf "plain.pdf" "out.pdf" (disk []) in
  out.2 = Ok tt
  /\ files out.1 !! "out.pdf"%string
     = Some (PdfFile {| pages := pages plain_doc;
                        info := {[ "/Producer"%string := "pypdf"%string ]};
                        xmp := None |})
  /\ ({[ "/Producer"%string := "pypdf"%string ]} : gmap string string) <> ∅.
Proof.
  split; [reflexivity|]. split; [reflexivity|].
  apply insert_non_empty.
Qed.




(** ** The block that sanitizes the output of an assembly operation *)

(** The block never lets an exception out. *)
Lemma sanitize_output_returns (E : engine) (out_path : string) (w : world) :
  (sanitize_output E out_path w).2 = Ok tt.
Proof.
  unfold sanitize_output, try_except.
  repeat match goal with
         | |- context [match ?m w with _ => _ end] => destruct (m w) as [? [[]|?]]
         | |- context [match ?m ?w' with _ => _ end] => destruct (m w') as [? [[]|?]]
         end; reflexivity.
Qed.

(** When the working name differs from the output name, no [os] call fails
    and the sanitizer fails, the block puts the file written by the first
    pass back at the output path. *)
Lemma sanitize_output_restores (E : engine) (out_path : string) (w : world) (f : file) :
  let tmp2 := replace ".pdf" ".__tmp__.pdf" out_path in
  os_faults w = [] ->
  files w !! out_path = Some f ->
  tmp2 <> out_path ->
  (sanitize_pdf_no_metadata E tmp2 out_path (os_replace out_path tmp2 w).1).2 <> Ok tt ->
  let done := sanitize_output E out_path w in
  done.2 = Ok tt /\ files done.1 !! out_path = Some f /\ files done.1 !! tmp2 = None.
Proof.
  intros tmp2 Hos Hout Hne. unfold sanitize_output. fold tmp2.
  destruct w as [fs fl ofl sh]. simpl in Hout, Hos. subst ofl.
  step. rewrite Hout. step.
  set (w1 := {| files := <[tmp2:=f]> (delete out_path fs); faults := fl;
                os_faults := []; shown := sh |}).
  destruct (sanitize_outcomes E tmp2 out_path w1) as [_ Hcases].
  pose proof (no_os_call_sanitize E tmp2 out_path w1) as Hos2.
  destruct (sanitize_pdf_no_metadata E tmp2 out_path w1) as [w2 r2] eqn:Hs.
  destruct w2 as [fs2 fl2 ofl2 sh2].
  simpl in *. subst ofl2. intros Hfail.
  destruct Hcases as [(e & -> & Hfs)|(-> & _)]; [|contradiction].
  assert (fs2 !! tmp2 = Some f) as Htmp.
  { destruct Hfs as [->| ->]; subst w1; simpl.
    - apply lookup_insert_eq.
    - rewrite lookup_insert_ne by congruence. apply lookup_insert_eq. }
  step. rewrite Htmp. step. rewrite Htmp. simpl.
  rewrite lookup_insert_eq, lookup_insert_ne, lookup_delete_eq by congruence.
  repeat split.
Qed.

Lemma sanitize_output_tmp_gone (E : engine) (out_path : string) (w : world) :
  let tmp2 := replace ".pdf" ".__tmp__.pdf" out_path in
  os_faults w = [] ->
  is_Some (files w !! out_path) ->
  tmp2 <> out_path ->
  let done := sanitize_output E out_path w in
  done.2 = Ok tt /\ files done.1 !! tmp2 = None.
Proof.
  intros tmp2 Hos [f Hout] Hne done.
  destruct ((sanitize_pdf_no_metadata E tmp2 out_path
               (os_replace out_path tmp2 w).1).2) as [[]|e] eqn:Hr.
  - subst done. unfold sanitize_output. fold tmp2.
    destruct w as [fs fl ofl sh]. simpl in Hout, Hos. subst ofl.
    step. rewrite Hout in *. step.
    set (w1 := {| files := <[tmp2:=f]> (delete out_path fs);
                  faults := fl; os_faults := []; shown := sh |}) in *.
    destruct (sanitize_outcomes E tmp2 out_path w1) as [_ Hcases].
    pose proof (no_os_call_sanitize E tmp2 out_path w1) as Hos2.
    destruct (sanitize_pdf_no_metadata E tmp2 out_path w1) as [w2 r2] eqn:Hs.
    destruct w2 as [fs2 fl2 ofl2 sh2].
    simpl in *. subst r2 ofl2.
    destruct Hcases as [(e & He & _)|(_ & d & _ & Hfs)]; [discriminate|].
    assert (fs2 !! tmp2 = Some f) as Htmp.
    { rewrite Hfs. subst w1. simpl.
      rewrite lookup_insert_ne by congruence. apply lookup_insert_eq. }
    rewrite Htmp. simpl. split; [reflexivity|]. apply lookup_delete_eq.
  - destruct (sanitize_output_restores E out_path w f Hos Hout Hne) as (H1 & _ & H3).
    + fold tmp2. rewrite Hr. discriminate.
    + split; assumption.
Qed.

(** C5, at the failing input. [merge_serial] of one readable PDF into the
    chosen path [merged.PDF]: the first pass writes the merged pages there;
    the working name computed from it is the same path; the sanitizer's
    write then fails after truncating the file; the fallback moves the
    path onto itself; and the operation ends with the output path holding
    the truncated file, not the merged pages. *)
Theorem merge_serial_loses_output :
  let merged := {| pages := pages three_pages; info := fresh_info pypdf; xmp := None |} in
  let written_once :=
    {| files := <[ "merged.PDF"%string := PdfFile merged ]> (files (disk []));
       faults := [false; false; true]; os_faults := []; shown := [] |} in
  (merged' ← merge_sources ["a.pdf"%string] (new_writer pypdf);
   match merged' with
   | Some writer => write_pdf "merged.PDF" writer
   | None => mret tt
   end) (disk [false; false; false; false; false; true]) = (written_once, Ok tt)
  /\ replace ".pdf" ".__tmp__.pdf" "merged.PDF" = "merged.PDF"%string
  /\ (sanitize_pdf_no_metadata pypdf "merged.PDF" "merged.PDF" written_once).2
     = Raise OSError
  /\ files (sanitize_output pypdf "merged.PDF" written_once).1 !! "merged.PDF"%string
     = Some Unreadable
  /\ files (merge_serial pypdf ["a.pdf"%string] "merged.PDF"
                         (disk [false; false; false; false; false; true])).1
       !! "merged.PDF"%string
     = Some Unreadable.
Proof. repeat split. Qed.

(** The same choice of output name without any failure: the sanitizer
    rewrites the file in place and [os.remove(tmp2)] then removes it, so
    the operation reports success with nothing at the output path. *)
Lemma merge_serial_removes_own_output :
  let done := merge_serial pypdf ["a.pdf"%string] "merged.PDF" (disk []) in
  done.2 = Ok tt
  /\ shown done.1 = [showinfo]
  /\ files done.1 !! "merged.PDF"%string = None.
Proof. repeat split. Qed.

(** ** Working files *)

Lemma remove_quietly_absent (p : string) (w : world) :
  os_faults w = [] ->
  let r := try_except (os_remove p) (mret tt) w in
  r.2 = Ok tt /\ files r.1 !! p = None.
Proof.
  destruct w as [fs fl ofl sh]. simpl. intros ->. step.
  destruct (fs !! p) eqn:Hp; step; split; try reflexivity.
  - apply lookup_delete_eq.
  - exact Hp.
Qed.

Lemma remove_if_exists_absent (p : string) (w : world) :
  os_faults w = [] ->
  let r := remove_if_exists p w in
  r.2 = Ok tt /\ files r.1 !! p = None /\ os_faults r.1 = []
  /\ forall q, files w !! q = None -> files r.1 !! q = None.
Proof.
  destruct w as [fs fl ofl sh]. simpl. intros ->. unfold remove_if_exists. step.
  destruct (fs !! p) eqn:Hp; step; rewrite ?Hp; simpl.
  - split; [reflexivity|]. split; [apply lookup_delete_eq|]. split; [reflexivity|].
    intros q Hq. destruct (decide (p = q)) as [->|Hpq].
    + apply lookup_delete_eq.
    + now rewrite lookup_delete_ne.
  - repeat split; auto.
Qed.

(** C6 (amended). When the conversion of one PowerPoint or Excel file
    completes without an error and no [os.remove] fails, its [.__tmp__.pdf]
    (and [.__mid__.pdf]) working file is no longer on disk; and the block
    that ends every assembly operation never raises and, when that working
    name differs from the output name and none of its [os.replace] and
    [os.remove] calls fails, leaves no [.__tmp__.pdf] working file behind,
    whether its sanitizer succeeds or fails. *)
Theorem working_files_removed (E : engine) (hst : host) :
  (forall out_dir in_path w,
      os_faults w = [] ->
      let r := convert_ppt_item E hst out_dir in_path w in
      r.2 = Ok tt -> files r.1 !! tmp_pdf_of hst out_dir in_path = None)
  /\ (forall force_landscape out_dir in_path w,
         os_faults w = [] ->
         let r := convert_excel_item E hst force_landscape out_dir in_path w in
         r.2 = Ok tt ->
         files r.1 !! tmp_pdf_of hst out_dir in_path = None
         /\ files r.1 !! mid_pdf_of hst out_dir in_path = None)
  /\ (forall out_path w, (sanitize_output E out_path w).2 = Ok tt)
  /\ (forall out_path w,
         os_faults w = [] ->
         is_Some (files w !! out_path) ->
         replace ".pdf" ".__tmp__.pdf" out_path <> out_path ->
         files (sanitize_output E out_path w).1 !! replace ".pdf" ".__tmp__.pdf" out_path
         = None).
Proof.
  split; [|split; [|split]].
  - intros out_dir in_path w Hos. unfold convert_ppt_item.
    set (tmp := tmp_pdf_of hst out_dir in_path).
    set (final := final_pdf_of hst out_dir in_path).
    rewrite M_bind_eq.
    pose proof (no_os_call_convert hst in_path tmp "ppt" w) as Hos1.
    destruct (convert_office_doc_to_pdf hst in_path tmp "ppt" w) as [w1 [[]|e]];
      [|simpl; discriminate].
    rewrite M_bind_eq.
    pose proof (no_os_call_sanitize E tmp final w1) as Hos2.
    destruct (sanitize_pdf_no_metadata E tmp final w1) as [w2 [[]|e]];
      [|simpl; discriminate].
    simpl in Hos1, Hos2. intros _. apply remove_quietly_absent. congruence.
  - intros force out_dir in_path w Hos. unfold convert_excel_item.
    set (tmp := tmp_pdf_of hst out_dir in_path).
    set (mid := mid_pdf_of hst out_dir in_path).
    set (final := final_pdf_of hst out_dir in_path).
    rewrite M_bind_eq.
    pose proof (no_os_call_convert hst in_path tmp "excel" w) as Hos1.
    destruct (convert_office_doc_to_pdf hst in_path tmp "excel" w) as [w1 [[]|e]];
      [|simpl; discriminate].
    rewrite M_bind_eq.
    assert (no_os_call (if force
                        then auto_rotate_pdf_pages_to_landscape E tmp mid;;
                             sanitize_pdf_no_metadata E mid final
                        else sanitize_pdf_no_metadata E tmp final)) as Hpdf.
    { destruct force; [|apply no_os_call_sanitize].
      apply no_os_call_bind; [apply no_os_call_auto_rotate|].
      intros _. apply no_os_call_sanitize. }
    specialize (Hpdf w1).
    destruct ((if force
               then auto_rotate_pdf_pages_to_landscape E tmp mid;;
                    sanitize_pdf_no_metadata E mid final
               else sanitize_pdf_no_metadata E tmp final) w1) as [w2 [[]|e]];
      [|simpl; discriminate].
    simpl in Hos1, Hpdf.
    rewrite M_bind_eq.
    destruct (remove_if_exists_absent tmp w2 ltac:(congruence))
      as (Hok & Htmp & Hos3 & _).
    destruct (remove_if_exists tmp w2) as [w3 r3]. simpl in Hok, Htmp, Hos3. subst r3.
    destruct (remove_if_exists_absent mid w3 Hos3) as (_ & Hmid & _ & Hkeep).
    intros _. split; [now apply Hkeep | exact Hmid].
  - intros out_path w. apply sanitize_output_returns.
  - intros out_path w Hos Hthere Hne.
    now apply (sanitize_output_tmp_gone E out_path w Hos Hthere Hne).
Qed.

Lemma working_files_removed_witness :
  let hst := posix_host (fun _ _ => Some three_pages) (fun _ => None) in
  ((convert_ppt_item pypdf hst "/out" "/in/talk.pptx" (disk [])).2 = Ok tt
   /\ files (convert_ppt_item pypdf hst "/out" "/in/talk.pptx" (disk [])).1
        !! tmp_pdf_of hst "/out" "/in/talk.pptx" = None)
  /\ ((convert_excel_item pypdf hst true "/out" "/in/sheet.xlsx" (disk [])).2 = Ok tt
      /\ files (convert_excel_item pypdf hst true "/out" "/in/sheet.xlsx" (disk [])).1
           !! tmp_pdf_of hst "/out" "/in/sheet.xlsx" = None
      /\ files (convert_excel_item pypdf hst true "/out" "/in/sheet.xlsx" (disk [])).1
           !! mid_pdf_of hst "/out" "/in/sheet.xlsx" = None)
  /\ (is_Some (files (disk [false; true]) !! "a.pdf"%string)
      /\ replace ".pdf" ".__tmp__.pdf" "a.pdf" <> "a.pdf"%string
      /\ (sanitize_output pypdf "a.pdf" (disk [false; true])).2 = Ok tt
      /\ files (sanitize_output pypdf "a.pdf" (disk [false; true])).1
           !! replace ".pdf" ".__tmp__.pdf" "a.pdf" = None).
Proof.
  intros hst.
  pose proof (working_files_removed pypdf hst) as (Hppt & Hexcel & Hreturns & Htail).
  split; [|split].
  - split; [reflexivity|].
    apply (Hppt "/out"%string "/in/talk.pptx"%string (disk []) eq_refl).
    reflexivity.
  - split; [reflexivity|].
    apply (Hexcel true "/out"%string "/in/sheet.xlsx"%string (disk []) eq_refl).
    reflexivity.
  - assert (is_Some (files (disk [false; true]) !! "a.pdf"%string)) as Hthere
      by (eexists; reflexivity).
    assert (replace ".pdf" ".__tmp__.pdf" "a.pdf" <> "a.pdf"%string) as Hne
      by discriminate.
    split; [exact Hthere|]. split; [exact Hne|].
    split; [apply Hreturns|].
    apply (Htail "a.pdf"%string (disk [false; true]) eq_refl Hthere Hne).
Defined.

(** C6, as stated, fails: a PowerPoint conversion whose sanitizer cannot
    open the destination for writing ends with an error box and leaves the
    [.__tmp__.pdf] file of the converter on disk. *)
Lemma failed_conversion_leaves_tmp :
  let hst := posix_host (fun _ _ => Some three_pages) (fun _ => None) in
  let done := convert_ppt_dialog pypdf hst ["/in/talk.pptx"%string] "/out"
                                 (disk [false; true]) in
  done.2 = Ok tt
  /\ shown done.1 = [showerror]
  /\ tmp_pdf_of hst "/out" "/in/talk.pptx" = "/out/talk.__tmp__.pdf"%string
  /\ files done.1 !! "/out/talk.__tmp__.pdf"%string = Some (PdfFile three_pages).
Proof. repeat split. Qed.

(** The removal itself can fail: the program swallows the error, so a
    conversion with no other failure reports success, has written the
    final PDF and still leaves the [.__tmp__.pdf] file on disk. *)
Lemma failed_removal_leaves_tmp :
  let hst := posix_host (fun _ _ => Some three_pages) (fun _ => None) in
  let done := convert_ppt_dialog pypdf hst ["/in/talk.pptx"%string] "/out"
                                 (with_os_faults [true] (disk [])) in
  done.2 = Ok tt
  /\ shown done.1 = [showinfo]
  /\ files done.1 !! "/out/talk.pdf"%string
     = Some (PdfFile {| pages := pages three_pages;
                        info := fresh_info pypdf; xmp := None |})
  /\ files done.1 !! "/out/talk.__tmp__.pdf"%string = Some (PdfFile three_pages).
Proof. repeat split. Qed.

(** ** Empty selections *)

Lemma safe_open_reader_files (path : string) (w : world) :
  files (safe_open_reader path w).1 = files w.
Proof.
  destruct w as [fs fl ofl sh]. unfold safe_open_reader. step.
  destruct fl as [|[] fl]; step; try reflexivity.
  all: destruct (fs !! path) as [[d|]|]; step; reflexivity.
Qed.

Lemma selected_reader_files (items : list string) (sel : list Z) (w : world) :
  files (selected_reader items sel w).1 = files w.
Proof.
  unfold selected_reader.
  destruct items as [|i items]; [reflexivity|].
  destruct sel as [|chosen [|? ?]]; try reflexivity.
  rewrite M_bind_eq. unfold lift at 1.
  destruct (index (i :: items) chosen); [|reflexivity].
  apply safe_open_reader_files.
Qed.

(** C7 (amended). [merge_serial] with no source shows a warning and writes
    nothing; [extract_pages_dialog] and [delete_pages_dialog], once the
    selected file is open, show a warning and write nothing when the range
    expression parses to the empty list. *)
Theorem empty_selection_guards (E : engine) :
  (forall out_path w, merge_serial E [] out_path w = (warned w, Ok tt))
  /\ (forall items sel ranges out_path w w1 reader,
         selected_reader items sel w = (w1, Ok (Some reader)) ->
         V1_2.parse_page_ranges ranges (Z.of_nat (length (pages reader))) = Ok [] ->
         extract_pages_dialog E items sel (Some ranges) out_path w = (warned w1, Ok tt)
         /\ files (warned w1) = files w)
  /\ (forall items sel ranges out_path w w1 reader,
         selected_reader items sel w = (w1, Ok (Some reader)) ->
         V1_2.parse_page_ranges ranges (Z.of_nat (length (pages reader))) = Ok [] ->
         delete_pages_dialog E items sel (Some ranges) out_path w = (warned w1, Ok tt)
         /\ files (warned w1) = files w).
Proof.
  split; [|split].
  - reflexivity.
  - intros items sel ranges out_path w w1 reader Hsel Hparse. split.
    + unfold extract_pages_dialog. rewrite M_bind_eq, Hsel, M_bind_eq.
      unfold lift at 1. rewrite Hparse. reflexivity.
    + simpl. pose proof (selected_reader_files items sel w) as Hf.
      now rewrite Hsel in Hf.
  - intros items sel ranges out_path w w1 reader Hsel Hparse. split.
    + unfold delete_pages_dialog. rewrite M_bind_eq, Hsel, M_bind_eq.
      unfold lift at 1. rewrite Hparse. reflexivity.
    + simpl. pose proof (selected_reader_files items sel w) as Hf.
      now rewrite Hsel in Hf.
Qed.

Lemma empty_selection_guards_witness :
  selected_reader ["a.pdf"%string] [0] (disk []) = (disk [], Ok (Some three_pages))
  /\ V1_2.parse_page_ranges "7, x" (Z.of_nat (length (pages three_pages))) = Ok []
  /\ (extract_pages_dialog pypdf ["a.pdf"%string] [0] (Some "7, x"%string) "e.pdf" (disk [])
      = (warned (disk []), Ok tt)
      /\ files (warned (disk [])) = files (disk []))
  /\ (delete_pages_dialog pypdf ["a.pdf"%string] [0] (Some "7, x"%string) "d.pdf" (disk [])
      = (warned (disk []), Ok tt)
      /\ files (warned (disk [])) = files (disk [])).
Proof.
  pose proof (empty_selection_guards pypdf) as (_ & Hextract & Hdelete).
  split; [reflexivity|]. split; [reflexivity|]. split.
  - apply (Hextract ["a.pdf"%string] [0] "7, x"%string "e.pdf"%string
                    (disk []) (disk []) three_pages); reflexivity.
  - apply (Hdelete ["a.pdf"%string] [0] "7, x"%string "d.pdf"%string
                   (disk []) (disk []) three_pages); reflexivity.
Defined.

(** C7, as stated, fails: deleting every page of a three-page document
    shows no warning, reports success and writes a PDF with no page. *)
Lemma delete_every_page_writes_empty_pdf :
  let done := delete_pages_dialog pypdf ["a.pdf"%string] [0] (Some "1-3"%string)
                                  "deleted_a.pdf" (disk []) in
  done.2 = Ok tt
  /\ shown done.1 = [showinfo]
  /\ files done.1 !! "deleted_a.pdf"%string
     = Some (PdfFile {| pages := []; info := fresh_info pypdf; xmp := None |}).
Proof. repeat split. Qed.

(** * Further properties of the code *)

(** ** The parser *)

Section ParserExtras.

Import Reference.

Lemma first_seen_In_iff (l : list Z) (x : Z) : In x (first_seen l) <-> In x l.
Proof.
  split; [apply first_seen_In|].
  induction l as [|y l IH]; simpl; [tauto|].
  intros [->|Hx]; [now left|].
  destruct (Z.eq_dec x y) as [->|Hne]; [now left|].
  right. apply List.filter_In. split; [now apply IH|].
  now apply negb_true_iff, Z.eqb_neq.
Qed.

Lemma filter_all {A} (f : A -> bool) (l : list A) :
  (forall x, In x l -> f x = true) -> List.filter f l = l.
Proof.
  induction l as [|y l IH]; simpl; intros H; [reflexivity|].
  rewrite (H y) by now left. f_equal. apply IH. intros x Hx. apply H. now right.
Qed.

Lemma first_seen_fixed (l : list Z) : List.NoDup l -> first_seen l = l.
Proof.
  induction 1 as [|x l Hx _ IH]; simpl; [reflexivity|].
  rewrite IH. f_equal. apply filter_all.
  intros y Hy. apply negb_true_iff, Z.eqb_neq. intros ->. contradiction.
Qed.

Lemma first_seen_app (a b : list Z) :
  first_seen (a ++ b) = first_seen a ++ List.filter (absent_from a) (first_seen b).
Proof.
  induction a as [|x a IH]; simpl.
  - symmetry. now apply filter_all.
  - f_equal. rewrite IH, List.filter_app. f_equal.
    rewrite filter_twice. apply filter_ext. intros y.
    unfold absent_from. simpl. now rewrite negb_orb.
Qed.

Lemma absent_from_ext (a a' : list Z) :
  (forall x, In x a <-> In x a') -> forall y, absent_from a y = absent_from a' y.
Proof.
  intros H y. unfold absent_from. f_equal.
  apply eq_true_iff_eq. rewrite !existsb_exists.
  split; intros (z & Hz & Hyz); apply Z.eqb_eq in Hyz; subst z;
    exists y; (split; [now apply H | apply Z.eqb_refl]).
Qed.

Lemma first_seen_of_parts (a b : list Z) :
  first_seen (a ++ b) = first_seen (first_seen a ++ first_seen b).
Proof.
  rewrite !first_seen_app.
  rewrite !(first_seen_fixed (first_seen _)) by apply first_seen_NoDup.
  f_equal. apply filter_ext, absent_from_ext.
  intros x. symmetry. apply first_seen_In_iff.
Qed.

(** X1. Whatever the expression, the parser returns at most as many
    indices as the document has pages, and none for a document without
    pages. *)
Theorem parse_page_ranges_at_most_all_pages (ranges_str : string) (total_pages : Z) :
  exists l,
    V1_2.parse_page_ranges ranges_str total_pages = Ok l
    /\ Z.of_nat (length l) <= Z.max 0 total_pages
    /\ (total_pages <= 0 -> l = []).
Proof.
  exists (parse ranges_str total_pages).
  split; [apply parse_page_ranges_reference|].
  pose proof (parse_in_bounds ranges_str total_pages) as Hb.
  pose proof (first_seen_NoDup
                (map (fun v => v - 1)
                   (List.filter (in_document total_pages)
                      (flat_map token_values (map strip (split "," ranges_str))))))
    as Hnd.
  fold (parse ranges_str total_pages) in Hnd.
  set (l := parse ranges_str total_pages) in *. clearbody l.
  assert (length (map Z.to_nat l) <= length (seq 0 (Z.to_nat total_pages)))%nat as Hlen.
  { apply List.NoDup_incl_length.
    - apply List.NoDup_map_NoDup_ForallPairs; [|exact Hnd].
      intros x y Hx Hy Hxy. rewrite List.Forall_forall in Hb.
      pose proof (Hb x Hx). pose proof (Hb y Hy). lia.
    - intros n Hn. apply List.in_map_iff in Hn as (x & <- & Hx).
      rewrite List.Forall_forall in Hb. pose proof (Hb x Hx).
      apply List.in_seq. lia. }
  rewrite length_map, length_seq in Hlen.
  split; [lia|].
  intros Hz. destruct l as [|x l]; [reflexivity|]. simpl in Hlen. lia.
Qed.

Lemma filter_none {A} (f : A -> bool) (l : list A) :
  (forall x, In x l -> f x = false) -> List.filter f l = [].
Proof.
  induction l as [|y l IH]; simpl; intros H; [reflexivity|].
  rewrite (H y) by now left. apply IH. intros x Hx. apply H. now right.
Qed.

Lemma first_seen_twice (l : list Z) :
  first_seen (first_seen l ++ first_seen l) = first_seen l.
Proof.
  rewrite first_seen_app, !(first_seen_fixed (first_seen l)) by apply first_seen_NoDup.
  rewrite filter_none; [apply app_nil_r|].
  intros x Hx. unfold absent_from. apply negb_false_iff, existsb_exists.
  exists x. split; [exact Hx | apply Z.eqb_refl].
Qed.

(** X2. Joining two expressions with a comma gives the indices of the first
    followed by those of the second that are new: the result is the
    order-keeping deduplication of the two results put end to end. Writing
    an expression twice changes nothing. *)
Theorem parse_page_ranges_concat (s1 s2 : string) (total_pages : Z) :
  exists l1 l2,
    V1_2.parse_page_ranges s1 total_pages = Ok l1
    /\ V1_2.parse_page_ranges s2 total_pages = Ok l2
    /\ V1_2.parse_page_ranges (s1 ++ String "," s2) total_pages
       = Ok (dedup_keep_order (l1 ++ l2))
    /\ V1_2.parse_page_ranges (s1 ++ String "," s1) total_pages = Ok l1.
Proof.
  exists (parse s1 total_pages), (parse s2 total_pages).
  rewrite !parse_page_ranges_reference, dedup_keep_order_first_seen.
  assert (forall a b, parse (a ++ String "," b) total_pages
                      = first_seen (parse a total_pages ++ parse b total_pages)) as Hcat.
  { intros a b. unfold parse.
    rewrite split_app, map_app, flat_map_app, List.filter_app, map_app.
    apply first_seen_of_parts. }
  repeat split.
  - now rewrite Hcat.
  - rewrite Hcat. f_equal. unfold parse. apply first_seen_twice.
Qed.

End ParserExtras.

Section RangeReversal.

Import Reference.

Lemma lstrip_app_nonspace (a r : string) (c : ascii) :
  isspace c = false -> lstrip (a ++ String c r) = (lstrip a ++ String c r)%string.
Proof.
  intros Hc. induction a as [|x a IH]; simpl; [now rewrite Hc|].
  destruct (isspace x); [exact IH | reflexivity].
Qed.

Lemma rstrip_nonspace (c : ascii) (r : string) :
  isspace c = false -> rstrip (String c r) = String c (rstrip r).
Proof. intros Hc. simpl. destruct (rstrip r); [now rewrite Hc | reflexivity]. Qed.

Lemma rstrip_app_nonspace (a r : string) (c : ascii) :
  isspace c = false -> rstrip (a ++ String c r) = (a ++ String c (rstrip r))%string.
Proof.
  intros Hc. induction a as [|x a IH]; [now apply rstrip_nonspace|].
  simpl. rewrite IH. destruct a; reflexivity.
Qed.

Lemma lstrip_idem (s : string) : lstrip (lstrip s) = lstrip s.
Proof.
  induction s as [|c s IH]; simpl; [reflexivity|].
  destruct (isspace c) eqn:Hc; [exact IH|]. simpl. now rewrite Hc.
Qed.

Lemma rstrip_idem (s : string) : rstrip (rstrip s) = rstrip s.
Proof.
  induction s as [|c s IH]; simpl; [reflexivity|].
  destruct (rstrip s) as [|k ks] eqn:Hk.
  - destruct (isspace c) eqn:Hc; simpl; [reflexivity | now rewrite Hc].
  - cbn [rstrip] in *. rewrite IH. reflexivity.
Qed.

Lemma lstrip_rstrip (s : string) : lstrip (rstrip s) = rstrip (lstrip s).
Proof.
  induction s as [|c s IH]; [reflexivity|].
  destruct (isspace c) eqn:Hc.
  - cbn [lstrip]. rewrite Hc, <- IH. cbn [rstrip].
    destruct (rstrip s); cbn [lstrip]; now rewrite Hc.
  - rewrite (rstrip_nonspace c s Hc). cbn [lstrip]. rewrite Hc.
    now rewrite (rstrip_nonspace c s Hc).
Qed.

Lemma isspace_int_space (c : ascii) :
  ((28 <=? nat_of_ascii c) && (nat_of_ascii c <=? 31))%nat = false ->
  int_space c = isspace c.
Proof.
  unfold int_space, isspace. cbv zeta. generalize (nat_of_ascii c). intros n Hn.
  destruct (Nat.leb_spec 9 n), (Nat.leb_spec n 13), (Nat.leb_spec 28 n),
    (Nat.leb_spec n 32), (Nat.leb_spec n 31), (Nat.eqb_spec n 32),
    (Nat.eqb_spec n 133), (Nat.eqb_spec n 160);
    cbn in *; try reflexivity; try discriminate; lia.
Qed.

Lemma separator_free_cons (c : ascii) (s : string) :
  separator_free (String c s) = true ->
  ((28 <=? nat_of_ascii c) && (nat_of_ascii c <=? 31))%nat = false
  /\ separator_free s = true.
Proof.
  unfold separator_free. cbn [list_ascii_of_string forallb].
  intros [Hc Hs]%andb_true_iff. split; [now apply negb_true_iff | exact Hs].
Qed.

Lemma int_lskip_lstrip (s : string) :
  separator_free s = true -> int_lskip s = lstrip s.
Proof.
  induction s as [|c s IH]; [reflexivity|].
  intros [Hc Hs]%separator_free_cons. cbn [int_lskip lstrip].
  rewrite (isspace_int_space c Hc), (IH Hs). reflexivity.
Qed.

Lemma int_rskip_rstrip (s : string) :
  separator_free s = true -> int_rskip s = rstrip s.
Proof.
  induction s as [|c s IH]; [reflexivity|].
  intros [Hc Hs]%separator_free_cons. cbn [int_rskip rstrip].
  rewrite (isspace_int_space c Hc), (IH Hs). reflexivity.
Qed.

Lemma separator_free_lstrip (s : string) :
  separator_free s = true -> separator_free (lstrip s) = true.
Proof.
  induction s as [|c s IH]; [reflexivity|].
  intros H. pose proof (separator_free_cons c s H) as [_ Hs].
  cbn [lstrip]. destruct (isspace c); [now apply IH | exact H].
Qed.

Lemma separator_free_rstrip (s : string) :
  separator_free s = true -> separator_free (rstrip s) = true.
Proof.
  induction s as [|c s IH]; [reflexivity|].
  intros H. pose proof (separator_free_cons c s H) as [Hc Hs].
  specialize (IH Hs). cbn [rstrip]. destruct (rstrip s) as [|k ks].
  - destruct (isspace c); [reflexivity|].
    unfold separator_free. cbn [list_ascii_of_string forallb].
    now rewrite Hc.
  - unfold separator_free in *. cbn [list_ascii_of_string forallb] in *.
    now rewrite Hc, IH.
Qed.

(** On strings without separators [int] skips what [strip] removes. *)
Lemma int_skips_strip (s : string) :
  separator_free s = true -> int_rskip (int_lskip s) = strip s.
Proof.
  intros Hs. unfold strip. rewrite (int_lskip_lstrip s Hs).
  apply int_rskip_rstrip. now apply separator_free_lstrip.
Qed.

Lemma int_lstrip (s : string) :
  separator_free s = true -> int (lstrip s) = int s.
Proof.
  intros Hs. unfold int.
  rewrite (int_skips_strip s Hs), (int_skips_strip _ (separator_free_lstrip s Hs)).
  unfold strip. now rewrite lstrip_idem.
Qed.

Lemma int_rstrip (s : string) :
  separator_free s = true -> int (rstrip s) = int s.
Proof.
  intros Hs. unfold int.
  rewrite (int_skips_strip s Hs), (int_skips_strip _ (separator_free_rstrip s Hs)).
  unfold strip. now rewrite lstrip_rstrip, rstrip_idem.
Qed.

Lemma contains_lstrip (sep : ascii) (s : string) :
  contains sep s = false -> contains sep (lstrip s) = false.
Proof.
  induction s as [|c s IH]; simpl; [reflexivity|].
  intros [Hc Hs]%orb_false_iff.
  destruct (isspace c); [now apply IH|]. simpl. now rewrite Hc, Hs.
Qed.

Lemma contains_app (sep : ascii) (a b : string) :
  contains sep (a ++ b) = contains sep a || contains sep b.
Proof.
  induction a as [|c a IH]; simpl; [reflexivity|]. now rewrite IH, orb_assoc.
Qed.

Lemma split1_app (sep : ascii) (a b : string) :
  contains sep a = false -> split1 sep (a ++ String sep b) = [a; b].
Proof.
  induction a as [|c a IH]; simpl.
  - now rewrite Ascii.eqb_refl.
  - intros [Hc Ha]%orb_false_iff. now rewrite Hc, (IH Ha).
Qed.

Lemma ascending_cons (a b : Z) : a <= b -> ascending a b = a :: ascending (a + 1) b.
Proof. apply page_numbers_cons. Qed.

Lemma descending_snoc (a b : Z) :
  a <= b -> descending b a = descending b (a + 1) ++ [a].
Proof.
  intros H. unfold descending.
  replace (Z.to_nat (b - a + 1)) with (Datatypes.S (Z.to_nat (b - (a + 1) + 1))) by lia.
  rewrite seq_S, map_app. simpl. do 2 f_equal. lia.
Qed.

Lemma descending_rev_ascending (a b : Z) : descending b a = rev (ascending a b).
Proof.
  remember (Z.to_nat (b - a + 1)) as n eqn:Hn. revert a Hn.
  induction n as [|n IH]; intros a Hn.
  - unfold descending, ascending. now rewrite <- Hn.
  - rewrite ascending_cons, descending_snoc by lia. simpl.
    f_equal. apply IH. lia.
Qed.

Lemma ascending_NoDup (a b : Z) : List.NoDup (ascending a b).
Proof.
  unfold ascending. apply List.NoDup_map_NoDup_ForallPairs; [|apply List.seq_NoDup].
  intros x y _ _ Hxy. lia.
Qed.

Lemma shifted_NoDup (total : Z) (vs : list Z) :
  List.NoDup vs ->
  List.NoDup (map (fun v => v - 1) (List.filter (in_document total) vs)).
Proof.
  intros H. apply List.NoDup_map_NoDup_ForallPairs; [|now apply List.NoDup_filter].
  intros x y _ _ Hxy. lia.
Qed.

Lemma shifted_rev (total : Z) (vs : list Z) :
  map (fun v => v - 1) (List.filter (in_document total) (rev vs))
  = rev (map (fun v => v - 1) (List.filter (in_document total) vs)).
Proof.
  rewrite <- map_rev. f_equal.
  induction vs as [|v vs IH]; simpl; [reflexivity|].
  rewrite List.filter_app, IH. simpl.
  destruct (in_document total v); simpl; [reflexivity | now rewrite app_nil_r].
Qed.

(** The values of the one token of the expression [a-b]. *)
Lemma range_token (a b : string) :
  contains "-" a = false ->
  separator_free a = true -> separator_free b = true ->
  token_values (strip (a ++ String "-" b))
  = match int a, int b with
    | Ok x, Ok y => if x <=? y then ascending x y else descending x y
    | _, _ => []
    end.
Proof.
  intros Ha Hsa Hsb. unfold strip.
  rewrite lstrip_app_nonspace, rstrip_app_nonspace by reflexivity.
  unfold token_values.
  rewrite contains_app. simpl. rewrite orb_true_r.
  rewrite split1_app by now apply contains_lstrip.
  now rewrite int_lstrip, int_rstrip.
Qed.

Lemma range_expression (a b : string) (total : Z) :
  contains "-" a = false -> contains "," a = false -> contains "," b = false ->
  separator_free a = true -> separator_free b = true ->
  parse (a ++ String "-" b) total
  = first_seen (map (fun v => v - 1)
                  (List.filter (in_document total)
                     match int a, int b with
                     | Ok x, Ok y => if x <=? y then ascending x y else descending x y
                     | _, _ => []
                     end)).
Proof.
  intros Ha Hca Hcb Hsa Hsb. unfold parse.
  rewrite split_no_sep.
  - simpl. rewrite app_nil_r. now rewrite range_token.
  - rewrite contains_app. simpl. now rewrite Hca, Hcb.
Qed.

(** X3. Swapping the two ends of a range token reverses the pages it
    selects: for [a] and [b] that hold no hyphen, no comma and none of the
    separator characters FS, GS, RS, US (which [strip] removes at the ends
    of the token but [int] does not accept), the result for [b-a] is the
    result for [a-b] read backwards (both are empty when an end is not a
    number). *)
Theorem parse_page_ranges_reversed_range (a b : string) (total_pages : Z) :
  contains "-" a = false -> contains "-" b = false ->
  contains "," a = false -> contains "," b = false ->
  separator_free a = true -> separator_free b = true ->
  exists l,
    V1_2.parse_page_ranges (a ++ String "-" b) total_pages = Ok l
    /\ V1_2.parse_page_ranges (b ++ String "-" a) total_pages = Ok (rev l).
Proof.
  intros Ha Hb Hca Hcb Hsa Hsb.
  exists (parse (a ++ String "-" b) total_pages).
  rewrite !parse_page_ranges_reference. split; [reflexivity|]. f_equal.
  rewrite !range_expression by assumption.
  destruct (int a) as [x|e]; [|destruct (int b); reflexivity].
  destruct (int b) as [y|e]; [|reflexivity].
  assert (forall vs, List.NoDup vs ->
            first_seen (map (fun v => v - 1) (List.filter (in_document total_pages) (rev vs)))
            = rev (first_seen (map (fun v => v - 1)
                                 (List.filter (in_document total_pages) vs)))) as Hrev.
  { intros vs Hvs.
    rewrite !first_seen_fixed; [apply shifted_rev | now apply shifted_NoDup |].
    apply shifted_NoDup. now apply List.NoDup_rev. }
  destruct (Z.leb_spec x y), (Z.leb_spec y x).
  - assert (x = y) as -> by lia.
    replace (ascending y y) with (rev (ascending y y)) at 1; [apply Hrev, ascending_NoDup|].
    unfold ascending. now replace (Z.to_nat (y - y + 1)) with 1%nat by lia.
  - rewrite descending_rev_ascending. apply Hrev, ascending_NoDup.
  - rewrite <- (rev_involutive (ascending y x)), <- descending_rev_ascending.
    apply Hrev. rewrite descending_rev_ascending. apply List.NoDup_rev, ascending_NoDup.
  - lia.
Qed.

Lemma parse_page_ranges_reversed_range_witness :
  contains "-" " 2" = false /\ contains "-" "4 " = false
  /\ contains "," " 2" = false /\ contains "," "4 " = false
  /\ separator_free " 2" = true /\ separator_free "4 " = true
  /\ exists l,
       V1_2.parse_page_ranges (" 2" ++ String "-" "4 ") 5 = Ok l
       /\ V1_2.parse_page_ranges ("4 " ++ String "-" " 2") 5 = Ok (rev l).
Proof.
  split; [reflexivity|]. split; [reflexivity|].
  split; [reflexivity|]. split; [reflexivity|].
  split; [reflexivity|]. split; [reflexivity|].
  apply (parse_page_ranges_reversed_range " 2" "4 " 5); reflexivity.
Defined.

(** Why the separator characters are excluded: [1<FS>-3] names no page,
    since [int] rejects [1<FS>], while in [3-1<FS>] the separator is at the
    end of the token and [strip] removes it. *)
Lemma reversed_range_with_separator :
  let fs := String (ascii_of_nat 28) EmptyString in
  V1_2.parse_page_ranges (("1" ++ fs) ++ String "-" "3") 5 = Ok []
  /\ V1_2.parse_page_ranges ("3" ++ String "-" ("1" ++ fs)) 5 = Ok [2; 1; 0].
Proof. split; reflexivity. Qed.

End RangeReversal.

(** ** The other interleave modes *)

Section InterleaveExtras.

Import InterleaveReference.

Lemma page_numbers_le (first last : Z) :
  Forall (fun i => i <= last) (page_numbers first last).
Proof.
  unfold page_numbers. apply List.Forall_forall. intros i Hi.
  apply List.in_map_iff in Hi as (k & <- & Hk). apply List.in_seq in Hk. lia.
Qed.

Lemma page_numbers_between (first last : Z) :
  1 <= first ->
  Forall (fun i => 1 <= i <= last) (page_numbers first last).
Proof.
  intros H. apply List.Forall_forall. intros i Hi.
  pose proof (page_numbers_ge first last) as Hge.
  pose proof (page_numbers_le first last) as Hle.
  rewrite List.Forall_forall in Hge, Hle.
  specialize (Hge i Hi). specialize (Hle i Hi). lia.
Qed.

Lemma a_even_b_odd_plan A B (l : list Z) (w : PdfWriter) :
  Forall (fun i => 1 <= i) l ->
  exists ps,
    fetch A B
      (flat_map (fun i =>
         (if (i <=? Z.of_nat (length A)) && Z.even i then [(DocA, i)] else [])
         ++ (if (i <=? Z.of_nat (length B)) && Z.odd i then [(DocB, i)] else []))
         l) = Some ps
    /\ for_each (a_even_b_odd_body A B (Z.of_nat (length A)) (Z.of_nat (length B))) l w
       = Ok (add_pages w ps).
Proof.
  intros Hl. revert w. induction Hl as [|i l Hi _ IH]; intros w; simpl.
  - exists []. now rewrite add_pages_nil.
  - destruct (guarded_add A DocA A B
                ((i <=? Z.of_nat (length A)) && Z.even i) i w eq_refl Hi)
      as (psa & Hfa & Hsa).
    { intros [H _]%andb_true_iff. lia. }
    destruct (guarded_add B DocB A B
                ((i <=? Z.of_nat (length B)) && Z.odd i) i (add_pages w psa) eq_refl Hi)
      as (psb & Hfb & Hsb).
    { intros [H _]%andb_true_iff. lia. }
    destruct (IH (add_pages (add_pages w psa) psb)) as (ps & Hf & Hs).
    exists ((psa ++ psb) ++ ps). split.
    + apply fetch_app; [|exact Hf]. now apply fetch_app.
    + assert (a_even_b_odd_body A B (Z.of_nat (length A)) (Z.of_nat (length B)) w i
              = Ok (add_pages (add_pages w psa) psb)) as ->.
      { unfold a_even_b_odd_body. rewrite is_odd_odd, Z.negb_odd, Hsa.
        simpl. exact Hsb. }
      simpl. now rewrite Hs, !add_pages_app, <- ?app_assoc.
Qed.

(** One document, one parity: the loop of [a_odd] ([keep] is [Z.odd]) and
    of [b_even] ([keep] is [Z.even]). *)
Lemma one_parity_plan (doc : list Page) (src : source) A B (keep : Z -> bool)
  (body : PdfWriter -> Z -> result PdfWriter) (l : list Z) (w : PdfWriter) :
  doc = match src with DocA => A | DocB => B end ->
  (forall w i, body w i
               = if keep i then p ← index doc (i - 1); Ok (add_page w p) else Ok w) ->
  Forall (fun i => 1 <= i <= Z.of_nat (length doc)) l ->
  exists ps,
    fetch A B (map (pair src) (List.filter keep l)) = Some ps
    /\ for_each body l w = Ok (add_pages w ps).
Proof.
  intros Hdoc Hbody Hl. revert w. induction Hl as [|i l Hi _ IH]; intros w; simpl.
  - exists []. now rewrite add_pages_nil.
  - destruct (guarded_add doc src A B (keep i) i w Hdoc) as (psa & Hfa & Hsa);
      [lia | intros _; lia |].
    destruct (IH (add_pages w psa)) as (ps & Hf & Hs).
    exists (psa ++ ps). split.
    + assert (map (pair src)
                (if keep i then i :: List.filter keep l else List.filter keep l)
              = (if keep i then [(src, i)] else [])
                ++ map (pair src) (List.filter keep l)) as ->
        by (destruct (keep i); reflexivity).
      now apply fetch_app.
    + rewrite Hbody, Hsa. simpl. now rewrite Hs, add_pages_app.
Qed.

(** X4. Mode [a_even_b_odd] with a start page of at least 1 never
    raises: for i from the start page to the longer document's length it
    adds page i of A when i is even and A has it, then page i of B when i
    is odd and B has it, after the pages the writer already holds. *)
Theorem interleave_a_even_b_odd_order (A B : list Page) (start_from : Z)
  (writer : PdfWriter) :
  1 <= start_from ->
  exists ps,
    fetch A B
      (flat_map (fun i =>
         (if (i <=? Z.of_nat (length A)) && Z.even i then [(DocA, i)] else [])
         ++ (if (i <=? Z.of_nat (length B)) && Z.odd i then [(DocB, i)] else []))
         (page_numbers start_from (Z.max (Z.of_nat (length A)) (Z.of_nat (length B)))))
    = Some ps
    /\ interleave_pages A B "a_even_b_odd" start_from writer
       = Ok (Some (add_pages writer ps)).
Proof.
  intros Hs.
  destruct (a_even_b_odd_plan A B
              (page_numbers start_from
                 (Z.max (Z.of_nat (length A)) (Z.of_nat (length B)))) writer)
    as (ps & Hf & Hl).
  { eapply List.Forall_impl; [|apply page_numbers_ge]. simpl. intros; lia. }
  exists ps. split; [exact Hf|].
  unfold interleave_pages.
  change (String.eqb "a_even_b_odd" "alternate") with false.
  change (String.eqb "a_even_b_odd" "a_odd_b_even") with false.
  change (String.eqb "a_even_b_odd" "a_even_b_odd") with true.
  cbv iota. rewrite range_page_numbers. simpl. now rewrite Hl.
Qed.

Lemma interleave_a_even_b_odd_order_witness :
  exists ps,
    fetch (pages three_pages) [page_n 11; page_n 12]
      (flat_map (fun i =>
         (if (i <=? Z.of_nat (length (pages three_pages))) && Z.even i
          then [(DocA, i)] else [])
         ++ (if (i <=? Z.of_nat (length [page_n 11; page_n 12])) && Z.odd i
             then [(DocB, i)] else []))
         (page_numbers 1 (Z.max (Z.of_nat (length (pages three_pages)))
                                (Z.of_nat (length [page_n 11; page_n 12])))))
    = Some ps
    /\ interleave_pages (pages three_pages) [page_n 11; page_n 12] "a_even_b_odd" 1
                        (new_writer pypdf)
       = Ok (Some (add_pages (new_writer pypdf) ps)).
Proof.
  apply (interleave_a_even_b_odd_order (pages three_pages) [page_n 11; page_n 12] 1
           (new_writer pypdf)).
  lia.
Defined.

Lemma a_odd_order (A B : list Page) (start_from : Z) (writer : PdfWriter) :
  1 <= start_from ->
  exists ps,
    fetch A B (map (pair DocA)
                 (List.filter Z.odd (page_numbers start_from (Z.of_nat (length A)))))
    = Some ps
    /\ interleave_pages A B "a_odd" start_from writer = Ok (Some (add_pages writer ps)).
Proof.
  intros Hs.
  destruct (one_parity_plan A DocA A B Z.odd (a_odd_body A)
              (page_numbers start_from (Z.of_nat (length A))) writer eq_refl)
    as (ps & Hf & Hl).
  { intros w i. unfold a_odd_body. now rewrite is_odd_odd. }
  { now apply page_numbers_between. }
  exists ps. split; [exact Hf|].
  unfold interleave_pages.
  change (String.eqb "a_odd" "alternate") with false.
  change (String.eqb "a_odd" "a_odd_b_even") with false.
  change (String.eqb "a_odd" "a_even_b_odd") with false.
  change (String.eqb "a_odd" "a_odd") with true.
  cbv iota. rewrite range_page_numbers. simpl. now rewrite Hl.
Qed.

Lemma b_even_order (A B : list Page) (start_from : Z) (writer : PdfWriter) :
  1 <= start_from ->
  exists ps,
    fetch A B (map (pair DocB)
                 (List.filter Z.even (page_numbers start_from (Z.of_nat (length B)))))
    = Some ps
    /\ interleave_pages A B "b_even" start_from writer = Ok (Some (add_pages writer ps)).
Proof.
  intros Hs.
  destruct (one_parity_plan B DocB A B Z.even (b_even_body B)
              (page_numbers start_from (Z.of_nat (length B))) writer eq_refl)
    as (ps & Hf & Hl).
  { intros w i. unfold b_even_body. now rewrite is_odd_odd, Z.negb_odd. }
  { now apply page_numbers_between. }
  exists ps. split; [exact Hf|].
  unfold interleave_pages.
  change (String.eqb "b_even" "alternate") with false.
  change (String.eqb "b_even" "a_odd_b_even") with false.
  change (String.eqb "b_even" "a_even_b_odd") with false.
  change (String.eqb "b_even" "a_odd") with false.
  change (String.eqb "b_even" "b_even") with true.
  cbv iota. rewrite range_page_numbers. simpl. now rewrite Hl.
Qed.

(** X5. The modes that read one document only, with a start page of at
    least 1, never raise: [a_odd] adds the odd-numbered pages of A from the
    start page on, [b_even] the even-numbered pages of B, each in
    ascending order; the other document contributes nothing. *)
Theorem interleave_single_document_order (A B : list Page) (start_from : Z)
  (writer : PdfWriter) :
  1 <= start_from ->
  (exists ps,
     fetch A B (map (pair DocA)
                  (List.filter Z.odd (page_numbers start_from (Z.of_nat (length A)))))
     = Some ps
     /\ interleave_pages A B "a_odd" start_from writer = Ok (Some (add_pages writer ps)))
  /\ (exists ps,
        fetch A B (map (pair DocB)
                     (List.filter Z.even (page_numbers start_from (Z.of_nat (length B)))))
        = Some ps
        /\ interleave_pages A B "b_even" start_from writer
           = Ok (Some (add_pages writer ps))).
Proof.
  intros Hs. split; [now apply a_odd_order | now apply b_even_order].
Qed.

Lemma interleave_single_document_order_witness :
  (exists ps,
     fetch (pages three_pages) [page_n 11; page_n 12]
       (map (pair DocA)
          (List.filter Z.odd (page_numbers 2 (Z.of_nat (length (pages three_pages))))))
     = Some ps
     /\ interleave_pages (pages three_pages) [page_n 11; page_n 12] "a_odd" 2
                         (new_writer pypdf)
        = Ok (Some (add_pages (new_writer pypdf) ps)))
  /\ (exists ps,
        fetch (pages three_pages) [page_n 11; page_n 12]
          (map (pair DocB)
             (List.filter Z.even
                (page_numbers 2 (Z.of_nat (length [page_n 11; page_n 12])))))
        = Some ps
        /\ interleave_pages (pages three_pages) [page_n 11; page_n 12] "b_even" 2
                            (new_writer pypdf)
           = Ok (Some (add_pages (new_writer pypdf) ps))).
Proof.
  apply (interleave_single_document_order (pages three_pages) [page_n 11; page_n 12] 2
           (new_writer pypdf)).
  lia.
Defined.

(** X6. A start page beyond the end of both documents is not an error in
    any of the five modes: no page is added and the writer is returned as
    it was. *)
Theorem interleave_past_the_end (A B : list Page) (mode : string) (start_from : Z)
  (writer : PdfWriter) :
  Z.max (Z.of_nat (length A)) (Z.of_nat (length B)) < start_from ->
  In mode ["alternate"; "a_odd_b_even"; "a_even_b_odd"; "a_odd"; "b_even"]%string ->
  interleave_pages A B mode start_from writer = Ok (Some writer).
Proof.
  intros Hs Hmode. unfold interleave_pages.
  simpl in Hmode.
  destruct Hmode as [<-|[<-|[<-|[<-|[<-|[]]]]]].
  - change (String.eqb "alternate" "alternate") with true. cbv iota.
    rewrite alternate_loop_eq.
    destruct (Z.ltb_spec (start_from - 1) (Z.of_nat (length A))); [lia|].
    destruct (Z.ltb_spec (start_from - 1) (Z.of_nat (length B))); [lia|].
    reflexivity.
  - change (String.eqb "a_odd_b_even" "alternate") with false.
    change (String.eqb "a_odd_b_even" "a_odd_b_even") with true. cbv iota.
    rewrite range_page_numbers, page_numbers_nil by lia. reflexivity.
  - change (String.eqb "a_even_b_odd" "alternate") with false.
    change (String.eqb "a_even_b_odd" "a_odd_b_even") with false.
    change (String.eqb "a_even_b_odd" "a_even_b_odd") with true. cbv iota.
    rewrite range_page_numbers, page_numbers_nil by lia. reflexivity.
  - change (String.eqb "a_odd" "alternate") with false.
    change (String.eqb "a_odd" "a_odd_b_even") with false.
    change (String.eqb "a_odd" "a_even_b_odd") with false.
    change (String.eqb "a_odd" "a_odd") with true. cbv iota.
    rewrite range_page_numbers, page_numbers_nil by lia. reflexivity.
  - change (String.eqb "b_even" "alternate") with false.
    change (String.eqb "b_even" "a_odd_b_even") with false.
    change (String.eqb "b_even" "a_even_b_odd") with false.
    change (String.eqb "b_even" "a_odd") with false.
    change (String.eqb "b_even" "b_even") with true. cbv iota.
    rewrite range_page_numbers, page_numbers_nil by lia. reflexivity.
Qed.

Lemma interleave_past_the_end_witness :
  interleave_pages (pages three_pages) [page_n 11; page_n 12] "a_odd_b_even" 4
                   (new_writer pypdf)
  = Ok (Some (new_writer pypdf)).
Proof.
  apply (interleave_past_the_end (pages three_pages) [page_n 11; page_n 12]
           "a_odd_b_even" 4 (new_writer pypdf)).
  - simpl. lia.
  - simpl. tauto.
Defined.

End InterleaveExtras.

Section InterleaveExtras2.

Import InterleaveReference.

Lemma fetch_length A B (plan : list (source * Z)) (ps : list Page) :
  fetch A B plan = Some ps -> length ps = length plan.
Proof.
  revert ps; induction plan as [|r plan IH]; simpl; intros ps.
  - now intros [= <-].
  - destruct (page A B r); [|discriminate].
    destruct (fetch A B plan) as [qs|]; [|discriminate].
    intros [= <-]. simpl. f_equal. now apply IH.
Qed.

Lemma alternate_plan_length (pa pb : Z) (n : nat) :
  forall s,
    Z.to_nat (Z.max pa pb - s + 1) = n ->
    Z.of_nat (length (alternate pa pb s))
    = Z.max 0 (pa - s + 1) + Z.max 0 (pb - s + 1).
Proof.
  induction n as [|n IH]; intros s Hn; unfold alternate.
  - rewrite page_numbers_nil by lia. simpl. lia.
  - rewrite page_numbers_cons by lia. simpl.
    rewrite length_app, length_app, Nat2Z.inj_add, Nat2Z.inj_add.
    fold (alternate pa pb (s + 1)). rewrite IH by lia.
    destruct (Z.leb_spec s pa), (Z.leb_spec s pb); simpl; lia.
Qed.

(** X7. In mode [alternate] with a start page of at least 1 the output
    has, after the pages the writer already holds, exactly the pages of A
    and of B from the start page on: nothing is dropped or repeated,
    however different the two lengths are. *)
Theorem interleave_alternate_page_count (A B : list Page) (start_from : Z)
  (writer : PdfWriter) :
  1 <= start_from ->
  exists w',
    interleave_pages A B "alternate" start_from writer = Ok (Some w')
    /\ length (w_pages w')
       = (length (w_pages writer)
          + length (skipn (Z.to_nat (start_from - 1)) A)
          + length (skipn (Z.to_nat (start_from - 1)) B))%nat.
Proof.
  intros Hs.
  destruct (alternate_loop_plan A B
              (Z.to_nat (Z.max (Z.of_nat (length A)) (Z.of_nat (length B))
                         - (start_from - 1)))
              (start_from - 1) (start_from - 1) (start_from - 1) writer)
    as (ps & Hf & Hl); [lia | reflexivity | now left | now left |].
  exists (add_pages writer ps). split.
  - unfold interleave_pages. simpl. now rewrite Hl.
  - apply fetch_length in Hf.
    pose proof (alternate_plan_length (Z.of_nat (length A)) (Z.of_nat (length B))
                  _ (start_from - 1 + 1) eq_refl) as Hlen.
    simpl. rewrite length_app, !length_skipn. lia.
Qed.

Lemma interleave_alternate_page_count_witness :
  exists w',
    interleave_pages (pages three_pages) [page_n 11] "alternate" 2 (new_writer pypdf)
    = Ok (Some w')
    /\ length (w_pages w')
       = (length (w_pages (new_writer pypdf))
          + length (skipn (Z.to_nat (2 - 1)) (pages three_pages))
          + length (skipn (Z.to_nat (2 - 1)) [page_n 11]))%nat.
Proof.
  apply (interleave_alternate_page_count (pages three_pages) [page_n 11] 2
           (new_writer pypdf)).
  lia.
Defined.

Lemma index_last {X} (l : list X) :
  l <> [] ->
  exists x, nth_error l (length l - 1) = Some x /\ index l (-1) = Ok x.
Proof.
  intros Hne. assert (0 < length l)%nat as Hlen
    by (destruct l; [contradiction | simpl; lia]).
  unfold index. simpl.
  destruct (Z.leb_spec 0 (-1 + Z.of_nat (length l))); [|lia].
  destruct (Z.ltb_spec (-1 + Z.of_nat (length l)) (Z.of_nat (length l))); [|lia].
  simpl. replace (Z.to_nat (-1 + Z.of_nat (length l))) with (length l - 1)%nat by lia.
  destruct (nth_error l (length l - 1)) as [x|] eqn:Hx; [now exists x|].
  apply List.nth_error_None in Hx. lia.
Qed.

(** X8. A start page of 0 is not rejected: in mode [alternate] the loop
    starts at index -1, which Python reads as the last page, so the output
    is the last page of A, the last page of B, and then everything a start
    page of 1 gives. *)
Theorem interleave_alternate_from_zero (A B : list Page) (writer : PdfWriter) :
  A <> [] -> B <> [] ->
  exists last_a last_b ps,
    nth_error A (length A - 1) = Some last_a
    /\ nth_error B (length B - 1) = Some last_b
    /\ interleave_pages A B "alternate" 1 writer = Ok (Some (add_pages writer ps))
    /\ interleave_pages A B "alternate" 0 writer
       = Ok (Some (add_pages writer (last_a :: last_b :: ps))).
Proof.
  intros HA HB.
  destruct (index_last A HA) as (la & Hna & Hia).
  destruct (index_last B HB) as (lb & Hnb & Hib).
  set (n := Z.to_nat (Z.max (Z.of_nat (length A)) (Z.of_nat (length B)) - 0)).
  destruct (alternate_loop_plan A B n 0 0 0 writer) as (ps & Hf & Hl);
    [lia | reflexivity | now left | now left |].
  destruct (alternate_loop_plan A B n 0 0 0 (add_page (add_page writer la) lb))
    as (ps' & Hf' & Hl'); [lia | reflexivity | now left | now left |].
  assert (ps' = ps) as -> by congruence.
  exists la, lb, ps. repeat split; try assumption.
  - unfold interleave_pages.
    change (String.eqb "alternate" "alternate") with true. cbv iota zeta.
    change (1 - 1) with 0. now rewrite Hl.
  - unfold interleave_pages.
    change (String.eqb "alternate" "alternate") with true. cbv iota zeta.
    change (0 - 1) with (-1). rewrite alternate_loop_eq.
    assert (0 < length A)%nat by (destruct A; [contradiction | simpl; lia]).
    assert (0 < length B)%nat by (destruct B; [contradiction | simpl; lia]).
    destruct (Z.ltb_spec (-1) (Z.of_nat (length A))); [|lia].
    destruct (Z.ltb_spec (-1) (Z.of_nat (length B))); [|lia].
    cbn [orb]. unfold alternate_body.
    destruct (Z.ltb_spec (-1) (Z.of_nat (length A))); [|lia].
    destruct (Z.ltb_spec (-1) (Z.of_nat (length B))); [|lia].
    rewrite Hia. cbn [mbind result_bind bind]. rewrite Hib.
    cbn [mbind result_bind bind]. change (-1 + 1) with 0.
    rewrite Hl'. simpl. do 2 f_equal.
    unfold add_pages, add_page. simpl. f_equal.
    now rewrite <- !app_assoc.
Qed.

Lemma interleave_alternate_from_zero_witness :
  exists last_a last_b ps,
    nth_error (pages three_pages) (length (pages three_pages) - 1) = Some last_a
    /\ nth_error [page_n 11; page_n 12] (length [page_n 11; page_n 12] - 1)
       = Some last_b
    /\ interleave_pages (pages three_pages) [page_n 11; page_n 12] "alternate" 1
                        (new_writer pypdf)
       = Ok (Some (add_pages (new_writer pypdf) ps))
    /\ interleave_pages (pages three_pages) [page_n 11; page_n 12] "alternate" 0
                        (new_writer pypdf)
       = Ok (Some (add_pages (new_writer pypdf) (last_a :: last_b :: ps))).
Proof.
  apply (interleave_alternate_from_zero (pages three_pages) [page_n 11; page_n 12]
           (new_writer pypdf)); discriminate.
Defined.

End InterleaveExtras2.

(** ** Opening, sanitizing and finishing files *)

Lemma safe_open_reader_cases (path : string) (w : world) :
  let r := safe_open_reader path w in
  files r.1 = files w
  /\ ((exists d, r.2 = Ok (Some d) /\ shown r.1 = shown w
                 /\ files w !! path = Some (PdfFile d))
      \/ (r.2 = Ok None /\ shown r.1 = shown w ++ [showerror])).
Proof.
  destruct w as [fs fl ofl sh]. unfold safe_open_reader. step.
  destruct fl as [|[] fl]; step.
  2:{ split; [reflexivity|]. now right. }
  all: destruct (fs !! path) as [[d|]|] eqn:Hp; step;
    (split; [reflexivity|]); try (now right); left; now exists d.
Qed.

(** X9. [safe_open_reader] never raises and never changes a file: either
    it returns the document stored at the path and shows nothing, or it
    returns [None] after exactly one error box. *)
Theorem safe_open_reader_never_raises (path : string) (w : world) :
  let r := safe_open_reader path w in
  files r.1 = files w
  /\ ((exists d, r.2 = Ok (Some d) /\ shown r.1 = shown w
                 /\ files w !! path = Some (PdfFile d))
      \/ (r.2 = Ok None /\ shown r.1 = shown w ++ [showerror])).
Proof. exact (safe_open_reader_cases path w). Qed.

Lemma safe_open_reader_ok (path : string) (w : world) (d : Document) :
  faults w = [] -> files w !! path = Some (PdfFile d) ->
  safe_open_reader path w = (w, Ok (Some d)).
Proof.
  destruct w as [fs fl ofl sh]. simpl. intros -> Hp. unfold safe_open_reader. step.
  rewrite Hp. reflexivity.
Qed.

Lemma safe_open_reader_fails (path : string) (w : world) :
  faults w = [] ->
  (forall d, files w !! path <> Some (PdfFile d)) ->
  safe_open_reader path w
  = ({| files := files w; faults := []; os_faults := os_faults w;
        shown := shown w ++ [showerror] |}, Ok None).
Proof.
  destruct w as [fs fl ofl sh]. simpl. intros -> Hp. unfold safe_open_reader. step.
  destruct (fs !! path) as [[d|]|]; step; try reflexivity.
  now destruct (Hp d).
Qed.

(** Whatever happens, the sanitizer leaves every path but its destination
    as it was and shows no message box. *)
Lemma sanitize_touches_only_destination (E : engine) (src dst q : string) (w : world) :
  q <> dst ->
  let out := sanitize_pdf_no_metadata E src dst w in
  files out.1 !! q = files w !! q /\ shown out.1 = shown w.
Proof.
  intros Hq out.
  destruct (sanitize_outcomes E src dst w) as [Hsh Hcases]. fold out in Hsh, Hcases.
  split; [|exact Hsh].
  destruct Hcases as [(e & _ & [-> | ->])|(_ & d & _ & ->)];
    rewrite ?lookup_insert_ne by congruence; reflexivity.
Qed.

Lemma sanitize_touches_only_destination_witness :
  "a.pdf"%string <> "clean.pdf"%string
  /\ files (sanitize_pdf_no_metadata pypdf "a.pdf" "clean.pdf" (disk [false; false; true])).1
       !! "a.pdf"%string
     = files (disk [false; false; true]) !! "a.pdf"%string
  /\ shown (sanitize_pdf_no_metadata pypdf "a.pdf" "clean.pdf" (disk [false; false; true])).1
     = shown (disk [false; false; true]).
Proof.
  assert ("a.pdf"%string <> "clean.pdf"%string) as Hne by discriminate.
  split; [exact Hne|].
  apply (sanitize_touches_only_destination pypdf "a.pdf" "clean.pdf" "a.pdf"
           (disk [false; false; true]) Hne).
Defined.

(** X10. When the source path holds no readable PDF, the sanitizer raises
    before it opens the destination: no file is created or changed. *)
Theorem sanitize_unreadable_source (E : engine) (src dst : string) (w : world) :
  (forall d, files w !! src <> Some (PdfFile d)) ->
  let out := sanitize_pdf_no_metadata E src dst w in
  (exists e, out.2 = Raise e) /\ files out.1 = files w.
Proof.
  intros Hsrc. destruct w as [fs fl ofl sh]. simpl in Hsrc. run.
  destruct fl as [|[] fl]; run; try (split; [eexists|]; reflexivity).
  all: destruct (fs !! src) as [[d|]|]; run;
    try (split; [eexists|]; reflexivity); now destruct (Hsrc d).
Qed.

Lemma sanitize_unreadable_source_witness :
  (forall d, files (disk []) !! "missing.pdf"%string <> Some (PdfFile d))
  /\ (exists e, (sanitize_pdf_no_metadata pypdf "missing.pdf" "a.pdf" (disk [])).2 = Raise e)
  /\ files (sanitize_pdf_no_metadata pypdf "missing.pdf" "a.pdf" (disk [])).1
     = files (disk []).
Proof.
  assert (forall d, files (disk []) !! "missing.pdf"%string <> Some (PdfFile d)) as Hm
    by (intros d; discriminate).
  split; [exact Hm|].
  apply (sanitize_unreadable_source pypdf "missing.pdf" "a.pdf" (disk []) Hm).
Defined.

(** A writer that was created empty and only had pages added. *)
Lemma built_writer (E : engine) (ps : list Page) (w : PdfWriter) :
  w_info w = fresh_info E -> w_xmp w = None ->
  w_info (fold_left add_page ps w) = fresh_info E
  /\ w_xmp (fold_left add_page ps w) = None
  /\ w_pages (fold_left add_page ps w) = w_pages w ++ ps.
Proof. intros Hi Hx. rewrite fold_add_page. simpl. auto. Qed.

Lemma sanitize_fixed_point (E : engine) (w : PdfWriter) :
  w_info w = fresh_info E -> w_xmp w = None ->
  written (sanitize_writer E (written w)) = written w.
Proof.
  intros Hi Hx. rewrite sanitize_writer_written. unfold written. simpl.
  now rewrite Hi, Hx.
Qed.

(** The first pass and the sanitize block of an assembly operation, when
    no read, write or [os] call fails and the working name differs from the
    output name. *)
Lemma write_then_sanitize (E : engine) (out_path : string) (writer : PdfWriter)
  (w : world) :
  let tmp2 := replace ".pdf" ".__tmp__.pdf" out_path in
  faults w = [] -> os_faults w = [] -> tmp2 <> out_path ->
  (write_pdf out_path writer;; sanitize_output E out_path) w
  = ({| files := delete tmp2
                   (<[out_path := PdfFile (written (sanitize_writer E (written writer)))]>
                      (files w));
        faults := []; os_faults := []; shown := shown w |}, Ok tt).
Proof.
  intros tmp2 Hf Hos Hne. destruct w as [fs fl ofl sh]. simpl in Hf, Hos. subst fl ofl.
  unfold sanitize_output. fold tmp2. step.
  rewrite lookup_insert_eq. step.
  erewrite sanitize_no_faults;
    [|simpl; apply lookup_insert_eq | reflexivity].
  step. rewrite lookup_insert_ne, lookup_insert_eq by congruence. step.
  do 2 f_equal. apply map_eq. intros k.
  destruct (decide (k = tmp2)) as [->|Hk1]; [now rewrite !lookup_delete_eq|].
  rewrite !lookup_delete_ne by congruence.
  destruct (decide (k = out_path)) as [->|Hk2]; [now rewrite !lookup_insert_eq|].
  rewrite !lookup_insert_ne, lookup_delete_ne, !lookup_insert_ne by congruence.
  reflexivity.
Qed.

(** X11. The sanitize block that ends every assembly operation changes
    nothing observable when nothing fails (no read or write of a PDF and no
    [os.replace] or [os.remove]): the file the first pass wrote (pages added
    to a new writer) is at the output path again afterwards, with the same
    pages, information dictionary and no XMP, provided the working name
    differs from the output name. *)
Theorem sanitize_output_identity (E : engine) (out_path : string) (ps : list Page)
  (w : world) :
  let first_pass := written (fold_left add_page ps (new_writer E)) in
  faults w = [] -> os_faults w = [] ->
  replace ".pdf" ".__tmp__.pdf" out_path <> out_path ->
  files w !! out_path = Some (PdfFile first_pass) ->
  let done := sanitize_output E out_path w in
  done.2 = Ok tt /\ files done.1 !! out_path = Some (PdfFile first_pass).
Proof.
  intros first_pass Hf Hos Hne Hout.
  destruct w as [fs fl ofl sh]. simpl in Hf, Hos, Hout. subst fl ofl.
  unfold sanitize_output. step. rewrite Hout. step.
  erewrite sanitize_no_faults;
    [|simpl; apply lookup_insert_eq | reflexivity].
  step. rewrite lookup_insert_ne, lookup_insert_eq by congruence. step.
  split; [reflexivity|].
  rewrite lookup_delete_ne, lookup_insert_eq by congruence.
  destruct (built_writer E ps (new_writer E) eq_refl eq_refl) as (Hi & Hx & _).
  subst first_pass. now rewrite sanitize_fixed_point.
Qed.

Lemma sanitize_output_identity_witness :
  let first_pass := written (fold_left add_page (pages three_pages) (new_writer pypdf)) in
  let w := {| files := {[ "out.pdf"%string := PdfFile first_pass ]};
              faults := []; os_faults := []; shown := [] |} in
  let done := sanitize_output pypdf "out.pdf" w in
  done.2 = Ok tt /\ files done.1 !! "out.pdf"%string = Some (PdfFile first_pass).
Proof.
  intros first_pass w.
  apply (sanitize_output_identity pypdf "out.pdf" (pages three_pages) w);
    try reflexivity; discriminate.
Defined.

(** ** The assembly operations from end to end *)

Lemma merge_sources_readable (E : engine) (items : list string) (docs : list Document)
  (writer : PdfWriter) (w : world) :
  faults w = [] ->
  Forall2 (fun path d => files w !! path = Some (PdfFile d)) items docs ->
  merge_sources items writer w
  = (w, Ok (Some (fold_left add_page (concat (map pages docs)) writer))).
Proof.
  intros Hf Hall. revert writer.
  induction Hall as [|path d items docs Hp _ IH]; intros writer; [reflexivity|].
  cbn [merge_sources]. rewrite M_bind_eq, (safe_open_reader_ok path w d Hf Hp).
  rewrite IH. simpl. now rewrite fold_left_app.
Qed.

(** X12. [merge_serial] of readable sources, when nothing fails (no read
    or write of a PDF, no [os.replace] or [os.remove]) and the output name
    contains the extension the working name is built from:
    the output path ends up holding the pages of all sources, in list
    order and each source's pages in their own order, with the information
    dictionary of a new writer and no XMP; one info box is shown. *)
Theorem merge_serial_concatenates (E : engine) (items : list string)
  (docs : list Document) (out_path : string) (w : world) :
  items <> [] ->
  is_empty out_path = false ->
  replace ".pdf" ".__tmp__.pdf" out_path <> out_path ->
  faults w = [] -> os_faults w = [] ->
  Forall2 (fun path d => files w !! path = Some (PdfFile d)) items docs ->
  let done := merge_serial E items out_path w in
  done.2 = Ok tt
  /\ shown done.1 = shown w ++ [showinfo]
  /\ files done.1 !! out_path
     = Some (PdfFile {| pages := concat (map pages docs);
                        info := fresh_info E; xmp := None |}).
Proof.
  intros Hitems Hout Hne Hf Hos Hall. unfold merge_serial.
  destruct items as [|i items]; [contradiction|]. rewrite Hout.
  unfold try_except. rewrite M_bind_eq, (merge_sources_readable E _ docs _ w Hf Hall).
  set (writer := fold_left add_page (concat (map pages docs)) (new_writer E)).
  pose proof (write_then_sanitize E out_path writer w Hf Hos Hne) as Hfin.
  rewrite M_bind_eq in Hfin. rewrite M_bind_eq.
  destruct (write_pdf out_path writer w) as [w1 [[]|e]]; [|discriminate].
  rewrite M_bind_eq, Hfin. simpl.
  split; [reflexivity|]. split; [reflexivity|].
  rewrite lookup_delete_ne, lookup_insert_eq by congruence.
  rewrite sanitize_writer_written. subst writer.
  destruct (built_writer E (concat (map pages docs)) (new_writer E) eq_refl eq_refl)
    as (_ & _ & Hp).
  unfold written. simpl. now rewrite Hp.
Qed.

Lemma merge_serial_concatenates_witness :
  let done := merge_serial pypdf ["plain.pdf"; "a.pdf"]%string "out.pdf" (disk []) in
  done.2 = Ok tt
  /\ shown done.1 = shown (disk []) ++ [showinfo]
  /\ files done.1 !! "out.pdf"%string
     = Some (PdfFile {| pages := concat (map pages [plain_doc; three_pages]);
                        info := fresh_info pypdf; xmp := None |}).
Proof.
  apply (merge_serial_concatenates pypdf ["plain.pdf"; "a.pdf"]%string
           [plain_doc; three_pages] "out.pdf" (disk []));
    try reflexivity; try discriminate.
  repeat constructor.
Defined.

Lemma merge_sources_unreadable (E : engine) (items : list string) (writer : PdfWriter)
  (w : world) :
  faults w = [] ->
  Exists (fun path => forall d, files w !! path <> Some (PdfFile d)) items ->
  merge_sources items writer w
  = ({| files := files w; faults := []; os_faults := os_faults w;
        shown := shown w ++ [showerror] |}, Ok None).
Proof.
  intros Hf Hex. revert writer.
  induction items as [|path items IH]; intros writer; [inversion Hex|].
  cbn [merge_sources]. rewrite M_bind_eq.
  destruct (files w !! path) as [[d|]|] eqn:Hp.
  - rewrite (safe_open_reader_ok path w d Hf Hp). apply IH.
    inversion Hex as [? ? Hbad|]; [now destruct (Hbad d) | assumption].
  - rewrite safe_open_reader_fails; [reflexivity | exact Hf |].
    intros d. rewrite Hp. discriminate.
  - rewrite safe_open_reader_fails; [reflexivity | exact Hf |].
    intros d. rewrite Hp. discriminate.
Qed.

(** X13. One unreadable source stops [merge_serial] before anything is
    written: no file is created or changed, even when earlier sources
    were read, and the only message is the error box of the failed open. *)
Theorem merge_serial_unreadable_source (E : engine) (items : list string)
  (out_path : string) (w : world) :
  is_empty out_path = false ->
  faults w = [] ->
  Exists (fun path => forall d, files w !! path <> Some (PdfFile d)) items ->
  let done := merge_serial E items out_path w in
  done.2 = Ok tt
  /\ files done.1 = files w
  /\ shown done.1 = shown w ++ [showerror].
Proof.
  intros Hout Hf Hex. unfold merge_serial.
  destruct items as [|i items]; [inversion Hex|]. rewrite Hout.
  unfold try_except. rewrite M_bind_eq, (merge_sources_unreadable E _ _ w Hf Hex).
  simpl. repeat split.
Qed.

Lemma merge_serial_unreadable_source_witness :
  let done := merge_serial pypdf ["a.pdf"; "missing.pdf"]%string "out.pdf" (disk []) in
  done.2 = Ok tt
  /\ files done.1 = files (disk [])
  /\ shown done.1 = shown (disk []) ++ [showerror].
Proof.
  apply (merge_serial_unreadable_source pypdf ["a.pdf"; "missing.pdf"]%string
           "out.pdf" (disk [])); try reflexivity.
  apply List.Exists_cons_tl, List.Exists_cons_hd. intros d. discriminate.
Defined.

(** [merge_serial] never lets an exception out. *)
Lemma merge_serial_returns (E : engine) (items : list string) (out_path : string)
  (w : world) :
  (merge_serial E items out_path w).2 = Ok tt.
Proof.
  unfold merge_serial. destruct items as [|i items]; [reflexivity|].
  destruct (is_empty out_path); [reflexivity|].
  unfold try_except.
  match goal with |- (match ?b with _ => _ end).2 = _ => destruct b as [w1 [[]|e]] end;
    reflexivity.
Qed.

(** ** Extracting and deleting pages *)

Section ExtractDelete.

Import InterleaveReference.

Lemma index_nth (l : list Page) (i : Z) :
  0 <= i < Z.of_nat (length l) -> index l i = Ok (nth (Z.to_nat i) l (page_n 0)).
Proof.
  intros Hi. destruct (index_in_range l i Hi) as (x & Hn & ->).
  f_equal. symmetry. now apply List.nth_error_nth.
Qed.

Lemma extract_loop (reader : Document) (idxs : list Z) (w : PdfWriter) :
  Forall (fun i => 0 <= i < Z.of_nat (length (pages reader))) idxs ->
  for_each (extract_body reader) idxs w
  = Ok (add_pages w (pages_at (pages reader) idxs)).
Proof.
  intros H. revert w. induction H as [|i idxs Hi _ IH]; intros w;
    cbn [for_each pages_at map].
  - now rewrite add_pages_nil.
  - assert (extract_body reader w i
            = Ok (add_page w (nth (Z.to_nat i) (pages reader) (page_n 0)))) as ->
      by (unfold extract_body; now rewrite index_nth by exact Hi).
    cbn [mbind result_bind bind]. rewrite IH.
    unfold add_page, add_pages, pages_at. simpl. now rewrite <- app_assoc.
Qed.

Lemma delete_loop (reader : Document) (to_delete : gset Z) (numbers : list Z)
  (w : PdfWriter) :
  Forall (fun i => 0 <= i < Z.of_nat (length (pages reader))) numbers ->
  for_each (delete_body reader to_delete) numbers w
  = Ok (add_pages w (pages_at (pages reader)
                       (List.filter (fun i => negb (bool_decide (i ∈ to_delete)))
                                    numbers))).
Proof.
  intros H. revert w.
  induction H as [|i numbers Hi _ IH]; intros w; cbn [for_each List.filter].
  - cbn [pages_at map]. now rewrite add_pages_nil.
  - destruct (bool_decide (i ∈ to_delete)) eqn:Hdel; cbn [negb].
    + assert (delete_body reader to_delete w i = Ok w) as ->
        by (unfold delete_body; now rewrite Hdel).
      cbn [mbind result_bind bind]. apply IH.
    + assert (delete_body reader to_delete w i
              = Ok (add_page w (nth (Z.to_nat i) (pages reader) (page_n 0)))) as ->
        by (unfold delete_body; rewrite Hdel; now rewrite index_nth by exact Hi).
      cbn [mbind result_bind bind pages_at map]. rewrite IH.
      unfold add_page, add_pages, pages_at. simpl. now rewrite <- app_assoc.
Qed.

Lemma map_nth_seq (l : list Page) :
  map (fun k => nth k l (page_n 0)) (seq 0 (length l)) = l.
Proof.
  induction l as [|x l IH]; [reflexivity|].
  cbn [length]. rewrite <- cons_seq. cbn [map nth]. f_equal.
  rewrite <- seq_shift, map_map. exact IH.
Qed.

Lemma pages_by_number (l : list Page) :
  pages_at l (page_numbers 0 (Z.of_nat (length l) - 1)) = l.
Proof.
  unfold pages_at, page_numbers. rewrite map_map.
  replace (Z.to_nat (Z.of_nat (length l) - 1 - 0 + 1)) with (length l) by lia.
  etransitivity; [|apply map_nth_seq]. apply map_ext.
  intros k. f_equal. lia.
Qed.

Lemma page_numbers_NoDup (first last : Z) : List.NoDup (page_numbers first last).
Proof.
  unfold page_numbers. apply List.NoDup_map_NoDup_ForallPairs; [|apply List.seq_NoDup].
  intros x y _ _ Hxy. lia.
Qed.

Lemma page_numbers_In (first last i : Z) :
  In i (page_numbers first last) <-> first <= i <= last.
Proof.
  unfold page_numbers. rewrite List.in_map_iff. split.
  - intros (k & <- & Hk). apply List.in_seq in Hk. lia.
  - intros Hi. exists (Z.to_nat (i - first)). split; [lia|].
    apply List.in_seq. lia.
Qed.

(** Chosen indices and the remaining ones make up all of them. *)
Lemma chosen_and_rest (idxs : list Z) (total : Z) :
  List.NoDup idxs ->
  Forall (fun i => 0 <= i < total) idxs ->
  Permutation
    (idxs ++ List.filter (fun i => negb (bool_decide (i ∈ (list_to_set idxs : gset Z))))
                         (page_numbers 0 (total - 1)))
    (page_numbers 0 (total - 1)).
Proof.
  intros Hnd Hb. apply list.NoDup_Permutation.
  - apply NoDup_ListNoDup, List.NoDup_app; [exact Hnd | |].
    + apply List.NoDup_filter, page_numbers_NoDup.
    + intros i Hi Hf. apply List.filter_In in Hf as [_ Hf].
      apply negb_true_iff, bool_decide_eq_false in Hf. apply Hf.
      apply elem_of_list_to_set, list_elem_of_In. exact Hi.
  - apply NoDup_ListNoDup, page_numbers_NoDup.
  - intros i. rewrite !list_elem_of_In.
    rewrite List.in_app_iff, List.filter_In, page_numbers_In. split.
    + intros [Hi|[Hi _]]; [|exact Hi].
      rewrite List.Forall_forall in Hb. specialize (Hb i Hi). lia.
    + intros Hi. destruct (decide (i ∈ (list_to_set idxs : gset Z))) as [Hin|Hout].
      * left. apply list_elem_of_In. now apply elem_of_list_to_set in Hin.
      * right. split; [exact Hi|]. now apply negb_true_iff, bool_decide_eq_false.
Qed.

Lemma selected_reader_ok (items : list string) (chosen : Z) (path : string)
  (reader : Document) (w : world) :
  faults w = [] ->
  index items chosen = Ok path ->
  files w !! path = Some (PdfFile reader) ->
  selected_reader items [chosen] w = (w, Ok (Some reader)).
Proof.
  intros Hf Hi Hp. unfold selected_reader.
  destruct items as [|i items]; [destruct chosen; discriminate|].
  rewrite M_bind_eq. unfold lift at 1. rewrite Hi.
  now apply safe_open_reader_ok.
Qed.

(** The tail shared by the assembly operations: first pass, sanitize
    block, message. *)
Lemma assembled (E : engine) (out_path : string) (ps : list Page) (w : world) :
  faults w = [] -> os_faults w = [] ->
  replace ".pdf" ".__tmp__.pdf" out_path <> out_path ->
  let done := (write_pdf out_path (add_pages (new_writer E) ps);;
               sanitize_output E out_path;;
               messagebox showinfo) w in
  done.2 = Ok tt
  /\ shown done.1 = shown w ++ [showinfo]
  /\ files done.1 !! out_path
     = Some (PdfFile {| pages := ps; info := fresh_info E; xmp := None |}).
Proof.
  intros Hf Hos Hne.
  pose proof (write_then_sanitize E out_path (add_pages (new_writer E) ps) w Hf Hos Hne)
    as Hfin.
  rewrite M_bind_eq in Hfin. cbv zeta. rewrite M_bind_eq.
  destruct (write_pdf out_path (add_pages (new_writer E) ps) w) as [w1 [[]|e]];
    [|discriminate].
  rewrite M_bind_eq, Hfin. simpl.
  split; [reflexivity|]. split; [reflexivity|].
  rewrite lookup_delete_ne, lookup_insert_eq by congruence.
  now rewrite sanitize_writer_written.
Qed.

Lemma extract_pages_dialog_run (E : engine) (items : list string) (chosen : Z)
  (path ranges out_path : string) (reader : Document) (w : world) :
  faults w = [] ->
  index items chosen = Ok path ->
  files w !! path = Some (PdfFile reader) ->
  is_empty out_path = false ->
  Reference.parse ranges (Z.of_nat (length (pages reader))) <> [] ->
  extract_pages_dialog E items [chosen] (Some ranges) out_path w
  = (write_pdf out_path
       (add_pages (new_writer E)
          (pages_at (pages reader)
             (Reference.parse ranges (Z.of_nat (length (pages reader))))));;
     sanitize_output E out_path;;
     messagebox showinfo) w.
Proof.
  intros Hf Hi Hp Hout Hsome. unfold extract_pages_dialog.
  rewrite M_bind_eq, (selected_reader_ok items chosen path reader w Hf Hi Hp).
  rewrite M_bind_eq. unfold lift at 1. rewrite parse_page_ranges_reference.
  pose proof (parse_in_bounds ranges (Z.of_nat (length (pages reader)))) as Hb.
  destruct (Reference.parse ranges (Z.of_nat (length (pages reader))))
    as [|i idxs] eqn:Hparse; [contradiction|].
  rewrite Hout, M_bind_eq. unfold lift at 1.
  now rewrite (extract_loop reader (i :: idxs) (new_writer E) Hb).
Qed.

Lemma delete_pages_dialog_run (E : engine) (items : list string) (chosen : Z)
  (path ranges out_path : string) (reader : Document) (w : world) :
  faults w = [] ->
  index items chosen = Ok path ->
  files w !! path = Some (PdfFile reader) ->
  is_empty out_path = false ->
  Reference.parse ranges (Z.of_nat (length (pages reader))) <> [] ->
  delete_pages_dialog E items [chosen] (Some ranges) out_path w
  = (write_pdf out_path
       (add_pages (new_writer E)
          (pages_at (pages reader)
             (List.filter
                (fun i => negb (bool_decide
                   (i ∈ (list_to_set
                           (Reference.parse ranges (Z.of_nat (length (pages reader))))
                         : gset Z))))
                (page_numbers 0 (Z.of_nat (length (pages reader)) - 1)))));;
     sanitize_output E out_path;;
     messagebox showinfo) w.
Proof.
  intros Hf Hi Hp Hout Hsome. unfold delete_pages_dialog.
  rewrite M_bind_eq, (selected_reader_ok items chosen path reader w Hf Hi Hp).
  rewrite M_bind_eq. unfold lift at 1. rewrite parse_page_ranges_reference.
  cbv zeta.
  set (total := Z.of_nat (length (pages reader))) in *.
  set (idxs := Reference.parse ranges total) in *.
  rewrite bool_decide_false.
  2:{ destruct idxs as [|i idxs]; [contradiction|]. simpl. set_solver. }
  rewrite Hout, M_bind_eq. unfold lift at 1.
  assert (range 0 total 1 = Ok (page_numbers 0 (total - 1))) as ->.
  { rewrite <- range_page_numbers. f_equal. lia. }
  cbn [mbind result_bind bind]. rewrite delete_loop; [reflexivity|].
  apply List.Forall_forall. intros i Hin. apply page_numbers_In in Hin.
  subst total. lia.
Qed.

Lemma pages_at_found (doc : list Page) (idxs : list Z) :
  Forall (fun i => 0 <= i < Z.of_nat (length doc)) idxs ->
  Forall2 (fun i p => 0 <= i /\ nth_error doc (Z.to_nat i) = Some p)
          idxs (pages_at doc idxs).
Proof.
  induction 1 as [|i idxs Hi _ IH]; constructor; [|exact IH].
  split; [lia|]. apply List.nth_error_nth'. lia.
Qed.

(** X14. [extract_pages_dialog] with one selected file that is a readable
    PDF, an expression that selects at least one page, a non-empty output
    name that contains [.pdf] (so that the [.__tmp__.pdf] working name
    differs from it), and no failure (no read or write of a PDF, no
    [os.replace] or [os.remove] fails): the output path ends up holding
    exactly the pages at the parsed indices, in the order the parser gives
    them (the order typed, first occurrence of each), with the information
    dictionary of a new writer and no XMP, and one info box is shown. No
    index is ever out of range. *)
Theorem extract_pages_dialog_output (E : engine) (items : list string) (chosen : Z)
  (path ranges out_path : string) (reader : Document) (idxs : list Z) (w : world) :
  faults w = [] -> os_faults w = [] ->
  index items chosen = Ok path ->
  files w !! path = Some (PdfFile reader) ->
  V1_2.parse_page_ranges ranges (Z.of_nat (length (pages reader))) = Ok idxs ->
  idxs <> [] ->
  is_empty out_path = false ->
  replace ".pdf" ".__tmp__.pdf" out_path <> out_path ->
  let done := extract_pages_dialog E items [chosen] (Some ranges) out_path w in
  done.2 = Ok tt
  /\ shown done.1 = shown w ++ [showinfo]
  /\ exists ps,
       files done.1 !! out_path
       = Some (PdfFile {| pages := ps; info := fresh_info E; xmp := None |})
       /\ Forall2 (fun i p => 0 <= i /\ nth_error (pages reader) (Z.to_nat i) = Some p)
                  idxs ps.
Proof.
  intros Hf Hos Hi Hp Hparse Hsome Hout Hne. cbv zeta.
  rewrite parse_page_ranges_reference in Hparse. injection Hparse as Hparse.
  rewrite <- Hparse in Hsome.
  rewrite (extract_pages_dialog_run E items chosen path ranges out_path reader w)
    by assumption.
  rewrite Hparse.
  destruct (assembled E out_path (pages_at (pages reader) idxs) w Hf Hos Hne)
    as (Hr & Hs & Hfile).
  split; [exact Hr|]. split; [exact Hs|].
  eexists. split; [exact Hfile|].
  apply pages_at_found. rewrite <- Hparse. apply parse_in_bounds.
Qed.

Lemma extract_pages_dialog_output_witness :
  let done := extract_pages_dialog pypdf ["plain.pdf"; "a.pdf"]%string [1]
                (Some "3,1-2,3"%string) "out.pdf" (disk []) in
  done.2 = Ok tt
  /\ shown done.1 = shown (disk []) ++ [showinfo]
  /\ exists ps,
       files done.1 !! "out.pdf"%string
       = Some (PdfFile {| pages := ps; info := fresh_info pypdf; xmp := None |})
       /\ Forall2 (fun i p => 0 <= i /\ nth_error (pages three_pages) (Z.to_nat i) = Some p)
                  [2; 0; 1] ps.
Proof.
  apply (extract_pages_dialog_output pypdf ["plain.pdf"; "a.pdf"]%string 1 "a.pdf"
           "3,1-2,3" "out.pdf" three_pages [2; 0; 1] (disk []));
    try reflexivity; discriminate.
Defined.

(** X15. Extracting and deleting with the same expression split the
    document. With one selected file that is a readable PDF, an expression
    that selects at least one page, two non-empty output names that each
    contain [.pdf] (so that the [.__tmp__.pdf] working name differs from
    the output name), and no failure (no read or write of a PDF, no
    [os.replace] or [os.remove] fails): the pages of the extracted file
    together with the pages of the file left after deletion are the pages
    of the source, each page once (the deletion keeps document order, the
    extraction the order of the expression). *)
Theorem extract_and_delete_partition (E : engine) (items : list string) (chosen : Z)
  (path ranges out_e out_d : string) (reader : Document) (idxs : list Z) (w : world) :
  faults w = [] -> os_faults w = [] ->
  index items chosen = Ok path ->
  files w !! path = Some (PdfFile reader) ->
  V1_2.parse_page_ranges ranges (Z.of_nat (length (pages reader))) = Ok idxs ->
  idxs <> [] ->
  is_empty out_e = false ->
  is_empty out_d = false ->
  replace ".pdf" ".__tmp__.pdf" out_e <> out_e ->
  replace ".pdf" ".__tmp__.pdf" out_d <> out_d ->
  exists extracted kept,
    files (extract_pages_dialog E items [chosen] (Some ranges) out_e w).1 !! out_e
    = Some (PdfFile extracted)
    /\ files (delete_pages_dialog E items [chosen] (Some ranges) out_d w).1 !! out_d
       = Some (PdfFile kept)
    /\ Permutation (pages extracted ++ pages kept) (pages reader).
Proof.
  intros Hf Hos Hi Hp Hparse Hsome Houte Houtd Hnee Hned.
  rewrite parse_page_ranges_reference in Hparse. injection Hparse as Hparse.
  rewrite <- Hparse in Hsome.
  rewrite (extract_pages_dialog_run E items chosen path ranges out_e reader w)
    by assumption.
  rewrite (delete_pages_dialog_run E items chosen path ranges out_d reader w)
    by assumption.
  set (total := Z.of_nat (length (pages reader))) in *.
  rewrite Hparse. clear Hsome.
  destruct (assembled E out_e (pages_at (pages reader) idxs) w Hf Hos Hnee)
    as (_ & _ & He).
  destruct (assembled E out_d
              (pages_at (pages reader)
                 (List.filter
                    (fun i => negb (bool_decide (i ∈ (list_to_set idxs : gset Z))))
                    (page_numbers 0 (total - 1)))) w Hf Hos Hned)
    as (_ & _ & Hd).
  eexists _, _. split; [exact He|]. split; [exact Hd|].
  cbn [pages]. unfold pages_at. rewrite <- map_app.
  etransitivity; [|rewrite <- (pages_by_number (pages reader)); reflexivity].
  unfold pages_at. apply Permutation_map. fold total.
  rewrite <- Hparse.
  apply chosen_and_rest; [apply first_seen_NoDup | apply parse_in_bounds].
Qed.

Lemma extract_and_delete_partition_witness :
  exists extracted kept,
    files (extract_pages_dialog pypdf ["a.pdf"]%string [0] (Some "3,1"%string)
             "e.pdf" (disk [])).1 !! "e.pdf"%string
    = Some (PdfFile extracted)
    /\ files (delete_pages_dialog pypdf ["a.pdf"]%string [0] (Some "3,1"%string)
                "d.pdf" (disk [])).1 !! "d.pdf"%string
       = Some (PdfFile kept)
    /\ Permutation (pages extracted ++ pages kept) (pages three_pages).
Proof.
  apply (extract_and_delete_partition pypdf ["a.pdf"]%string 0 "a.pdf" "3,1"
           "e.pdf" "d.pdf" three_pages [2; 0] (disk []));
    try reflexivity; discriminate.
Defined.

(** Without [.pdf] in the output name the working name is the output
    name itself, and the sanitize block then ends by removing the output:
    the dialog reports success and nothing is left at the output path. *)
Lemma extract_upper_case_extension :
  let done := extract_pages_dialog pypdf ["a.pdf"]%string [0] (Some "3,1"%string)
                "e.PDF" (disk []) in
  replace ".pdf" ".__tmp__.pdf" "e.PDF" = "e.PDF"%string
  /\ done.2 = Ok tt
  /\ shown done.1 = [showinfo]
  /\ files done.1 !! "e.PDF"%string = None.
Proof. repeat split. Qed.

End ExtractDelete.

(** ** Message boxes *)

Section Messages.

Lemma quiet_ret {A} (a : A) : quiet (mret a).
Proof. intros w. reflexivity. Qed.

Lemma quiet_raise {A} (e : exn) : quiet (raise e : M A).
Proof. intros w. reflexivity. Qed.

Lemma quiet_lift {A} (r : result A) : quiet (lift r).
Proof. intros w. reflexivity. Qed.

Lemma quiet_bind {A B} (m : M A) (k : A -> M B) :
  quiet m -> (forall a, quiet (k a)) -> quiet (m ≫= k).
Proof.
  intros Hm Hk w. rewrite M_bind_eq. specialize (Hm w).
  destruct (m w) as [w1 [a|e]]; simpl in *; [|exact Hm].
  now rewrite Hk.
Qed.

Lemma quiet_try {A} (body handler : M A) :
  quiet body -> quiet handler -> quiet (try_except body handler).
Proof.
  intros Hb Hh w. unfold try_except. specialize (Hb w).
  destruct (body w) as [w1 [a|e]]; simpl in *; [exact Hb|].
  now rewrite Hh.
Qed.

Lemma quiet_get_files : quiet get_files.
Proof. intros w. reflexivity. Qed.

Lemma quiet_set_files (fs : gmap string file) : quiet (set_files fs).
Proof. intros w. reflexivity. Qed.

Lemma quiet_next_fault : quiet next_fault.
Proof. intros w. unfold next_fault. now destruct (faults w). Qed.

Lemma quiet_os_path_exists (p : string) : quiet (os_path_exists p).
Proof. intros w. reflexivity. Qed.

Lemma quiet_next_os_fault : quiet next_os_fault.
Proof. intros w. unfold next_os_fault. now destruct (os_faults w). Qed.

Lemma quiet_os_replace (src dst : string) : quiet (os_replace src dst).
Proof.
  apply quiet_bind; [apply quiet_get_files|]. intros fs.
  destruct (fs !! src); [|apply quiet_raise].
  apply quiet_bind; [apply quiet_next_os_fault|].
  intros [|]; [apply quiet_raise | apply quiet_set_files].
Qed.

Lemma quiet_os_remove (p : string) : quiet (os_remove p).
Proof.
  apply quiet_bind; [apply quiet_get_files|]. intros fs.
  destruct (fs !! p); [|apply quiet_raise].
  apply quiet_bind; [apply quiet_next_os_fault|].
  intros [|]; [apply quiet_raise | apply quiet_set_files].
Qed.

Lemma quiet_PdfReader (path : string) : quiet (PdfReader path).
Proof.
  apply quiet_bind; [apply quiet_next_fault|]. intros [|]; [apply quiet_raise|].
  apply quiet_bind; [apply quiet_get_files|]. intros fs.
  destruct (fs !! path) as [[d|]|]; [apply quiet_ret | apply quiet_raise..].
Qed.

Lemma quiet_write_pdf (path : string) (writer : PdfWriter) :
  quiet (write_pdf path writer).
Proof.
  apply quiet_bind; [apply quiet_next_fault|]. intros [|]; [apply quiet_raise|].
  apply quiet_bind; [apply quiet_get_files|]. intros fs.
  apply quiet_bind; [apply quiet_set_files|]. intros _.
  apply quiet_bind; [apply quiet_next_fault|]. intros [|]; [apply quiet_raise|].
  apply quiet_bind; [apply quiet_get_files|]. intros fs'. apply quiet_set_files.
Qed.

Lemma quiet_sanitize (E : engine) (src dst : string) :
  quiet (sanitize_pdf_no_metadata E src dst).
Proof.
  apply quiet_bind; [apply quiet_PdfReader|]. intros r. apply quiet_write_pdf.
Qed.

Lemma quiet_sanitize_output (E : engine) (out_path : string) :
  quiet (sanitize_output E out_path).
Proof.
  unfold sanitize_output. apply quiet_try.
  - apply quiet_bind; [apply quiet_os_replace|]. intros _.
    apply quiet_bind; [apply quiet_sanitize|]. intros _. apply quiet_os_remove.
  - apply quiet_try; [|apply quiet_ret].
    apply quiet_bind; [apply quiet_os_path_exists|].
    intros [|]; [apply quiet_os_replace | apply quiet_ret].
Qed.

Lemma merge_sources_cases (items : list string) (writer : PdfWriter) (w : world) :
  let r := merge_sources items writer w in
  files r.1 = files w
  /\ ((exists merged, r.2 = Ok (Some merged) /\ shown r.1 = shown w)
      \/ (r.2 = Ok None /\ shown r.1 = shown w ++ [showerror])).
Proof.
  revert writer w. induction items as [|path items IH]; intros writer w.
  - split; [reflexivity|]. left. now exists writer.
  - cbn [merge_sources]. cbv zeta. rewrite M_bind_eq.
    destruct (safe_open_reader_cases path w) as [Hfs [(d & Hr & Hs & _)|(Hr & Hs)]];
      destruct (safe_open_reader path w) as [w1 r1]; simpl in *; subst r1.
    + destruct (IH (fold_left add_page (pages d) writer) w1) as [Hfs' Hc].
      rewrite Hs, Hfs in *. split; assumption.
    + split; [exact Hfs|]. now right.
Qed.

(** X16. Once [merge_serial] has sources and an output name it never
    raises and always ends with exactly one message box, whatever read or
    write fails on the way: the info box of a finished merge or an error
    box. *)
Theorem merge_serial_one_message (E : engine) (items : list string) (out_path : string)
  (w : world) :
  items <> [] ->
  is_empty out_path = false ->
  let done := merge_serial E items out_path w in
  done.2 = Ok tt
  /\ (shown done.1 = shown w ++ [showinfo] \/ shown done.1 = shown w ++ [showerror]).
Proof.
  intros Hitems Hout. unfold merge_serial.
  destruct items as [|i items]; [contradiction|]. rewrite Hout. cbv zeta.
  unfold try_except. rewrite M_bind_eq.
  destruct (merge_sources_cases (i :: items) (new_writer E) w)
    as [_ [(merged & Hr & Hs)|(Hr & Hs)]];
    destruct (merge_sources (i :: items) (new_writer E) w) as [w1 r1];
    simpl in Hr, Hs; subst r1.
  2:{ simpl. split; [reflexivity|]. now right. }
  rewrite M_bind_eq. pose proof (quiet_write_pdf out_path merged w1) as Hw.
  destruct (write_pdf out_path merged w1) as [w2 [[]|e]]; simpl in Hw.
  2:{ simpl. split; [reflexivity|]. right. congruence. }
  rewrite M_bind_eq. pose proof (quiet_sanitize_output E out_path w2) as Hq.
  pose proof (sanitize_output_returns E out_path w2) as Hr.
  destruct (sanitize_output E out_path w2) as [w3 r3]. simpl in Hq, Hr. subst r3.
  simpl. split; [reflexivity|]. left. congruence.
Qed.

Lemma merge_serial_one_message_witness :
  let done := merge_serial pypdf ["a.pdf"; "plain.pdf"]%string "out.pdf"
                           (disk [false; false; false; true]) in
  done.2 = Ok tt
  /\ (shown done.1 = shown (disk [false; false; false; true]) ++ [showinfo]
      \/ shown done.1 = shown (disk [false; false; false; true]) ++ [showerror]).
Proof.
  apply (merge_serial_one_message pypdf ["a.pdf"; "plain.pdf"]%string "out.pdf"
           (disk [false; false; false; true])); [discriminate | reflexivity].
Defined.

End Messages.

(** ** Interleaving with an unknown mode *)

Lemma interleave_pages_unknown (A B : list Page) (mode : string) (start_from : Z)
  (writer : PdfWriter) :
  ~ In mode ["alternate"; "a_odd_b_even"; "a_even_b_odd"; "a_odd"; "b_even"]%string ->
  interleave_pages A B mode start_from writer = Ok None.
Proof.
  intros Hmode. unfold interleave_pages.
  repeat match goal with
         | |- context [String.eqb mode ?m] =>
             destruct (String.eqb_spec mode m) as [->|_];
             [exfalso; apply Hmode; simpl; tauto|]
         end.
  reflexivity.
Qed.

(** X17. [_do_interleave] with a mode that is none of the five known ones
    returns normally and never creates or changes a file; when both sources
    open and an output name was chosen it shows one error box. *)
Theorem interleave_unknown_mode (E : engine) (path_a path_b mode : string)
  (start_from : Z) (out_path : string) (w : world) :
  ~ In mode ["alternate"; "a_odd_b_even"; "a_even_b_odd"; "a_odd"; "b_even"]%string ->
  let done := _do_interleave E path_a path_b mode start_from out_path w in
  done.2 = Ok tt
  /\ files done.1 = files w
  /\ (forall a b,
        faults w = [] ->
        files w !! path_a = Some (PdfFile a) ->
        files w !! path_b = Some (PdfFile b) ->
        is_empty out_path = false ->
        shown done.1 = shown w ++ [showerror]).
Proof.
  intros Hmode. cbv zeta. unfold _do_interleave.
  rewrite M_bind_eq.
  destruct (safe_open_reader_cases path_a w) as [Hfa Ha].
  pose proof (fun d => safe_open_reader_ok path_a w d) as Hoka.
  destruct (safe_open_reader path_a w) as [w1 ra]. simpl in Hfa, Ha.
  assert (exists oa, ra = Ok oa) as [oa ->]
    by (destruct Ha as [(a & -> & _)|(-> & _)]; eexists; reflexivity).
  rewrite M_bind_eq.
  destruct (safe_open_reader_cases path_b w1) as [Hfb Hb].
  pose proof (fun d => safe_open_reader_ok path_b w1 d) as Hokb.
  destruct (safe_open_reader path_b w1) as [w2 rb]. simpl in Hfb, Hb.
  assert (exists ob, rb = Ok ob) as [ob ->]
    by (destruct Hb as [(b & -> & _)|(-> & _)]; eexists; reflexivity).
  assert (files w2 = files w) as Hfs by congruence.
  destruct oa as [a|], ob as [b|].
  2-4: simpl; split; [reflexivity|]; split; [exact Hfs|];
       intros a' b' Hf Hpa' Hpb' _.
  - rewrite (interleave_pages_unknown _ _ _ _ _ Hmode).
    destruct (is_empty out_path); simpl.
    + split; [reflexivity|]. split; [exact Hfs|]. discriminate.
    + split; [reflexivity|]. split; [exact Hfs|]. intros a' b' Hf Hpa' Hpb' _.
      specialize (Hoka a' Hf Hpa'). injection Hoka as -> _.
      specialize (Hokb b' Hf Hpb'). injection Hokb as -> _. reflexivity.
  - specialize (Hoka a' Hf Hpa'). injection Hoka as -> _.
    specialize (Hokb b' Hf Hpb'). discriminate.
  - specialize (Hoka a' Hf Hpa'). discriminate.
  - specialize (Hoka a' Hf Hpa'). discriminate.
Qed.

Lemma interleave_unknown_mode_witness :
  let done := _do_interleave pypdf "a.pdf" "plain.pdf" "zigzag" 1 "out.pdf" (disk []) in
  done.2 = Ok tt
  /\ files done.1 = files (disk [])
  /\ (forall a b,
        faults (disk []) = [] ->
        files (disk []) !! "a.pdf"%string = Some (PdfFile a) ->
        files (disk []) !! "plain.pdf"%string = Some (PdfFile b) ->
        is_empty "out.pdf" = false ->
        shown done.1 = shown (disk []) ++ [showerror]).
Proof.
  apply (interleave_unknown_mode pypdf "a.pdf" "plain.pdf" "zigzag" 1 "out.pdf" (disk [])).
  simpl. intros [H|[H|[H|[H|[H|[]]]]]]; discriminate.
Defined.

(** ** Batches of conversions *)

Section Batches.

Context (E : engine) (hst : host).

Lemma quiet_convert (in_path out_pdf kind : string) :
  quiet (convert_office_doc_to_pdf hst in_path out_pdf kind).
Proof.
  unfold convert_office_doc_to_pdf. cbv zeta.
  destruct (if (_ : bool) then office_export hst kind in_path else None) as [d|].
  - apply quiet_bind; [apply quiet_get_files|]. intros fs. apply quiet_set_files.
  - destruct (soffice_export hst in_path) as [d|]; [|apply quiet_raise].
    apply quiet_bind; [apply quiet_get_files|]. intros fs. apply quiet_set_files.
Qed.

Lemma quiet_remove_if_exists (p : string) : quiet (remove_if_exists p).
Proof.
  apply quiet_try; [|apply quiet_ret].
  apply quiet_bind; [apply quiet_os_path_exists|].
  intros [|]; [apply quiet_os_remove | apply quiet_ret].
Qed.

Lemma quiet_auto_rotate (src dst : string) :
  quiet (auto_rotate_pdf_pages_to_landscape E src dst).
Proof.
  apply quiet_bind; [apply quiet_PdfReader|]. intros r. apply quiet_write_pdf.
Qed.

Lemma quiet_convert_ppt_item (out_dir in_path : string) :
  quiet (convert_ppt_item E hst out_dir in_path).
Proof.
  apply quiet_bind; [apply quiet_convert|]. intros _.
  apply quiet_bind; [apply quiet_sanitize|]. intros _.
  apply quiet_try; [apply quiet_os_remove | apply quiet_ret].
Qed.

Lemma quiet_convert_word_item (out_dir in_path : string) :
  quiet (convert_word_item E hst out_dir in_path).
Proof.
  apply quiet_bind; [apply quiet_convert|]. intros _.
  apply quiet_bind; [apply quiet_sanitize|]. intros _.
  apply quiet_try; [apply quiet_os_remove | apply quiet_ret].
Qed.

Lemma quiet_convert_excel_item (force_landscape : bool) (out_dir in_path : string) :
  quiet (convert_excel_item E hst force_landscape out_dir in_path).
Proof.
  apply quiet_bind; [apply quiet_convert|]. intros _.
  apply quiet_bind.
  { destruct force_landscape; [|apply quiet_sanitize].
    apply quiet_bind; [apply quiet_auto_rotate|]. intros _. apply quiet_sanitize. }
  intros _. apply quiet_bind; [apply quiet_remove_if_exists|]. intros _.
  apply quiet_remove_if_exists.
Qed.

(** A batch whose body always raises on [bad] never gets past it. *)
Lemma for_each_path_stops (body : string -> M unit) (before after : list string)
  (bad : string) (w : world) :
  (forall p, quiet (body p)) ->
  (forall w', exists e, body bad w' = (w', Raise e)) ->
  for_each_path body (before ++ bad :: after) w
  = for_each_path body (before ++ [bad]) w
  /\ (exists e, (for_each_path body (before ++ bad :: after) w).2 = Raise e)
  /\ shown (for_each_path body (before ++ bad :: after) w).1 = shown w.
Proof.
  intros Hq Hbad. revert w. induction before as [|p before IH]; intros w.
  - cbn [app for_each_path]. rewrite !M_bind_eq.
    destruct (Hbad w) as [e He]. rewrite He. split; [reflexivity|].
    split; [now exists e | reflexivity].
  - cbn [app for_each_path]. rewrite !M_bind_eq.
    pose proof (Hq p w) as Hs. destruct (body p w) as [w1 [[]|e]]; simpl in Hs.
    + destruct (IH w1) as (H1 & H2 & H3). split; [exact H1|].
      split; [exact H2 | congruence].
    + split; [reflexivity|]. split; [now exists e | exact Hs].
Qed.

Lemma convert_fails (in_path out_pdf kind : string) (w : world) :
  (forall k, office_export hst k in_path = None) ->
  soffice_export hst in_path = None ->
  convert_office_doc_to_pdf hst in_path out_pdf kind w = (w, Raise RuntimeError).
Proof.
  intros Ho Hs. unfold convert_office_doc_to_pdf. rewrite Ho, Hs.
  now destruct (_ || _).
Qed.

(** X18. A batch conversion stops at the first file that neither Office
    nor LibreOffice can export: the files listed after it are never
    converted (the run is the same as if the list ended there), and the
    dialog ends with an error box and no info box. This holds for the
    PowerPoint, Word and Excel dialogs alike. *)
Theorem conversion_batch_stops_at_failure (before after : list string)
  (bad out_dir : string) (force_landscape : bool) (w : world) :
  is_empty out_dir = false ->
  (forall kind, office_export hst kind bad = None) ->
  soffice_export hst bad = None ->
  let paths := before ++ bad :: after in
  let stopped := before ++ [bad] in
  (convert_ppt_dialog E hst paths out_dir w = convert_ppt_dialog E hst stopped out_dir w
   /\ shown (convert_ppt_dialog E hst paths out_dir w).1 = shown w ++ [showerror])
  /\ (convert_word_dialog E hst paths out_dir w
      = convert_word_dialog E hst stopped out_dir w
      /\ shown (convert_word_dialog E hst paths out_dir w).1 = shown w ++ [showerror])
  /\ (convert_excel_dialog E hst paths out_dir force_landscape w
      = convert_excel_dialog E hst stopped out_dir force_landscape w
      /\ shown (convert_excel_dialog E hst paths out_dir force_landscape w).1
         = shown w ++ [showerror]).
Proof.
  intros Hout Ho Hs paths stopped.
  assert (forall (body : string -> M unit),
            (forall p, quiet (body p)) ->
            (forall w', exists e, body bad w' = (w', Raise e)) ->
            try_except (for_each_path body paths;; messagebox showinfo)
                       (messagebox showerror) w
            = try_except (for_each_path body stopped;; messagebox showinfo)
                         (messagebox showerror) w
            /\ shown (try_except (for_each_path body paths;; messagebox showinfo)
                                 (messagebox showerror) w).1
               = shown w ++ [showerror]) as Hloop.
  { intros body Hq Hbad.
    destruct (for_each_path_stops body before after bad w Hq Hbad) as (H1 & [e H2] & H3).
    unfold try_except. rewrite !M_bind_eq. fold paths stopped in H1, H2, H3 |- *.
    rewrite <- H1.
    destruct (for_each_path body paths w) as [w1 r]. simpl in H2, H3. subst r.
    simpl. split; [reflexivity | now rewrite H3]. }
  assert (paths <> []) as Hp by (subst paths; now destruct before).
  assert (stopped <> []) as Hp' by (subst stopped; now destruct before).
  unfold convert_ppt_dialog, convert_word_dialog, convert_excel_dialog.
  destruct paths as [|p0 paths0] eqn:Hpaths; [contradiction|].
  destruct stopped as [|s0 stopped0] eqn:Hstopped; [contradiction|].
  rewrite Hout.
  split; [|split]; apply Hloop.
  - apply quiet_convert_ppt_item.
  - intros w'. exists RuntimeError. unfold convert_ppt_item. rewrite M_bind_eq.
    now rewrite convert_fails.
  - apply quiet_convert_word_item.
  - intros w'. exists RuntimeError. unfold convert_word_item. rewrite M_bind_eq.
    now rewrite convert_fails.
  - apply quiet_convert_excel_item.
  - intros w'. exists RuntimeError. unfold convert_excel_item. rewrite M_bind_eq.
    now rewrite convert_fails.
Qed.

End Batches.

Lemma conversion_batch_stops_at_failure_witness :
  let hst := posix_host
               (fun kind p => if String.eqb p "bad.pptx" then None else Some plain_doc)
               (fun p => if String.eqb p "bad.pptx" then None else Some plain_doc) in
  let paths := ["ok.pptx"; "bad.pptx"; "next.pptx"]%string in
  let stopped := ["ok.pptx"; "bad.pptx"]%string in
  (convert_ppt_dialog pypdf hst paths "out" (disk [])
   = convert_ppt_dialog pypdf hst stopped "out" (disk [])
   /\ shown (convert_ppt_dialog pypdf hst paths "out" (disk [])).1
      = shown (disk []) ++ [showerror])
  /\ (convert_word_dialog pypdf hst paths "out" (disk [])
      = convert_word_dialog pypdf hst stopped "out" (disk [])
      /\ shown (convert_word_dialog pypdf hst paths "out" (disk [])).1
         = shown (disk []) ++ [showerror])
  /\ (convert_excel_dialog pypdf hst paths "out" true (disk [])
      = convert_excel_dialog pypdf hst stopped "out" true (disk [])
      /\ shown (convert_excel_dialog pypdf hst paths "out" true (disk [])).1
         = shown (disk []) ++ [showerror]).
Proof.
  intros hst.
  apply (conversion_batch_stops_at_failure pypdf hst ["ok.pptx"%string]
           ["next.pptx"%string] "bad.pptx" "out" true (disk []));
    [reflexivity | intros kind; reflexivity | reflexivity].
Defined.

(** ** Forcing landscape *)

Lemma fold_auto_rotate (ps : list Page) (w : PdfWriter) :
  fold_left auto_rotate_page ps w
  = InterleaveReference.add_pages w
      (map (fun p => if mediabox_width p <? mediabox_height p then rotate 90 p else p)
           ps).
Proof.
  revert w. induction ps as [|p ps IH]; intros w; cbn [fold_left map].
  - now rewrite add_pages_nil.
  - rewrite IH. unfold auto_rotate_page, add_page, InterleaveReference.add_pages.
    simpl. now rewrite <- app_assoc.
Qed.

Lemma auto_rotate_no_faults (E : engine) (src dst : string) (w : world) (d : Document) :
  files w !! src = Some (PdfFile d) -> faults w = [] ->
  auto_rotate_pdf_pages_to_landscape E src dst w
  = ({| files := <[dst := PdfFile
                    (written (fold_left auto_rotate_page (pages d) (new_writer E)))]>
                   (files w);
        faults := []; os_faults := os_faults w; shown := shown w |}, Ok tt).
Proof.
  destruct w as [fs fl ofl sh]. simpl. intros Hsrc ->.
  unfold auto_rotate_pdf_pages_to_landscape. step. rewrite Hsrc. step.
  now rewrite insert_insert_eq.
Qed.

(** X19. [auto_rotate_pdf_pages_to_landscape] keeps the number and order
    of the pages and adds 90 degrees to the rotation of every page whose
    media box is taller than wide. The test reads the media box only, which
    a rotation does not change: a second pass rotates the same pages again,
    to 180 degrees. *)
Theorem auto_rotate_twice (E : engine) (a b c : string) (w : world) (d : Document) :
  files w !! a = Some (PdfFile d) ->
  faults w = [] ->
  let first := auto_rotate_pdf_pages_to_landscape E a b w in
  let second := auto_rotate_pdf_pages_to_landscape E b c first.1 in
  first.2 = Ok tt /\ second.2 = Ok tt
  /\ exists d1 d2,
       files first.1 !! b = Some (PdfFile d1)
       /\ files second.1 !! c = Some (PdfFile d2)
       /\ pages d1
          = map (fun p => if mediabox_width p <? mediabox_height p
                          then rotate 90 p else p) (pages d)
       /\ pages d2
          = map (fun p => if mediabox_width p <? mediabox_height p
                          then rotate 180 p else p) (pages d).
Proof.
  intros Ha Hf. cbv zeta.
  rewrite (auto_rotate_no_faults E a b w d Ha Hf). cbn [fst snd].
  erewrite (auto_rotate_no_faults E b c); [|apply lookup_insert_eq | reflexivity].
  cbn [fst snd files]. split; [reflexivity|]. split; [reflexivity|].
  eexists _, _. rewrite !lookup_insert_eq. split; [reflexivity|]. split; [reflexivity|].
  rewrite !fold_auto_rotate. cbn [written pages w_pages InterleaveReference.add_pages
                                   new_writer app].
  split; [reflexivity|]. rewrite map_map. apply map_ext. intros p.
  destruct (mediabox_width p <? mediabox_height p) eqn:Hp; cbn [rotate mediabox_width
    mediabox_height]; rewrite Hp; [|reflexivity].
  unfold rotate. cbn. f_equal. lia.
Qed.

Lemma auto_rotate_twice_witness :
  let first := auto_rotate_pdf_pages_to_landscape pypdf "a.pdf" "b.pdf" (disk []) in
  let second := auto_rotate_pdf_pages_to_landscape pypdf "b.pdf" "c.pdf" first.1 in
  first.2 = Ok tt /\ second.2 = Ok tt
  /\ exists d1 d2,
       files first.1 !! "b.pdf"%string = Some (PdfFile d1)
       /\ files second.1 !! "c.pdf"%string = Some (PdfFile d2)
       /\ pages d1
          = map (fun p => if mediabox_width p <? mediabox_height p
                          then rotate 90 p else p) (pages three_pages)
       /\ pages d2
          = map (fun p => if mediabox_width p <? mediabox_height p
                          then rotate 180 p else p) (pages three_pages).
Proof.
  apply (auto_rotate_twice pypdf "a.pdf" "b.pdf" "c.pdf" (disk []) three_pages);
    reflexivity.
Defined.

(** ** Reversing and rotating *)

Section ReverseRotate.

Import InterleaveReference.

Lemma countdown (n : nat) :
  map (fun k => Z.of_nat n - 1 + Z.of_nat k * -1) (seq 0 n)
  = rev (map (fun k => 0 + Z.of_nat k) (seq 0 n)).
Proof.
  induction n as [|n IH]; [reflexivity|].
  rewrite seq_S at 2. rewrite map_app, rev_app_distr. cbn [map rev app plus].
  rewrite <- cons_seq. cbn [map]. f_equal; [lia|].
  rewrite <- seq_shift, map_map, <- IH. apply map_ext. intros k. lia.
Qed.

Lemma range_countdown (total : Z) :
  0 <= total ->
  range (total - 1) (-1) (-1) = Ok (rev (page_numbers 0 (total - 1))).
Proof.
  intros Ht. unfold range, range_len, page_numbers.
  change (-1 =? 0) with false. change (0 <? -1) with false. cbv iota.
  replace (Z.to_nat (total - 1 - 0 + 1)) with (Z.to_nat total) by lia.
  destruct (Z.ltb_spec (-1) (total - 1)).
  - replace (Z.to_nat ((total - 1 - -1 - 1) / - -1 + 1)) with (Z.to_nat total).
    2:{ change (- -1) with 1. rewrite Z.div_1_r. lia. }
    rewrite <- countdown. f_equal. apply map_ext. intros k. lia.
  - replace total with 0 by lia. reflexivity.
Qed.

Lemma pages_reversed (l : list Page) :
  pages_at l (rev (page_numbers 0 (Z.of_nat (length l) - 1))) = rev l.
Proof.
  unfold pages_at. rewrite map_rev. f_equal. apply pages_by_number.
Qed.

Lemma reverse_pages_dialog_run (E : engine) (items : list string) (chosen : Z)
  (path out_path : string) (reader : Document) (w : world) :
  faults w = [] ->
  index items chosen = Ok path ->
  files w !! path = Some (PdfFile reader) ->
  is_empty out_path = false ->
  reverse_pages_dialog E items [chosen] out_path w
  = (write_pdf out_path (add_pages (new_writer E) (rev (pages reader)));;
     sanitize_output E out_path;;
     messagebox showinfo) w.
Proof.
  intros Hf Hi Hp Hout. unfold reverse_pages_dialog.
  rewrite M_bind_eq, (selected_reader_ok items chosen path reader w Hf Hi Hp).
  rewrite Hout. cbv zeta. rewrite M_bind_eq. unfold lift at 1.
  rewrite range_countdown by lia. cbn [mbind result_bind bind].
  rewrite extract_loop.
  - now rewrite pages_reversed.
  - apply List.Forall_forall. intros i Hin. apply List.in_rev, page_numbers_In in Hin. lia.
Qed.

(** X20. [reverse_pages_dialog] with one selected file that is a readable
    PDF, a non-empty output name that contains [.pdf] (so that the
    [.__tmp__.pdf] working name differs from it), and no failure (no read
    or write of a PDF, no [os.replace] or [os.remove] fails): the output
    path ends up holding the pages of the source in reverse order, with the
    information dictionary of a new writer and no XMP; one info box is
    shown. *)
Theorem reverse_pages_dialog_output (E : engine) (items : list string) (chosen : Z)
  (path out_path : string) (reader : Document) (w : world) :
  faults w = [] -> os_faults w = [] ->
  index items chosen = Ok path ->
  files w !! path = Some (PdfFile reader) ->
  is_empty out_path = false ->
  replace ".pdf" ".__tmp__.pdf" out_path <> out_path ->
  let done := reverse_pages_dialog E items [chosen] out_path w in
  done.2 = Ok tt
  /\ shown done.1 = shown w ++ [showinfo]
  /\ files done.1 !! out_path
     = Some (PdfFile {| pages := rev (pages reader);
                        info := fresh_info E; xmp := None |}).
Proof.
  intros Hf Hos Hi Hp Hout Hne. cbv zeta.
  rewrite (reverse_pages_dialog_run E items chosen path out_path reader w)
    by assumption.
  now apply assembled.
Qed.

Lemma reverse_pages_dialog_output_witness :
  let done := reverse_pages_dialog pypdf ["a.pdf"]%string [0] "r.pdf" (disk []) in
  done.2 = Ok tt
  /\ shown done.1 = shown (disk []) ++ [showinfo]
  /\ files done.1 !! "r.pdf"%string
     = Some (PdfFile {| pages := rev (pages three_pages);
                        info := fresh_info pypdf; xmp := None |}).
Proof.
  apply (reverse_pages_dialog_output pypdf ["a.pdf"]%string 0 "a.pdf" "r.pdf"
           three_pages (disk [])); try reflexivity; discriminate.
Defined.

Lemma assembled_faults (E : engine) (out_path : string) (ps : list Page) (w : world) :
  faults w = [] -> os_faults w = [] ->
  replace ".pdf" ".__tmp__.pdf" out_path <> out_path ->
  let done := (write_pdf out_path (add_pages (new_writer E) ps);;
               sanitize_output E out_path;;
               messagebox showinfo) w in
  faults done.1 = [] /\ os_faults done.1 = [].
Proof.
  intros Hf Hos Hne.
  pose proof (write_then_sanitize E out_path (add_pages (new_writer E) ps) w Hf Hos Hne)
    as Hfin.
  rewrite M_bind_eq in Hfin. cbv zeta. rewrite M_bind_eq.
  destruct (write_pdf out_path (add_pages (new_writer E) ps) w) as [w1 [[]|e]];
    [|discriminate].
  rewrite M_bind_eq, Hfin. split; reflexivity.
Qed.

(** X21. Reversing the reversed file gives a file with the pages of the
    original, in their original order. This holds for [reverse_pages_dialog]
    run on one selected file that is a readable PDF and then on its own
    output, with two non-empty output names that each contain [.pdf] (so
    that the [.__tmp__.pdf] working name differs from the output name), when
    nothing fails in either run (no read or write of a PDF, no [os.replace]
    or [os.remove]). *)
Theorem reverse_twice_restores (E : engine) (items : list string) (chosen : Z)
  (path out1 out2 : string) (reader : Document) (w : world) :
  faults w = [] -> os_faults w = [] ->
  index items chosen = Ok path ->
  files w !! path = Some (PdfFile reader) ->
  is_empty out1 = false ->
  is_empty out2 = false ->
  replace ".pdf" ".__tmp__.pdf" out1 <> out1 ->
  replace ".pdf" ".__tmp__.pdf" out2 <> out2 ->
  let first := reverse_pages_dialog E items [chosen] out1 w in
  let second := reverse_pages_dialog E [out1] [0] out2 first.1 in
  second.2 = Ok tt
  /\ files second.1 !! out2
     = Some (PdfFile {| pages := pages reader; info := fresh_info E; xmp := None |}).
Proof.
  intros Hf Hos Hi Hp Hout1 Hout2 Hne1 Hne2. cbv zeta.
  rewrite (reverse_pages_dialog_run E items chosen path out1 reader w) by assumption.
  pose proof (assembled_faults E out1 (rev (pages reader)) w Hf Hos Hne1) as [Hf1 Hos1].
  destruct (assembled E out1 (rev (pages reader)) w Hf Hos Hne1) as (_ & _ & Hfile1).
  set (w1 := ((write_pdf out1 (add_pages (new_writer E) (rev (pages reader)));;
               sanitize_output E out1;; messagebox showinfo) w).1) in *.
  rewrite (reverse_pages_dialog_run E [out1] 0 out1 out2 _ w1 Hf1 eq_refl Hfile1 Hout2).
  cbn [pages]. rewrite rev_involutive.
  destruct (assembled E out2 (pages reader) w1 Hf1 Hos1 Hne2) as (Hr & _ & Hfile2).
  split; assumption.
Qed.

Lemma reverse_twice_restores_witness :
  let first := reverse_pages_dialog pypdf ["a.pdf"]%string [0] "r.pdf" (disk []) in
  let second := reverse_pages_dialog pypdf ["r.pdf"]%string [0] "rr.pdf" first.1 in
  second.2 = Ok tt
  /\ files second.1 !! "rr.pdf"%string
     = Some (PdfFile {| pages := pages three_pages;
                        info := fresh_info pypdf; xmp := None |}).
Proof.
  apply (reverse_twice_restores pypdf ["a.pdf"]%string 0 "a.pdf" "r.pdf" "rr.pdf"
           three_pages (disk [])); try reflexivity; discriminate.
Defined.

(** *** Rotation *)

Lemma rotate_0 (p : Page) : rotate 0 p = p.
Proof. destruct p. unfold rotate. simpl. f_equal. lia. Qed.

Lemma rotate_page_right_angle (p : Page) (degrees : Z) :
  degrees mod 90 = 0 -> rotate_page p degrees = Ok (rotate (degrees mod 360) p).
Proof.
  intros Hd. unfold rotate_page, page_rotate. cbv zeta.
  destruct (Z.eqb_spec (degrees mod 360) 0) as [->|_]; [now rewrite rotate_0|].
  rewrite Z.mod_mod_divide by now exists 4.
  now rewrite Hd.
Qed.

Lemma rotate_page_other_angle (p : Page) (degrees : Z) :
  degrees mod 90 <> 0 -> rotate_page p degrees = Raise ValueError.
Proof.
  intros Hd. unfold rotate_page, page_rotate. cbv zeta.
  assert ((degrees mod 360) mod 90 = degrees mod 90) as Hm.
  { apply Z.mod_mod_divide. now exists 4. }
  destruct (Z.eqb_spec (degrees mod 360) 0) as [H0|_].
  - rewrite H0 in Hm. now destruct Hd.
  - rewrite Hm. now destruct (Z.eqb_spec (degrees mod 90) 0).
Qed.

Lemma by_position {B} (f : nat -> Page -> B) (l : list Page) :
  map (fun k => f k (nth k l (page_n 0))) (seq 0 (length l)) = imap f l.
Proof.
  revert f. induction l as [|x l IH]; intros f; [reflexivity|].
  cbn [length]. rewrite <- cons_seq, imap_cons. cbn [map nth]. f_equal.
  rewrite <- seq_shift, map_map. apply (IH (f ∘ S)).
Qed.

Lemma by_page_number {B} (f : nat -> Page -> B) (l : list Page) :
  map (fun i => f (Z.to_nat i) (nth (Z.to_nat i) l (page_n 0)))
      (page_numbers 0 (Z.of_nat (length l) - 1))
  = imap f l.
Proof.
  unfold page_numbers. rewrite map_map.
  replace (Z.to_nat (Z.of_nat (length l) - 1 - 0 + 1)) with (length l) by lia.
  rewrite <- by_position. apply map_ext. intros k.
  now replace (Z.to_nat (0 + Z.of_nat k)) with k by lia.
Qed.

Lemma rotate_loop (reader : Document) (idxs : list Z) (degrees : Z)
  (numbers : list Z) (w : PdfWriter) :
  degrees mod 90 = 0 ->
  Forall (fun i => 0 <= i < Z.of_nat (length (pages reader))) numbers ->
  for_each (rotate_body reader (list_to_set idxs) degrees) numbers w
  = Ok (add_pages w
          (map (fun i => turned idxs degrees (Z.to_nat i)
                           (nth (Z.to_nat i) (pages reader) (page_n 0)))
               numbers)).
Proof.
  intros Hd H. revert w.
  induction H as [|i numbers Hi _ IH]; intros w; cbn [for_each map].
  - now rewrite add_pages_nil.
  - assert (rotate_body reader (list_to_set idxs) degrees w i
            = Ok (add_page w (turned idxs degrees (Z.to_nat i)
                                (nth (Z.to_nat i) (pages reader) (page_n 0))))) as ->.
    { unfold rotate_body, turned. rewrite index_nth by exact Hi.
      cbn [mbind result_bind bind].
      replace (Z.of_nat (Z.to_nat i)) with i by lia.
      rewrite (bool_decide_ext (i ∈ (list_to_set idxs : gset Z)) (i ∈ idxs))
        by apply elem_of_list_to_set.
      destruct (bool_decide (i ∈ idxs)); [|reflexivity].
      now rewrite rotate_page_right_angle. }
    cbn [mbind result_bind bind]. rewrite IH.
    unfold add_page, add_pages. simpl. now rewrite <- app_assoc.
Qed.

Lemma range_all (total : Z) : range 0 total 1 = Ok (page_numbers 0 (total - 1)).
Proof. rewrite <- range_page_numbers. f_equal. lia. Qed.

(** The indices [_do_rotate] selects lie inside the document. *)
Lemma rotate_selection_in_bounds (ranges : string) (total : Z) (idxs : list Z) :
  (if is_empty (strip ranges) then range 0 total 1
   else V1_2.parse_page_ranges ranges total) = Ok idxs ->
  Forall (fun i => 0 <= i < total) idxs.
Proof.
  destruct (is_empty (strip ranges)).
  - rewrite range_all. intros [= <-]. apply List.Forall_forall.
    intros i Hi. apply page_numbers_In in Hi. lia.
  - rewrite parse_page_ranges_reference. intros [= <-]. apply parse_in_bounds.
Qed.

Lemma do_rotate_run (E : engine) (path : string) (degrees : Z)
  (ranges out_path : string) (reader : Document) (idxs : list Z) (w : world) :
  faults w = [] ->
  files w !! path = Some (PdfFile reader) ->
  degrees mod 90 = 0 ->
  is_empty out_path = false ->
  (if is_empty (strip ranges) then range 0 (Z.of_nat (length (pages reader))) 1
   else V1_2.parse_page_ranges ranges (Z.of_nat (length (pages reader)))) = Ok idxs ->
  _do_rotate E path degrees ranges out_path w
  = (write_pdf out_path
       (add_pages (new_writer E) (imap (turned idxs degrees) (pages reader)));;
     sanitize_output E out_path;;
     messagebox showinfo) w.
Proof.
  intros Hf Hp Hd Hout Hsel. unfold _do_rotate.
  rewrite M_bind_eq, (safe_open_reader_ok path w reader Hf Hp).
  cbv zeta. rewrite M_bind_eq. unfold lift at 1. rewrite Hsel, Hout.
  rewrite M_bind_eq. unfold lift at 1. rewrite range_all.
  cbn [mbind result_bind bind].
  rewrite rotate_loop.
  - now rewrite by_page_number.
  - exact Hd.
  - apply List.Forall_forall. intros i Hi. apply page_numbers_In in Hi. lia.
Qed.

(** X22. [_do_rotate] on a readable PDF with an angle that is a multiple
    of 90, a non-empty output name that contains [.pdf] (so that the
    [.__tmp__.pdf] working name differs from it), and no failure (no read
    or write of a PDF, no [os.replace] or [os.remove] fails): one info box
    is shown and the output holds every page of the source in its place;
    the pages at the selected indices have the angle, reduced modulo 360,
    added to their rotation and the others are unchanged. A blank
    expression selects every page. *)
Theorem rotate_pages_output (E : engine) (path : string) (degrees : Z)
  (ranges out_path : string) (reader : Document) (w : world) :
  faults w = [] -> os_faults w = [] ->
  files w !! path = Some (PdfFile reader) ->
  degrees mod 90 = 0 ->
  is_empty out_path = false ->
  replace ".pdf" ".__tmp__.pdf" out_path <> out_path ->
  let total := Z.of_nat (length (pages reader)) in
  let done := _do_rotate E path degrees ranges out_path w in
  exists idxs,
    (if is_empty (strip ranges) then range 0 total 1
     else V1_2.parse_page_ranges ranges total) = Ok idxs
    /\ done.2 = Ok tt
    /\ shown done.1 = shown w ++ [showinfo]
    /\ files done.1 !! out_path
       = Some (PdfFile {| pages := imap (turned idxs degrees) (pages reader);
                          info := fresh_info E; xmp := None |})
    /\ (is_empty (strip ranges) = true ->
        imap (turned idxs degrees) (pages reader)
        = map (rotate (degrees mod 360)) (pages reader)).
Proof.
  intros Hf Hos Hp Hd Hout Hne total done.
  assert (exists idxs, (if is_empty (strip ranges) then range 0 total 1
                        else V1_2.parse_page_ranges ranges total) = Ok idxs)
    as [idxs Hsel].
  { destruct (is_empty (strip ranges)).
    - rewrite range_all. eexists. reflexivity.
    - rewrite parse_page_ranges_reference. eexists. reflexivity. }
  exists idxs. split; [exact Hsel|].
  subst done.
  rewrite (do_rotate_run E path degrees ranges out_path reader idxs w) by assumption.
  destruct (assembled E out_path (imap (turned idxs degrees) (pages reader)) w Hf Hos Hne)
    as (Hr & Hs & Hfile).
  split; [exact Hr|]. split; [exact Hs|]. split; [exact Hfile|].
  intros Hblank. rewrite Hblank, range_all in Hsel. injection Hsel as <-.
  rewrite <- (imap_const (rotate (degrees mod 360))). apply imap_ext.
  intros i p Hip. unfold turned, const. rewrite bool_decide_true; [reflexivity|].
  apply list_elem_of_In, page_numbers_In.
  apply lookup_lt_Some in Hip. lia.
Qed.

Lemma rotate_pages_output_witness :
  let total := Z.of_nat (length (pages three_pages)) in
  let done := _do_rotate pypdf "a.pdf" 450 "2-3" "t.pdf" (disk []) in
  exists idxs,
    (if is_empty (strip "2-3") then range 0 total 1
     else V1_2.parse_page_ranges "2-3" total) = Ok idxs
    /\ done.2 = Ok tt
    /\ shown done.1 = shown (disk []) ++ [showinfo]
    /\ files done.1 !! "t.pdf"%string
       = Some (PdfFile {| pages := imap (turned idxs 450) (pages three_pages);
                          info := fresh_info pypdf; xmp := None |})
    /\ (is_empty (strip "2-3") = true ->
        imap (turned idxs 450) (pages three_pages)
        = map (rotate (450 mod 360)) (pages three_pages)).
Proof.
  apply (rotate_pages_output pypdf "a.pdf" 450 "2-3" "t.pdf" three_pages (disk []));
    try reflexivity; discriminate.
Defined.

Lemma rotate_loop_rejects (reader : Document) (idx_set : gset Z) (degrees : Z)
  (numbers : list Z) (w : PdfWriter) :
  degrees mod 90 <> 0 ->
  Forall (fun i => 0 <= i < Z.of_nat (length (pages reader))) numbers ->
  Exists (fun i => i ∈ idx_set) numbers ->
  for_each (rotate_body reader idx_set degrees) numbers w = Raise ValueError.
Proof.
  intros Hd Hb Hex. revert w.
  induction Hb as [|i numbers Hi _ IH]; intros w; [inversion Hex|].
  cbn [for_each].
  destruct (bool_decide (i ∈ idx_set)) eqn:Hin.
  - assert (rotate_body reader idx_set degrees w i = Raise ValueError) as ->;
      [|reflexivity].
    unfold rotate_body. rewrite index_nth by exact Hi.
    cbn [mbind result_bind bind]. rewrite Hin.
    now rewrite rotate_page_other_angle.
  - assert (rotate_body reader idx_set degrees w i
            = Ok (add_page w (nth (Z.to_nat i) (pages reader) (page_n 0)))) as ->.
    { unfold rotate_body. rewrite index_nth by exact Hi.
      cbn [mbind result_bind bind]. now rewrite Hin. }
    cbn [mbind result_bind bind]. apply IH.
    inversion Hex as [? ? Hhere|]; [|assumption].
    apply bool_decide_eq_false in Hin. contradiction.
Qed.

(** X23. An angle that is not a multiple of 90 is not checked by the
    program: as soon as one page is selected, the [ValueError] of the PDF
    library leaves [_do_rotate], no file is written and no message box is
    shown. *)
Theorem rotate_rejects_other_angles (E : engine) (path : string) (degrees : Z)
  (ranges out_path : string) (reader : Document) (idxs : list Z) (w : world) :
  faults w = [] ->
  files w !! path = Some (PdfFile reader) ->
  degrees mod 90 <> 0 ->
  (if is_empty (strip ranges) then range 0 (Z.of_nat (length (pages reader))) 1
   else V1_2.parse_page_ranges ranges (Z.of_nat (length (pages reader)))) = Ok idxs ->
  idxs <> [] ->
  is_empty out_path = false ->
  _do_rotate E path degrees ranges out_path w = (w, Raise ValueError).
Proof.
  intros Hf Hp Hd Hsel Hsome Hout.
  pose proof (rotate_selection_in_bounds _ _ _ Hsel) as Hb.
  unfold _do_rotate.
  rewrite M_bind_eq, (safe_open_reader_ok path w reader Hf Hp).
  cbv zeta. rewrite M_bind_eq. unfold lift at 1. rewrite Hsel, Hout.
  rewrite M_bind_eq. unfold lift at 1. rewrite range_all.
  cbn [mbind result_bind bind].
  rewrite rotate_loop_rejects; [reflexivity | exact Hd | |].
  - apply List.Forall_forall. intros i Hi. apply page_numbers_In in Hi. lia.
  - destruct idxs as [|i idxs]; [contradiction|].
    apply List.Exists_exists. exists i.
    pose proof (proj1 (List.Forall_cons_iff _ _ _) Hb) as [Hi _].
    split; [apply page_numbers_In; lia|].
    apply elem_of_list_to_set. constructor.
Qed.

Lemma rotate_rejects_other_angles_witness :
  _do_rotate pypdf "a.pdf" 45 " " "t.pdf" (disk []) = (disk [], Raise ValueError).
Proof.
  apply (rotate_rejects_other_angles pypdf "a.pdf" 45 " " "t.pdf" three_pages
           [0; 1; 2] (disk [])); try reflexivity; discriminate.
Defined.

End ReverseRotate.

(** ** Splitting *)

Section Splitting.

Import InterleaveReference.

Lemma first_by_number (l : list Page) (m : nat) :
  (m <= length l)%nat ->
  map (fun k => nth k l (page_n 0)) (seq 0 m) = firstn m l.
Proof.
  revert l. induction m as [|m IH]; intros l Hm; [reflexivity|].
  destruct l as [|x l]; [simpl in Hm; lia|].
  rewrite <- cons_seq. cbn [map nth firstn]. f_equal.
  rewrite <- seq_shift, map_map. apply IH. simpl in Hm. lia.
Qed.

Lemma pages_slice (l : list Page) (s e : Z) :
  0 <= s <= e -> e <= Z.of_nat (length l) ->
  pages_at l (page_numbers s (e - 1))
  = firstn (Z.to_nat (e - s)) (skipn (Z.to_nat s) l).
Proof.
  intros Hs He. unfold pages_at, page_numbers. rewrite map_map.
  replace (Z.to_nat (e - 1 - s + 1)) with (Z.to_nat (e - s)) by lia.
  rewrite <- first_by_number by (rewrite List.length_skipn; lia).
  apply map_ext. intros k. rewrite nth_skipn. f_equal. lia.
Qed.

Lemma split_chunk_pages (E : engine) (reader : Document) (n start : Z) :
  1 <= n -> 0 <= start <= Z.of_nat (length (pages reader)) ->
  split_chunk E reader n (Z.of_nat (length (pages reader))) start
  = Ok (add_pages (new_writer E)
          (firstn (Z.to_nat n) (skipn (Z.to_nat start) (pages reader)))).
Proof.
  intros Hn Hs. unfold split_chunk. cbv zeta.
  set (total := Z.of_nat (length (pages reader))) in *.
  set (e := Z.min (start + n) total).
  assert (range start e 1 = Ok (page_numbers start (e - 1))) as ->.
  { rewrite <- range_page_numbers. f_equal. lia. }
  cbn [mbind result_bind bind]. rewrite extract_loop.
  2:{ apply List.Forall_forall. intros i Hi. apply page_numbers_In in Hi.
      subst e total. lia. }
  rewrite pages_slice by (subst e total; lia).
  do 2 f_equal. subst e.
  destruct (Z.min_spec (start + n) total) as [[_ ->]|[Hge ->]].
  - f_equal. lia.
  - rewrite !firstn_all2; [reflexivity | |]; rewrite List.length_skipn;
      subst total; lia.
Qed.

Lemma chunks_concat (l : list Page) (n m : nat) :
  (length l <= m * n)%nat ->
  concat (map (fun k => firstn n (skipn (k * n) l)) (seq 0 m)) = l.
Proof.
  revert l. induction m as [|m IH]; intros l Hl.
  - destruct l; [reflexivity | simpl in Hl; lia].
  - rewrite <- cons_seq. cbn [map concat]. rewrite <- seq_shift, map_map.
    cbn [Nat.mul skipn].
    etransitivity; [|apply (firstn_skipn n l)]. f_equal.
    etransitivity; [|apply (IH (skipn n l)); rewrite List.length_skipn; lia].
    f_equal. apply map_ext. intros k. rewrite List.skipn_skipn.
    do 2 f_equal. lia.
Qed.

Lemma range_starts (total n : Z) :
  1 <= n -> 0 <= total ->
  exists m : nat,
    range 0 total n = Ok (map (fun k => Z.of_nat k * n) (seq 0 m))
    /\ total <= Z.of_nat m * n
    /\ forall k, (k < m)%nat -> Z.of_nat k * n < total.
Proof.
  intros Hn Ht. unfold range, range_len.
  destruct (Z.eqb_spec n 0) as [->|_]; [lia|].
  destruct (Z.ltb_spec 0 n) as [_|]; [|lia].
  destruct (Z.ltb_spec 0 total) as [Hpos|Hzero].
  - exists (Z.to_nat ((total - 0 - 1) / n + 1)).
    assert (0 <= (total - 0 - 1) / n) by (apply Z.div_pos; lia).
    pose proof (Z.mul_div_le (total - 0 - 1) n ltac:(lia)).
    pose proof (Z.mul_succ_div_gt (total - 0 - 1) n ltac:(lia)).
    split; [reflexivity|]. split; [nia|]. intros k Hk. nia.
  - exists 0%nat. split; [reflexivity|]. split; [lia|]. intros k Hk. lia.
Qed.

(** X24. The parts [split_every_dialog] builds for a part size of at
    least 1 cover the document: building a part never raises, the parts
    put end to end are the pages of the source in order, and every part
    has at least one and at most [n] pages. *)
Theorem split_parts_cover (E : engine) (reader : Document) (n : Z) :
  1 <= n ->
  let total := Z.of_nat (length (pages reader)) in
  exists starts parts,
    range 0 total n = Ok starts
    /\ Forall2 (fun start part => split_chunk E reader n total start = Ok part)
               starts parts
    /\ concat (map w_pages parts) = pages reader
    /\ Forall (fun part => (1 <= length (w_pages part) <= Z.to_nat n)%nat) parts.
Proof.
  intros Hn total.
  destruct (range_starts total n Hn ltac:(lia)) as (m & Hrange & Hcover & Hstart).
  set (part_at := fun k : nat =>
         add_pages (new_writer E)
           (firstn (Z.to_nat n) (skipn (k * Z.to_nat n) (pages reader)))).
  exists (map (fun k => Z.of_nat k * n) (seq 0 m)), (map part_at (seq 0 m)).
  split; [exact Hrange|]. split; [|split].
  - apply Forall2_fmap, Forall_Forall2_diag, List.Forall_forall.
    intros k Hk. apply List.in_seq in Hk.
    specialize (Hstart k ltac:(lia)).
    subst total. rewrite split_chunk_pages by lia.
    subst part_at. cbv beta. do 3 f_equal.
    rewrite Z2Nat.inj_mul, Nat2Z.id by lia. reflexivity.
  - rewrite map_map. subst part_at. cbn [w_pages add_pages new_writer app].
    apply chunks_concat. subst total.
    apply Nat2Z.inj_le. rewrite Nat2Z.inj_mul, Z2Nat.id by lia. exact Hcover.
  - apply List.Forall_forall. intros part Hin.
    apply List.in_map_iff in Hin as (k & <- & Hk). apply List.in_seq in Hk.
    specialize (Hstart k ltac:(lia)).
    subst part_at. cbn [w_pages add_pages new_writer app].
    rewrite List.length_firstn, List.length_skipn. subst total.
    assert (k * Z.to_nat n < length (pages reader))%nat.
    { apply Nat2Z.inj_lt. rewrite Nat2Z.inj_mul, Z2Nat.id by lia. exact Hstart. }
    lia.
Qed.

Lemma split_parts_cover_witness :
  let total := Z.of_nat (length (pages three_pages)) in
  exists starts parts,
    range 0 total 2 = Ok starts
    /\ Forall2 (fun start part => split_chunk pypdf three_pages 2 total start = Ok part)
               starts parts
    /\ concat (map w_pages parts) = pages three_pages
    /\ Forall (fun part => (1 <= length (w_pages part) <= Z.to_nat 2)%nat) parts.
Proof. apply (split_parts_cover pypdf three_pages 2). lia. Defined.

(** One part, written and sanitized. *)
Lemma split_body_run (E : engine) (hst : host) (reader : Document)
  (out_dir base : string) (n start : Z) (w : world) :
  let total := Z.of_nat (length (pages reader)) in
  let out_path := split_name hst out_dir base n total start in
  let tmp2 := replace ".pdf" ".__tmp__.pdf" out_path in
  faults w = [] -> os_faults w = [] ->
  1 <= n -> 0 <= start <= total -> tmp2 <> out_path ->
  split_body E hst reader out_dir base n total start w
  = ({| files := delete tmp2
                   (<[out_path := PdfFile
                        {| pages := firstn (Z.to_nat n)
                                      (skipn (Z.to_nat start) (pages reader));
                           info := fresh_info E; xmp := None |}]> (files w));
        faults := []; os_faults := []; shown := shown w |}, Ok tt).
Proof.
  intros total out_path tmp2 Hf Hos Hn Hs Hne. unfold split_body.
  rewrite M_bind_eq. unfold lift at 1. subst total.
  rewrite split_chunk_pages by assumption. cbv zeta.
  fold out_path. rewrite (write_then_sanitize E out_path _ w Hf Hos Hne).
  fold tmp2. now rewrite sanitize_writer_written.
Qed.

Lemma split_loop (E : engine) (hst : host) (reader : Document)
  (out_dir base : string) (n : Z) (starts : list Z) (w : world) :
  let total := Z.of_nat (length (pages reader)) in
  let name := split_name hst out_dir base n total in
  let tmp2 := fun start => replace ".pdf" ".__tmp__.pdf" (name start) in
  faults w = [] -> os_faults w = [] -> 1 <= n ->
  Forall (fun start => 0 <= start <= total) starts ->
  List.NoDup (map name starts) ->
  (forall s s', In s starts -> In s' starts -> tmp2 s <> name s') ->
  let done := for_each_number (split_body E hst reader out_dir base n total) starts w in
  done.2 = Ok tt
  /\ faults done.1 = []
  /\ shown done.1 = shown w
  /\ (forall s, In s starts ->
        files done.1 !! name s
        = Some (PdfFile {| pages := firstn (Z.to_nat n)
                                      (skipn (Z.to_nat s) (pages reader));
                           info := fresh_info E; xmp := None |}))
  /\ (forall q, (forall s, In s starts -> q <> name s /\ q <> tmp2 s) ->
        files done.1 !! q = files w !! q).
Proof.
  intros total name tmp2 Hf Hos Hn Hb Hnd Htmp. revert w Hf Hos.
  induction starts as [|s starts IH]; intros w Hf Hos done.
  - subst done. simpl. repeat split; try assumption. intros s [].
  - subst done. cbn [for_each_number]. rewrite M_bind_eq.
    apply List.Forall_cons_iff in Hb as [Hs Hb].
    cbn [map] in Hnd. apply List.NoDup_cons_iff in Hnd as [Hfresh Hnd].
    pose proof (split_body_run E hst reader out_dir base n s w Hf Hos Hn Hs) as Hrun.
    cbv zeta in Hrun. fold total in Hrun. fold name in Hrun. fold (tmp2 s) in Hrun.
    rewrite Hrun by (apply Htmp; now left). clear Hrun.
    match goal with |- context [for_each_number _ starts ?w'] => set (w1 := w') end.
    destruct (IH Hb Hnd (fun a b Ha Hb' => Htmp a b (or_intror Ha) (or_intror Hb'))
                w1 eq_refl eq_refl) as (Hr & Hf' & Hsh & Hparts & Hframe).
    split; [exact Hr|]. split; [exact Hf'|]. split; [exact Hsh|]. split.
    + intros s' [<-|Hin]; [|now apply Hparts].
      rewrite Hframe.
      * subst w1. cbn [files].
        rewrite lookup_delete_ne by (apply Htmp; now left).
        apply lookup_insert_eq.
      * intros s' Hin. split.
        -- intros Heq. apply Hfresh. rewrite Heq. now apply List.in_map.
        -- intros Heq. apply (Htmp s' s); [now right | now left | now symmetry].
    + intros q Hq. rewrite Hframe by (intros s' Hin; apply Hq; now right).
      subst w1. cbn [files]. destruct (Hq s (or_introl eq_refl)) as [Hq1 Hq2].
      rewrite lookup_delete_ne, lookup_insert_ne by congruence. reflexivity.
Qed.

Lemma split_every_dialog_run (E : engine) (hst : host) (items : list string)
  (chosen n : Z) (path out_dir : string) (reader : Document) (starts : list Z)
  (w : world) :
  let total := Z.of_nat (length (pages reader)) in
  let base := os_path_splitext_root hst (os_path_basename hst path) in
  faults w = [] ->
  index items chosen = Ok path ->
  files w !! path = Some (PdfFile reader) ->
  is_empty out_dir = false ->
  range 0 total n = Ok starts ->
  split_every_dialog E hst items [chosen] (Some n) out_dir w
  = (for_each_number (split_body E hst reader out_dir base n total) starts;;
     messagebox showinfo) w.
Proof.
  intros total base Hf Hi Hp Hout Hrange. unfold split_every_dialog.
  destruct items as [|i0 items]; [destruct chosen; discriminate|].
  rewrite M_bind_eq. unfold lift at 1. rewrite Hi.
  rewrite M_bind_eq, (safe_open_reader_ok path w reader Hf Hp).
  rewrite Hout. cbv zeta. fold total base. rewrite M_bind_eq. unfold lift at 1.
  now rewrite Hrange.
Qed.

(** X25. [split_every_dialog] on a readable selected file, when nothing
    fails (no read or write of a PDF, no [os.replace] or [os.remove]): for
    every start index the file named after it holds the (at
    most [n]) pages from that index on, with the information dictionary of
    a new writer and no XMP, and one info box is shown; provided the part
    names are distinct and no part's working name is a part name. *)
Theorem split_every_dialog_files (E : engine) (hst : host) (items : list string)
  (chosen n : Z) (path out_dir : string) (reader : Document) (starts : list Z)
  (w : world) :
  let total := Z.of_nat (length (pages reader)) in
  let base := os_path_splitext_root hst (os_path_basename hst path) in
  let name := split_name hst out_dir base n total in
  faults w = [] -> os_faults w = [] ->
  index items chosen = Ok path ->
  files w !! path = Some (PdfFile reader) ->
  1 <= n ->
  is_empty out_dir = false ->
  range 0 total n = Ok starts ->
  List.NoDup (map name starts) ->
  (forall s s', In s starts -> In s' starts ->
     replace ".pdf" ".__tmp__.pdf" (name s) <> name s') ->
  let done := split_every_dialog E hst items [chosen] (Some n) out_dir w in
  done.2 = Ok tt
  /\ shown done.1 = shown w ++ [showinfo]
  /\ (forall s, In s starts ->
        files done.1 !! name s
        = Some (PdfFile {| pages := firstn (Z.to_nat n)
                                      (skipn (Z.to_nat s) (pages reader));
                           info := fresh_info E; xmp := None |})).
Proof.
  intros total base name Hf Hos Hi Hp Hn Hout Hrange Hnd Htmp done.
  subst done.
  rewrite (split_every_dialog_run E hst items chosen n path out_dir reader starts w)
    by assumption.
  fold total base. rewrite M_bind_eq.
  assert (Forall (fun start => 0 <= start <= total) starts) as Hb.
  { destruct (range_starts total n Hn ltac:(lia)) as (m & Hm & _ & Hlt).
    rewrite Hm in Hrange. injection Hrange as <-.
    apply List.Forall_forall. intros s Hin.
    apply List.in_map_iff in Hin as (k & <- & Hk). apply List.in_seq in Hk.
    specialize (Hlt k ltac:(lia)). nia. }
  destruct (split_loop E hst reader out_dir base n starts w Hf Hos Hn Hb Hnd Htmp)
    as (Hr & _ & Hsh & Hparts & _).
  fold total in Hr, Hsh, Hparts |- *.
  destruct (for_each_number (split_body E hst reader out_dir base n total) starts w)
    as [w1 r]. simpl in Hr, Hsh, Hparts. subst r.
  simpl. split; [reflexivity|]. split; [now rewrite Hsh | exact Hparts].
Qed.

Lemma split_every_dialog_files_witness :
  let hst := posix_host (fun _ _ => None) (fun _ => None) in
  let name := split_name hst "out" "a" 2 3 in
  let done := split_every_dialog pypdf hst ["a.pdf"]%string [0] (Some 2) "out"
                (disk []) in
  done.2 = Ok tt
  /\ shown done.1 = shown (disk []) ++ [showinfo]
  /\ (forall s, In s [0; 2] ->
        files done.1 !! name s
        = Some (PdfFile {| pages := firstn (Z.to_nat 2)
                                      (skipn (Z.to_nat s) (pages three_pages));
                           info := fresh_info pypdf; xmp := None |})).
Proof.
  intros hst name.
  apply (split_every_dialog_files pypdf hst ["a.pdf"]%string 0 2 "a.pdf" "out"
           three_pages [0; 2] (disk [])); try reflexivity; try lia.
  - change (List.NoDup ["out/a_part_1-2.pdf"; "out/a_part_3-3.pdf"]%string).
    repeat constructor; simpl; intuition discriminate.
  - intros s s' [<-|[<-|[]]] [<-|[<-|[]]]; discriminate.
Defined.

End Splitting.

(** ** The file list *)

Section FileList.

Lemma delete_at (A B : list string) (x : string) :
  Listbox.delete (A ++ x :: B) (Z.of_nat (length A)) = A ++ B.
Proof.
  unfold Listbox.delete, Listbox.inside. rewrite Nat2Z.id, length_app. cbn [length].
  destruct (Z.leb_spec 0 (Z.of_nat (length A))); [|lia].
  destruct (Z.ltb_spec (Z.of_nat (length A)) (Z.of_nat (length A + S (length B))));
    [|lia].
  cbn [andb]. rewrite take_app_length.
  change (S (length A)) with (1 + length A)%nat.
  rewrite <- List.skipn_skipn, drop_app_length. reflexivity.
Qed.

Lemma get_at (A B : list string) (x : string) :
  Listbox.get (A ++ x :: B) (Z.of_nat (length A)) = x.
Proof.
  unfold Listbox.get, Listbox.inside. rewrite Nat2Z.id, length_app. cbn [length].
  destruct (Z.leb_spec 0 (Z.of_nat (length A))); [|lia].
  destruct (Z.ltb_spec (Z.of_nat (length A)) (Z.of_nat (length A + S (length B))));
    [|lia].
  cbn [andb]. rewrite List.app_nth2, Nat.sub_diag by lia. reflexivity.
Qed.

Lemma insert_at (A B : list string) (x : string) :
  Listbox.insert (A ++ B) (Z.of_nat (length A)) x = A ++ x :: B.
Proof.
  unfold Listbox.insert. rewrite Nat2Z.id, take_app_length, drop_app_length.
  reflexivity.
Qed.

Lemma unselected_below (idxs : list Z) (A : list string) (offset : nat) :
  Forall (fun i => Z.of_nat (offset + length A) <= i) idxs ->
  concat (imap (fun k x => if bool_decide (Z.of_nat (offset + k) ∈ idxs)
                           then [] else [x]) A) = A.
Proof.
  intros Hlow. revert offset Hlow. induction A as [|a A IH]; intros offset Hlow;
    [reflexivity|].
  rewrite imap_cons. cbn [concat]. rewrite bool_decide_false.
  - cbn [app]. f_equal.
    rewrite <- (IH (S offset)) at 2.
    + f_equal. apply imap_ext. intros k x _. unfold compose.
      now replace (offset + S k)%nat with (S offset + k)%nat by lia.
    + eapply List.Forall_impl; [|exact Hlow]. cbn [length]. intros i Hi. lia.
  - intros Hin. rewrite List.Forall_forall in Hlow.
    apply list_elem_of_In in Hin. specialize (Hlow _ Hin). cbn [length] in Hlow. lia.
Qed.

Lemma unselected_none (idxs : list Z) (A : list string) :
  Forall (fun i => Z.of_nat (length A) <= i) idxs ->
  unselected idxs A = A.
Proof. intros Hlow. exact (unselected_below idxs A 0 Hlow). Qed.

Lemma fold_left_rev {A B} (f : A -> B -> A) (l : list B) (a : A) :
  fold_left f (rev l) a = fold_right (fun x acc => f acc x) a l.
Proof.
  induction l as [|x l IH]; [reflexivity|].
  cbn [rev fold_right]. now rewrite fold_left_app, IH.
Qed.

(** X26. [remove_selected] for a selection as the listbox reports it
    (ascending, inside the list) leaves exactly the entries at the
    unselected positions, in their order; the list gets shorter by the
    size of the selection. *)
Theorem remove_selected_keeps_the_rest (idxs : list Z) (items : list string) :
  StronglySorted Z.lt idxs ->
  Forall (fun i => 0 <= i < Z.of_nat (length items)) idxs ->
  remove_selected idxs items = unselected idxs items
  /\ (length (remove_selected idxs items) + length idxs = length items)%nat.
Proof.
  intros Hsorted Hb.
  assert (fold_left Listbox.delete (rev idxs) items = unselected idxs items
          /\ (length (unselected idxs items) + length idxs = length items)%nat)
    as [Hfold Hlen].
  { rewrite fold_left_rev.
    induction Hsorted as [|i0 rest Hsorted IH Hlt].
    - cbn [fold_right]. rewrite unselected_none by constructor.
      split; [reflexivity | cbn [length]; lia].
    - apply List.Forall_cons_iff in Hb as [Hi0 Hb].
      destruct (IH Hb) as [IHeq IHlen]. clear IH.
      cbn [fold_right]. rewrite IHeq.
      assert (exists A x B, items = A ++ x :: B /\ length A = Z.to_nat i0)
        as (A & x & B & -> & HA).
      { destruct (nth_error items (Z.to_nat i0)) as [x|] eqn:Hx.
        - apply List.nth_error_split in Hx as (A & B & -> & HA). now exists A, x, B.
        - apply List.nth_error_None in Hx. lia. }
      assert (forall idxs',
                unselected idxs' (A ++ x :: B)
                = unselected idxs' A
                  ++ (if bool_decide (i0 ∈ idxs') then [] else [x])
                  ++ concat (imap (fun k y =>
                               if bool_decide (Z.of_nat (length A + S k) ∈ idxs')
                               then [] else [y]) B)) as Hsplit.
      { intros idxs'. unfold unselected. rewrite imap_app, concat_app, imap_cons.
        cbn [concat]. rewrite Nat.add_0_r.
        replace (Z.of_nat (length A)) with i0 by lia. reflexivity. }
      assert (Forall (fun i => Z.of_nat (length A) <= i) (i0 :: rest)) as Hlow.
      { constructor; [lia|]. eapply List.Forall_impl; [|exact Hlt].
        cbv beta. intros i Hi. lia. }
      assert (Forall (fun i => Z.of_nat (length A) <= i) rest) as Hlow'
        by now apply List.Forall_cons_iff in Hlow as [_ ?].
      assert (concat (imap (fun k y =>
                        if bool_decide (Z.of_nat (length A + S k) ∈ i0 :: rest)
                        then [] else [y]) B)
              = concat (imap (fun k y =>
                          if bool_decide (Z.of_nat (length A + S k) ∈ rest)
                          then [] else [y]) B)) as Htail.
      { f_equal. apply imap_ext. intros k y _.
        apply (f_equal (fun b : bool => if b then [] else [y])).
        apply bool_decide_ext. rewrite elem_of_cons. split; [|tauto].
        intros [Heq|Hin]; [lia | exact Hin]. }
      assert (i0 ∉ rest) as Hnot.
      { intros Hin. apply list_elem_of_In in Hin.
        rewrite List.Forall_forall in Hlt. specialize (Hlt _ Hin). lia. }
      rewrite (Hsplit (i0 :: rest)), (unselected_none (i0 :: rest) A Hlow).
      rewrite (bool_decide_true (i0 ∈ i0 :: rest)) by constructor.
      rewrite (Hsplit rest), (unselected_none rest A Hlow') in IHlen |- *.
      rewrite (bool_decide_false (i0 ∈ rest)) in IHlen |- * by exact Hnot.
      rewrite Htail. cbn [app].
      replace i0 with (Z.of_nat (length A)) at 1 by lia.
      cbn [app] in IHlen. rewrite delete_at. split; [reflexivity|].
      rewrite !length_app in *. cbn [length] in *. lia. }
  unfold remove_selected. destruct idxs as [|i idxs].
  - cbn [rev fold_left] in Hfold. rewrite <- Hfold in Hlen |- *.
    split; [reflexivity | exact Hlen].
  - rewrite Hfold. split; [reflexivity | exact Hlen].
Qed.

Lemma remove_selected_keeps_the_rest_witness :
  remove_selected [0; 2; 3] ["a"; "b"; "c"; "d"; "e"]%string
  = unselected [0; 2; 3] ["a"; "b"; "c"; "d"; "e"]%string
  /\ (length (remove_selected [0; 2; 3]%Z ["a"; "b"; "c"; "d"; "e"]%string)
      + length [0; 2; 3]%Z = length ["a"; "b"; "c"; "d"; "e"]%string)%nat.
Proof.
  apply (remove_selected_keeps_the_rest [0; 2; 3] ["a"; "b"; "c"; "d"; "e"]%string).
  - repeat constructor.
  - repeat constructor; cbn; lia.
Defined.

(** *** Moving the selection *)

Lemma positions_cons (first count : nat) :
  positions first (S count) = Z.of_nat first :: positions (S first) count.
Proof. reflexivity. Qed.

Lemma positions_snoc (first count : nat) :
  positions first (S count) = positions first count ++ [Z.of_nat (first + count)].
Proof. unfold positions. now rewrite seq_S, map_app. Qed.

Lemma move_down_at (A B : list string) (b x : string) :
  move_step 1 (A ++ b :: x :: B) (Z.of_nat (length A)) = A ++ x :: b :: B.
Proof.
  unfold move_step. cbv zeta. rewrite length_app. cbn [length].
  destruct (Z.leb_spec 0 (Z.of_nat (length A) + 1)); [|lia].
  destruct (Z.ltb_spec (Z.of_nat (length A) + 1)
              (Z.of_nat (length A + S (S (length B))))); [|lia].
  cbn [andb]. rewrite get_at, delete_at.
  replace (Z.of_nat (length A) + 1) with (Z.of_nat (length (A ++ [x])))
    by (rewrite length_app; cbn [length]; lia).
  change (A ++ x :: B) with (A ++ [x] ++ B). rewrite app_assoc, insert_at.
  now rewrite <- app_assoc.
Qed.

Lemma move_up_at (A B : list string) (b x : string) :
  move_step (-1) (A ++ x :: b :: B) (Z.of_nat (length (A ++ [x]))) = A ++ b :: x :: B.
Proof.
  unfold move_step. cbv zeta. rewrite !length_app. cbn [length].
  destruct (Z.leb_spec 0 (Z.of_nat (length A + 1) + -1)); [|lia].
  destruct (Z.ltb_spec (Z.of_nat (length A + 1) + -1)
              (Z.of_nat (length A + S (S (length B))))); [|lia].
  cbn [andb].
  assert (A ++ x :: b :: B = (A ++ [x]) ++ b :: B) as Hre
    by now rewrite <- app_assoc.
  replace (Z.of_nat (length A + 1)) with (Z.of_nat (length (A ++ [x])))
    by (rewrite length_app; cbn [length]; lia).
  rewrite Hre, get_at, delete_at, <- app_assoc.
  replace (Z.of_nat (length (A ++ [x])) + -1) with (Z.of_nat (length A))
    by (rewrite length_app; cbn [length]; lia).
  now rewrite insert_at.
Qed.

Lemma move_block_down (A B C : list string) (x : string) :
  fold_left (move_step 1) (rev (positions (length A) (length B))) (A ++ B ++ x :: C)
  = A ++ x :: B ++ C.
Proof.
  revert C. induction B as [|b B IH] using rev_ind; intros C; [reflexivity|].
  rewrite length_app. cbn [length]. rewrite Nat.add_1_r, positions_snoc, rev_app_distr.
  cbn [rev app fold_left]. rewrite <- !app_assoc. cbn [app].
  replace (A ++ B ++ b :: x :: C) with ((A ++ B) ++ b :: x :: C)
    by now rewrite <- app_assoc.
  rewrite <- length_app, move_down_at, <- app_assoc. apply (IH (b :: C)).
Qed.

Lemma move_block_up (A B C : list string) (x : string) :
  fold_left (move_step (-1)) (positions (S (length A)) (length B)) (A ++ x :: B ++ C)
  = A ++ B ++ x :: C.
Proof.
  revert A. induction B as [|b B IH]; intros A; [reflexivity|].
  cbn [length]. rewrite positions_cons. cbn [fold_left app].
  replace (Z.of_nat (S (length A))) with (Z.of_nat (length (A ++ [x])))
    by (rewrite length_app; cbn [length]; lia).
  rewrite move_up_at.
  replace (S (S (length A))) with (S (length (A ++ [b])))
    by (rewrite length_app; cbn [length]; lia).
  replace (A ++ b :: x :: B ++ C) with ((A ++ [b]) ++ x :: B ++ C)
    by now rewrite <- app_assoc.
  rewrite IH. now rewrite <- app_assoc.
Qed.

Lemma move_first_down (A B C : list string) (b x : string) :
  fold_left (move_step 1) (positions (length A) (S (length B))) (A ++ b :: B ++ x :: C)
  = A ++ B ++ x :: b :: C.
Proof.
  revert A. induction B as [|b' B IH]; intros A.
  - cbn [length positions seq map fold_left app]. apply move_down_at.
  - cbn [length]. rewrite positions_cons. cbn [fold_left app].
    rewrite move_down_at.
    replace (S (length A)) with (length (A ++ [b']))
      by (rewrite length_app; cbn [length]; lia).
    replace (A ++ b' :: b :: B ++ x :: C) with ((A ++ [b']) ++ b :: B ++ x :: C)
      by now rewrite <- app_assoc.
    rewrite IH. now rewrite <- app_assoc.
Qed.

(** X27. [move_selected] moves a block of neighbouring selected entries
    as a whole: moving down swaps the block with the entry after it, moving
    up swaps it with the entry before it, and the order inside the block is
    kept. *)
Theorem move_selected_block (A B C : list string) (x : string) :
  B <> [] ->
  move_selected 1 (positions (length A) (length B)) (A ++ B ++ x :: C)
  = A ++ x :: B ++ C
  /\ move_selected (-1) (positions (S (length A)) (length B)) (A ++ x :: B ++ C)
     = A ++ B ++ x :: C.
Proof.
  intros HB. destruct B as [|b B]; [contradiction|].
  unfold move_selected. cbn [length]. rewrite !positions_cons.
  change (1 <? 0) with false. change (-1 <? 0) with true. cbv iota.
  rewrite <- !positions_cons. split.
  - apply (move_block_down A (b :: B) C x).
  - apply (move_block_up A (b :: B) C x).
Qed.

Lemma move_selected_block_witness :
  let A := ["a"%string] in
  let B := ["b"%string; "c"%string] in
  let C := ["d"%string] in
  let x := "x"%string in
  move_selected 1 (positions (length A) (length B)) (A ++ B ++ x :: C)
  = A ++ x :: B ++ C
  /\ move_selected (-1) (positions (S (length A)) (length B)) (A ++ x :: B ++ C)
     = A ++ B ++ x :: C.
Proof.
  apply (move_selected_block ["a"%string] ["b"%string; "c"%string] ["d"%string]
           "x"%string).
  discriminate.
Defined.

(** X28. The older program walked the selection upwards in both
    directions: moving a block down there carried only its first entry,
    past the rest of the block and the entry after it. *)
Theorem move_selected_OLD_down (A B C : list string) (b x : string) :
  move_selected_OLD 1 (positions (length A) (S (length B))) (A ++ b :: B ++ x :: C)
  = A ++ B ++ x :: b :: C.
Proof.
  unfold move_selected_OLD. rewrite positions_cons. rewrite <- positions_cons.
  apply move_first_down.
Qed.

End FileList.

(** ** Dropped files *)

Section Dropped.

Variable normpath : string -> string.

Lemma append_empty (s : string) : (s ++ EmptyString)%string = s.
Proof.
  induction s as [|c s IH]; [reflexivity|].
  change (String c (s ++ EmptyString)%string = String c s). now rewrite IH.
Qed.

Lemma append_snoc (token n : string) (ch : ascii) :
  ((token ++ String ch EmptyString) ++ n)%string = (token ++ String ch n)%string.
Proof.
  induction token as [|c token IH]; [reflexivity|].
  change (String c ((token ++ String ch EmptyString) ++ n)%string
          = String c (token ++ String ch n)%string).
  now rewrite IH.
Qed.

Lemma list_ascii_app (a b : string) :
  list_ascii_of_string (a ++ b) = list_ascii_of_string a ++ list_ascii_of_string b.
Proof. induction a as [|c a IH]; [reflexivity|]. simpl. now rewrite IH. Qed.

Lemma dnd_scan_app (st : dnd_state) (a b : string) :
  dnd_scan st (a ++ b)
  = dnd_scan (fold_left dnd_step (list_ascii_of_string a) st) b.
Proof. unfold dnd_scan. now rewrite list_ascii_app, fold_left_app. Qed.

Lemma dnd_step_out (o : list string) (st : dnd_state) (ch : ascii) :
  dnd_step {| dnd_out := o ++ dnd_out st; dnd_token := dnd_token st;
              dnd_in_brace := dnd_in_brace st |} ch
  = {| dnd_out := o ++ dnd_out (dnd_step st ch);
       dnd_token := dnd_token (dnd_step st ch);
       dnd_in_brace := dnd_in_brace (dnd_step st ch) |}.
Proof.
  unfold dnd_step. cbn [dnd_out dnd_token dnd_in_brace].
  destruct (Ascii.eqb ch "{"); [reflexivity|].
  destruct (Ascii.eqb ch "}"); [cbn; now rewrite app_assoc|].
  destruct (Ascii.eqb ch " " && negb (dnd_in_brace st)); [|reflexivity].
  destruct (is_empty (dnd_token st)); [reflexivity|]. cbn. now rewrite app_assoc.
Qed.

Lemma dnd_scan_out (o : list string) (st : dnd_state) (data : string) :
  dnd_scan {| dnd_out := o ++ dnd_out st; dnd_token := dnd_token st;
              dnd_in_brace := dnd_in_brace st |} data
  = o ++ dnd_scan st data.
Proof.
  unfold dnd_scan. revert st.
  induction (list_ascii_of_string data) as [|ch l IH]; intros st.
  - cbn [fold_left dnd_token dnd_out].
    destruct (is_empty (dnd_token st)); [reflexivity | now rewrite app_assoc].
  - cbn [fold_left]. rewrite dnd_step_out. apply IH.
Qed.

(** Characters of a name outside braces are gathered in the token. *)
Lemma dnd_gather_plain (o : list string) (token n : string) :
  plain_name n = true ->
  fold_left dnd_step (list_ascii_of_string n)
            {| dnd_out := o; dnd_token := token; dnd_in_brace := false |}
  = {| dnd_out := o; dnd_token := token ++ n; dnd_in_brace := false |}.
Proof.
  revert token. induction n as [|ch n IH]; intros token Hn.
  - simpl. now rewrite append_empty.
  - unfold plain_name in Hn. cbn [list_ascii_of_string forallb] in Hn.
    apply andb_true_iff in Hn as [Hch Hn].
    apply negb_true_iff, orb_false_iff in Hch as [Hch Hsp].
    apply orb_false_iff in Hch as [Hop Hcl].
    cbn [list_ascii_of_string fold_left]. unfold dnd_step at 2.
    rewrite Hop, Hcl, Hsp. cbn [andb dnd_out dnd_token dnd_in_brace].
    rewrite (IH _ Hn). f_equal. apply append_snoc.
Qed.

(** Inside braces spaces are gathered too. *)
Lemma dnd_gather_braced (o : list string) (token n : string) :
  brace_free n = true ->
  fold_left dnd_step (list_ascii_of_string n)
            {| dnd_out := o; dnd_token := token; dnd_in_brace := true |}
  = {| dnd_out := o; dnd_token := token ++ n; dnd_in_brace := true |}.
Proof.
  revert token. induction n as [|ch n IH]; intros token Hn.
  - simpl. now rewrite append_empty.
  - unfold brace_free in Hn. cbn [list_ascii_of_string forallb] in Hn.
    apply andb_true_iff in Hn as [Hch Hn].
    apply negb_true_iff, orb_false_iff in Hch as [Hop Hcl].
    cbn [list_ascii_of_string fold_left]. unfold dnd_step at 2.
    rewrite Hop, Hcl. cbn [negb andb dnd_out dnd_token dnd_in_brace].
    rewrite andb_false_r.
    rewrite (IH _ Hn). f_equal. apply append_snoc.
Qed.

Lemma parse_is_scan (data : string) :
  _parse_dnd_file_list normpath data = map normpath (dnd_scan dnd_start data).
Proof. unfold _parse_dnd_file_list. now destruct data. Qed.

Lemma scan_after (n : string) (data : string) :
  dnd_scan {| dnd_out := [n]; dnd_token := EmptyString; dnd_in_brace := false |} data
  = n :: dnd_scan dnd_start data.
Proof. exact (dnd_scan_out [n] dnd_start data). Qed.

Lemma dnd_scan_cons (st : dnd_state) (ch : ascii) (data : string) :
  dnd_scan st (String ch data) = dnd_scan (dnd_step st ch) data.
Proof. reflexivity. Qed.

(** X29. How [_parse_dnd_file_list] reads a drop string, piece by piece:
    a braced name is taken whole, spaces included, and what stood directly
    before the opening brace is lost; a name without braces ends at the
    next space; a lone name is returned; a leading space is skipped. Each
    name is passed through [os.path.normpath]. *)
Theorem parse_dnd_file_list_tokens :
  (forall junk n rest,
     plain_name junk = true -> brace_free n = true ->
     _parse_dnd_file_list normpath (junk ++ "{" ++ n ++ "}" ++ rest)
     = normpath n :: _parse_dnd_file_list normpath rest)
  /\ (forall n rest,
        plain_name n = true -> is_empty n = false ->
        _parse_dnd_file_list normpath (n ++ " " ++ rest)
        = normpath n :: _parse_dnd_file_list normpath rest)
  /\ (forall n,
        plain_name n = true -> is_empty n = false ->
        _parse_dnd_file_list normpath n = [normpath n])
  /\ (forall rest,
        _parse_dnd_file_list normpath (" " ++ rest)
        = _parse_dnd_file_list normpath rest).
Proof.
  split; [|split; [|split]].
  - intros junk n rest Hjunk Hn. rewrite !parse_is_scan.
    rewrite dnd_scan_app. unfold dnd_start at 1.
    rewrite (dnd_gather_plain _ _ _ Hjunk).
    change ("{" ++ n ++ "}" ++ rest)%string with (String "{" (n ++ "}" ++ rest)).
    rewrite dnd_scan_cons.
    change (dnd_step _ "{")
      with {| dnd_out := []; dnd_token := EmptyString; dnd_in_brace := true |}.
    rewrite dnd_scan_app, (dnd_gather_braced _ _ _ Hn).
    change ("}" ++ rest)%string with (String "}" rest).
    rewrite dnd_scan_cons.
    change (dnd_step _ "}")
      with {| dnd_out := [] ++ [(EmptyString ++ n)%string]; dnd_token := EmptyString;
              dnd_in_brace := false |}.
    change ([] ++ [(EmptyString ++ n)%string]) with [n].
    now rewrite scan_after.
  - intros n rest Hn Hne. rewrite !parse_is_scan.
    rewrite dnd_scan_app. unfold dnd_start at 1.
    rewrite (dnd_gather_plain _ _ _ Hn).
    change (" " ++ rest)%string with (String " " rest).
    rewrite dnd_scan_cons.
    change (EmptyString ++ n)%string with n.
    assert (dnd_step {| dnd_out := []; dnd_token := n; dnd_in_brace := false |} " "
            = {| dnd_out := [n]; dnd_token := EmptyString; dnd_in_brace := false |})
      as ->.
    { unfold dnd_step. change (Ascii.eqb " " "{") with false.
      change (Ascii.eqb " " "}") with false. change (Ascii.eqb " " " ") with true.
      cbn [negb andb dnd_in_brace dnd_token dnd_out]. now rewrite Hne. }
    now rewrite scan_after.
  - intros n Hn Hne. rewrite parse_is_scan. unfold dnd_scan, dnd_start.
    rewrite (dnd_gather_plain _ _ _ Hn). cbn [dnd_token dnd_out].
    change (EmptyString ++ n)%string with n.
    now rewrite Hne.
  - intros rest. rewrite !parse_is_scan.
    change (" " ++ rest)%string with (String " " rest).
    now rewrite dnd_scan_cons.
Qed.

End Dropped.

(** ** The working name of the sanitize block *)

Section WorkingName.

Lemma length_append (a b : string) :
  String.length (a ++ b) = (String.length a + String.length b)%nat.
Proof.
  induction a as [|c a IH]; [reflexivity|].
  change (S (String.length (a ++ b)) = S (String.length a + String.length b)).
  now rewrite IH.
Qed.

Lemma replace_from_cons (old new : string) (c : ascii) (rest : string) (skip : nat) :
  replace_from old new (String c rest) skip
  = match skip with
    | S k => replace_from old new rest k
    | O =>
        if String.prefix old (String c rest)
        then (new ++ replace_from old new rest (String.length old - 1))%string
        else String c (replace_from old new rest 0)
    end.
Proof. reflexivity. Qed.

Lemma replace_not_shorter (s : string) (skip : nat) :
  (String.length s
   <= String.length (replace_from ".pdf" ".__tmp__.pdf" s skip) + skip)%nat.
Proof.
  revert skip. induction s as [|c s IH]; intros skip; [simpl; lia|].
  rewrite replace_from_cons. destruct skip as [|k].
  - destruct (String.prefix ".pdf" (String c s)).
    + rewrite length_append. specialize (IH (String.length ".pdf" - 1)%nat).
      change (String.length ".pdf" - 1)%nat with 3%nat in *.
      change (String.length ".__tmp__.pdf") with 12%nat.
      change (String.length (String c s)) with (S (String.length s)). lia.
    + specialize (IH 0%nat).
      change (String.length (String c ?x)) with (S (String.length x)).
      change (String.length (String c s)) with (S (String.length s)). lia.
  - specialize (IH k). change (String.length (String c s)) with (S (String.length s)).
    lia.
Qed.

Lemma replace_longer (a b : string) :
  (String.length (a ++ ".pdf" ++ b)
   < String.length (replace ".pdf" ".__tmp__.pdf" (a ++ ".pdf" ++ b)))%nat.
Proof.
  unfold replace.
  assert (forall c s,
            String.prefix ".pdf" (String c s) = true ->
            (String.length (String c s)
             < String.length (replace_from ".pdf" ".__tmp__.pdf" (String c s) 0))%nat)
    as Hmatch.
  { intros c s Hp. rewrite replace_from_cons, Hp, length_append.
    pose proof (replace_not_shorter s 3) as Hs.
    change (String.length ".pdf" - 1)%nat with 3%nat.
    change (String.length ".__tmp__.pdf") with 12%nat.
    change (String.length (String c s)) with (S (String.length s)). lia. }
  induction a as [|c a IH].
  - apply Hmatch. destruct b; reflexivity.
  - change ((String c a ++ ".pdf" ++ b)%string) with (String c (a ++ ".pdf" ++ b)).
    destruct (String.prefix ".pdf" (String c (a ++ ".pdf" ++ b))) eqn:Hp.
    + now apply Hmatch.
    + rewrite replace_from_cons, Hp.
      change (String.length (String c ?x)) with (S (String.length x)).
      change (String.length (String c (a ++ ".pdf" ++ b)))
        with (S (String.length (a ++ ".pdf" ++ b))). lia.
Qed.

Lemma prefix_app (p s : string) :
  String.prefix p s = true -> exists b, s = (p ++ b)%string.
Proof.
  revert s. induction p as [|c p IH]; intros s Hp; [now exists s|].
  destruct s as [|c' s]; [discriminate|].
  cbn [String.prefix] in Hp. destruct (ascii_dec c c') as [->|]; [|discriminate].
  destruct (IH s Hp) as [b ->]. now exists b.
Qed.

Lemma replace_nothing (s : string) :
  (forall a b, s <> (a ++ ".pdf" ++ b)%string) ->
  replace ".pdf" ".__tmp__.pdf" s = s.
Proof.
  unfold replace. induction s as [|c s IH]; intros Hno; [reflexivity|].
  rewrite replace_from_cons.
  destruct (String.prefix ".pdf" (String c s)) eqn:Hp.
  - apply prefix_app in Hp as [b Hb]. destruct (Hno EmptyString b). exact Hb.
  - f_equal. apply IH. intros a b ->. apply (Hno (String c a) b). reflexivity.
Qed.

(** Whether [.pdf] occurs in a name can be decided by scanning it. *)
Lemma classic_occurrence (s : string) :
  (exists a b, s = (a ++ ".pdf" ++ b)%string)
  \/ (forall a b, s <> (a ++ ".pdf" ++ b)%string).
Proof.
  induction s as [|c s IH].
  - right. intros [|c a] b; discriminate.
  - destruct (String.prefix ".pdf" (String c s)) eqn:Hp.
    + left. apply prefix_app in Hp as [b Hb]. now exists EmptyString, b.
    + destruct IH as [(a & b & ->)|Hno].
      * left. now exists (String c a), b.
      * right. intros [|c' a] b Heq.
        -- rewrite Heq in Hp. destruct b; discriminate.
        -- injection Heq as -> ->. now apply (Hno a b).
Qed.

(** X30. The working name every assembly operation computes,
    [out_path.replace(".pdf", ".__tmp__.pdf")], differs from the output
    name exactly when [.pdf] occurs in the output name, in that spelling. *)
Theorem working_name_differs (out_path : string) :
  replace ".pdf" ".__tmp__.pdf" out_path <> out_path
  <-> exists a b, out_path = (a ++ ".pdf" ++ b)%string.
Proof.
  split.
  - intros Hne.
    destruct (classic_occurrence out_path) as [Hyes|Hno]; [exact Hyes|].
    destruct Hne. now apply replace_nothing.
  - intros (a & b & ->) Heq.
    pose proof (replace_longer a b) as Hlen. rewrite Heq in Hlen. lia.
Qed.

End WorkingName.
